(** * pg_auto_failover: the keeper's SQL client and the monitor protocol

    A shallow embedding of [src/bin/pg_autoctl/pgsql.c] (module [Pgsql]) and
    of the monitor operations exercised by the regression script
    [src/monitor/expected/monitor.out] (module [Monitor]), followed by the
    properties established about them. *)

From Stdlib Require Import ZArith List String Ascii Bool Lia DecimalString.
Import ListNotations.
Local Open Scope string_scope.
Local Open Scope list_scope.
Local Open Scope Z_scope.

Declare Scope cstr_scope.
Delimit Scope cstr_scope with cstr.
Notation "a +++ b" := (String.append a b)
  (at level 60, right associativity) : cstr_scope.
Local Open Scope cstr_scope.

(** printf's [%d] *)
Definition string_of_Z (z : Z) : string := NilZero.string_of_int (Z.to_int z).

(** ** pgsql.c *)
Module Pgsql.

(** *** libpq and libc, as far as pgsql.c uses them *)

Inductive ExecStatusType :=
| PGRES_EMPTY_QUERY | PGRES_COMMAND_OK | PGRES_TUPLES_OK | PGRES_COPY_OUT
| PGRES_COPY_IN | PGRES_BAD_RESPONSE | PGRES_NONFATAL_ERROR
| PGRES_FATAL_ERROR | PGRES_COPY_BOTH | PGRES_SINGLE_TUPLE.

Inductive ConnStatusType := CONNECTION_OK | CONNECTION_BAD.

Inductive PGPing :=
| PQPING_OK | PQPING_REJECT | PQPING_NO_RESPONSE | PQPING_NO_ATTEMPT.

(** A [PGresult]: its status, its rows (a NULL field reads as the empty
    string, as [PQgetvalue] gives it) and the SQLSTATE error field, which
    libpq leaves NULL on results that did not come from the server. *)
Record PGresult := mkPGresult {
  res_status : ExecStatusType;
  res_nfields : Z;
  res_tuples : list (list string);
  res_sqlstate : option string
}.

Record PGconn := mkPGconn {
  conn_status : ConnStatusType;
  conn_errorMessage : string
}.

Inductive NoticeProcessor :=
| libpqDefaultNoticeProcessor
| pgAutoCtlDefaultNoticeProcessor
| pgAutoCtlDebugNoticeProcessor.

(** *** pgsql.h *)

Inductive ConnectionType :=
| PGSQL_CONN_LOCAL | PGSQL_CONN_MONITOR | PGSQL_CONN_COORDINATOR
| PGSQL_CONN_other (code : Z).

Record PGSQL := mkPGSQL {
  connectionType : ConnectionType;
  connectionString : string;
  connection : option PGconn
}.

Inductive QueryResultType :=
| PGSQL_RESULT_BOOL | PGSQL_RESULT_INT | PGSQL_RESULT_BIGINT
| PGSQL_RESULT_STRING.

Record SingleValueResultContext := mkContext {
  resultType : QueryResultType;
  parsedOk : bool;
  boolVal : bool;
  intVal : Z;
  bigint : Z;
  strVal : option string
}.

Definition set_parsedOk (c : SingleValueResultContext) (b : bool) :=
  mkContext (resultType c) b (boolVal c) (intVal c) (bigint c) (strVal c).
Definition set_boolVal (c : SingleValueResultContext) (b : bool) :=
  mkContext (resultType c) (parsedOk c) b (intVal c) (bigint c) (strVal c).
Definition set_intVal (c : SingleValueResultContext) (n : Z) :=
  mkContext (resultType c) (parsedOk c) (boolVal c) n (bigint c) (strVal c).
Definition set_bigint (c : SingleValueResultContext) (n : Z) :=
  mkContext (resultType c) (parsedOk c) (boolVal c) (intVal c) n (strVal c).
Definition set_strVal (c : SingleValueResultContext) (v : option string) :=
  mkContext (resultType c) (parsedOk c) (boolVal c) (intVal c) (bigint c) v.

Definition ERRCODE_DUPLICATE_OBJECT : string := "42710".
Definition ERRCODE_DUPLICATE_DATABASE : string := "42P04".

(** *** The world outside pgsql.c

    Everything the file reads from its environment: the clock, the server's
    answers, the signal flags of signals.c, libc's number readers (the
    argument and result [Z] next to the value is [errno]) and the macros of
    defaults.h, which is not part of the sources at hand. Each oracle is
    indexed by how many times it was consulted before. *)
Record World := mkWorld {
  w_time : nat -> Z;
  w_PQping : nat -> string -> PGPing;
  w_PQconnectdb : nat -> string -> option PGconn;
  w_asked_to_stop : nat -> bool;
  w_asked_to_stop_fast : nat -> bool;
  w_PQexec : nat -> string -> option PGresult * list PGresult;
  w_PQescapeIdentifier : string -> option string;
  w_PQescapeLiteral : string -> option string;
  w_PQExpBufferBroken : string -> bool;
  w_strtod : string -> Z -> Z * Z;
  w_strtoull : string -> Z -> Z * Z;
  POSTGRES_PING_RETRY_TIMEOUT : Z;
  PG_AUTOCTL_KEEPER_SLEEP_TIME : Z;
  BUFSIZE : Z
}.

Inductive LogLevel :=
| LOG_TRACE | LOG_DEBUG | LOG_INFO | LOG_WARN | LOG_ERROR.

Record State := mkState {
  world : World;
  n_time : nat;
  n_ping : nat;
  n_connect : nat;
  n_signal : nat;
  n_exec : nat;
  slept : Z;
  errno : Z;
  logs : list (LogLevel * string);
  noticeProcessor : NoticeProcessor;
  pgsql : PGSQL
}.

(** *** A state monad with a fault

    A run returns a value and the next state, stops on the dereference of a
    null pointer, or runs out of the fuel given to a loop. *)
Inductive Outcome (A : Type) : Type :=
| Ret (a : A) (s : State)
| NullDeref (s : State)
| OutOfFuel.
Arguments Ret {A} a s.
Arguments NullDeref {A} s.
Arguments OutOfFuel {A}.

Definition M (A : Type) : Type := State -> Outcome A.

Definition ret {A} (a : A) : M A := fun s => Ret a s.

Definition bind {A B} (m : M A) (k : A -> M B) : M B :=
  fun s =>
    match m s with
    | Ret a s' => k a s'
    | NullDeref s' => NullDeref s'
    | OutOfFuel => OutOfFuel
    end.

Definition null_dereference {A} : M A := fun s => NullDeref s.
Definition out_of_fuel {A} : M A := fun _ => OutOfFuel.

Declare Scope pgsql_scope.
Delimit Scope pgsql_scope with pgsql.
Notation "x <- c ;; k" := (bind c (fun x => k))
  (at level 61, c at next level, right associativity) : pgsql_scope.
Notation "' pat <- c ;; k" := (bind c (fun x => match x with pat => k end))
  (at level 61, pat pattern, c at next level, right associativity)
  : pgsql_scope.
Notation "c ;; k" := (bind c (fun _ => k))
  (at level 61, right associativity) : pgsql_scope.
Local Open Scope pgsql_scope.

Definition logged (level : LogLevel) (message : string) (s : State) : State :=
  mkState (world s) (n_time s) (n_ping s) (n_connect s) (n_signal s)
    (n_exec s) (slept s) (errno s) (logs s ++ [(level, message)])
    (noticeProcessor s) (pgsql s).

Definition log_msg (level : LogLevel) (message : string) : M unit :=
  fun s => Ret tt (logged level message s).

Definition log_trace := log_msg LOG_TRACE.
Definition log_debug := log_msg LOG_DEBUG.
Definition log_info := log_msg LOG_INFO.
Definition log_warn := log_msg LOG_WARN.
Definition log_error := log_msg LOG_ERROR.

Definition get_pgsql : M PGSQL := fun s => Ret (pgsql s) s.

Definition put_pgsql (p : PGSQL) : M unit :=
  fun s =>
    Ret tt (mkState (world s) (n_time s) (n_ping s) (n_connect s)
              (n_signal s) (n_exec s) (slept s) (errno s) (logs s)
              (noticeProcessor s) p).

Definition get_errno : M Z := fun s => Ret (errno s) s.

Definition put_errno (e : Z) : M unit :=
  fun s =>
    Ret tt (mkState (world s) (n_time s) (n_ping s) (n_connect s)
              (n_signal s) (n_exec s) (slept s) e (logs s)
              (noticeProcessor s) (pgsql s)).

Definition get_world : M World := fun s => Ret (world s) s.

(** [time(NULL)] *)
Definition time : M Z :=
  fun s =>
    Ret (w_time (world s) (n_time s))
        (mkState (world s) (S (n_time s)) (n_ping s) (n_connect s)
           (n_signal s) (n_exec s) (slept s) (errno s) (logs s)
           (noticeProcessor s) (pgsql s)).

Definition PQping (conninfo : string) : M PGPing :=
  fun s =>
    Ret (w_PQping (world s) (n_ping s) conninfo)
        (mkState (world s) (n_time s) (S (n_ping s)) (n_connect s)
           (n_signal s) (n_exec s) (slept s) (errno s) (logs s)
           (noticeProcessor s) (pgsql s)).

Definition PQconnectdb (conninfo : string) : M (option PGconn) :=
  fun s =>
    Ret (w_PQconnectdb (world s) (n_connect s) conninfo)
        (mkState (world s) (n_time s) (n_ping s) (S (n_connect s))
           (n_signal s) (n_exec s) (slept s) (errno s) (logs s)
           libpqDefaultNoticeProcessor (pgsql s)).

(** One reading of the two flags that the signal handlers set. *)
Definition read_stop_flags : M (bool * bool) :=
  fun s =>
    Ret (w_asked_to_stop (world s) (n_signal s),
         w_asked_to_stop_fast (world s) (n_signal s))
        (mkState (world s) (n_time s) (n_ping s) (n_connect s)
           (S (n_signal s)) (n_exec s) (slept s) (errno s) (logs s)
           (noticeProcessor s) (pgsql s)).

Definition sleep (seconds : Z) : M unit :=
  fun s =>
    Ret tt (mkState (world s) (n_time s) (n_ping s) (n_connect s)
              (n_signal s) (n_exec s) (slept s + seconds) (errno s) (logs s)
              (noticeProcessor s) (pgsql s)).

(** [PQexec] and [PQexecParams]: the result of the command (NULL when libpq
    could not build one) and the results still pending on the connection. *)
Definition PQexec (command : string) : M (option PGresult * list PGresult) :=
  fun s =>
    Ret (w_PQexec (world s) (n_exec s) command)
        (mkState (world s) (n_time s) (n_ping s) (n_connect s)
           (n_signal s) (S (n_exec s)) (slept s) (errno s) (logs s)
           (noticeProcessor s) (pgsql s)).

Definition PQsetNoticeProcessor (p : NoticeProcessor) : M NoticeProcessor :=
  fun s =>
    Ret (noticeProcessor s)
        (mkState (world s) (n_time s) (n_ping s) (n_connect s)
           (n_signal s) (n_exec s) (slept s) (errno s) (logs s) p (pgsql s)).

Definition PQstatus (c : option PGconn) : ConnStatusType :=
  match c with
  | Some c => conn_status c
  | None => CONNECTION_BAD
  end.

Definition PQerrorMessage (c : option PGconn) : string :=
  match c with
  | Some c => conn_errorMessage c
  | None => "connection pointer is NULL"
  end.

Definition PQresultStatus (r : option PGresult) : ExecStatusType :=
  match r with
  | Some r => res_status r
  | None => PGRES_FATAL_ERROR
  end.

(** [PQresultErrorField(result, PG_DIAG_SQLSTATE)] *)
Definition PQresultErrorField_SQLSTATE (r : option PGresult) : option string :=
  match r with
  | Some r => res_sqlstate r
  | None => None
  end.

Definition PQntuples (r : PGresult) : Z :=
  Z.of_nat (List.length (res_tuples r)).
Definition PQnfields (r : PGresult) : Z := res_nfields r.

(** [PQgetvalue(result, row, column)]: NULL outside of the result. *)
Definition PQgetvalue (r : PGresult) (row column : nat) : option string :=
  match nth_error (res_tuples r) row with
  | Some fields => nth_error fields column
  | None => None
  end.

(** [strcmp]: reading either argument through a null pointer is a fault. *)
Definition strcmp (a : option string) (b : string) : M Z :=
  match a with
  | None => null_dereference
  | Some a =>
      ret (match String.compare a b with
           | Eq => 0
           | Lt => -1
           | Gt => 1
           end)
  end.

Definition strdup (a : option string) : M (option string) :=
  match a with
  | None => null_dereference
  | Some a => ret (Some a)
  end.

(** libc's number readers: they return the value and may set [errno]. *)
Definition libc_number (f : World -> string -> Z -> Z * Z)
    (value : option string) : M Z :=
  match value with
  | None => null_dereference
  | Some v =>
      w <- get_world ;;
      e <- get_errno ;;
      put_errno (snd (f w v e)) ;;
      ret (fst (f w v e))
  end.

(** [strtod(value, NULL)], as stored into an [int]. *)
Definition strtod : option string -> M Z := libc_number w_strtod.

(** [strtoull(value, NULL, 10)] *)
Definition strtoull : option string -> M Z := libc_number w_strtoull.

(** [strlcpy(dst, src, size)]: what ends up in [dst]. *)
Definition strlcpy (src : option string) (size : Z) : M string :=
  match src with
  | None => null_dereference
  | Some v => ret (substring 0 (Z.to_nat (size - 1)) v)
  end.

(** [snprintf(buffer, size, ...)]: what ends up in [buffer]. *)
Definition snprintf (size : Z) (formatted : string) : string :=
  substring 0 (Z.to_nat (size - 1)) formatted.

(** *** parseSingleValueResult *)

Definition case_PGSQL_RESULT_STRING (context : SingleValueResultContext)
    (value : option string) : M SingleValueResultContext :=
  copy <- strdup value ;;
  let context := set_strVal context copy in
  let context := set_parsedOk context true in
  ret context.

(** A double quote. *)
Definition dquote : string := String "034" EmptyString.

(** printf's ["%s"] between double quotes. *)
Definition quoted (v : option string) : string :=
  match v with
  | Some v => dquote +++ v +++ dquote
  | None => dquote +++ "(null)" +++ dquote
  end.

Definition parseSingleValueResult (context : SingleValueResultContext)
    (result : PGresult) : M SingleValueResultContext :=
  if PQntuples result =? 1 then
    let value := PQgetvalue result 0 0 in
    match resultType context with
    | PGSQL_RESULT_BOOL =>
        c <- strcmp value "t" ;;
        let context := set_boolVal context (c =? 0) in
        let context := set_parsedOk context true in
        ret context
    | PGSQL_RESULT_INT =>
        n <- strtod value ;;
        let context := set_intVal context n in
        e <- get_errno ;;
        context <-
          (if (intVal context =? 0) && negb (e =? 0) then
             let context := set_parsedOk context false in
             log_error ("Failed to parse int result " +++ quoted value) ;;
             ret context
           else ret context) ;;
        let context := set_parsedOk context true in
        ret context
    | PGSQL_RESULT_BIGINT =>
        n <- strtoull value ;;
        let context := set_bigint context n in
        e <- get_errno ;;
        context <-
          (if (bigint context =? 0) && negb (e =? 0) then
             let context := set_parsedOk context false in
             log_error ("Failed to parse uint64_t result " +++ quoted value) ;;
             ret context
           else ret context) ;;
        let context := set_parsedOk context true in
        (* no break: control continues into case PGSQL_RESULT_STRING *)
        case_PGSQL_RESULT_STRING context value
    | PGSQL_RESULT_STRING =>
        case_PGSQL_RESULT_STRING context value
    end
  else ret context.

(** *** Connections *)

Definition pgsql_finish : M unit :=
  p <- get_pgsql ;;
  match connection p with
  | Some _ =>
      log_debug ("Disconnecting from "
                 +++ quoted (Some (connectionString p))) ;;
      put_pgsql (mkPGSQL (connectionType p) (connectionString p) None)
  | None => ret tt
  end.

Definition u64 (z : Z) : Z := z mod 2 ^ 64.

(** The local variables of pgsql_retry_open_connection that survive an
    iteration of its loop. *)
Record RetryLocals := mkRetryLocals {
  rl_connection : option PGconn;
  rl_attempts : Z;
  rl_connectionOk : bool
}.

(** The [while (retry)] loop; it is entered with [retry] true, and [fuel]
    bounds the number of iterations. *)
Fixpoint retry_loop (fuel : nat) (startTime : Z) (l : RetryLocals)
    : M RetryLocals :=
  match fuel with
  | O => out_of_fuel
  | S fuel =>
      p <- get_pgsql ;;
      w <- get_world ;;
      t <- time ;;
      let now := u64 t in
      if u64 (POSTGRES_PING_RETRY_TIMEOUT w) <=? u64 (now - startTime) then
        log_warn ("Failed to connect to " +++ quoted (Some (connectionString p))
                  +++ " after " +++ string_of_Z (rl_attempts l)
                  +++ " attempts, stopping now") ;;
        ret l
      else
        let attempts := rl_attempts l + 1 in
        ping <- PQping (connectionString p) ;;
        '(retry, l) <-
          match ping with
          | PQPING_OK =>
              log_debug ("PQping OK after " +++ string_of_Z attempts
                         +++ " attempts") ;;
              c <- PQconnectdb (connectionString p) ;;
              match PQstatus c with
              | CONNECTION_OK => ret (false, mkRetryLocals c attempts true)
              | CONNECTION_BAD =>
                  log_error ("Failed to connect after successful ping, "
                             +++ "please verify authentication and logs on "
                             +++ "the server at "
                             +++ quoted (Some (connectionString p))) ;;
                  ret (false, mkRetryLocals c attempts (rl_connectionOk l))
              end
          | PQPING_REJECT =>
              log_error ("Connection rejected: "
                         +++ quoted (Some (connectionString p))) ;;
              ret (false,
                   mkRetryLocals (rl_connection l) attempts (rl_connectionOk l))
          | PQPING_NO_RESPONSE =>
              log_debug ("PQping: no response after " +++ string_of_Z attempts
                         +++ " attempts") ;;
              ret (true,
                   mkRetryLocals (rl_connection l) attempts (rl_connectionOk l))
          | PQPING_NO_ATTEMPT =>
              log_error ("Failed to ping server "
                         +++ quoted (Some (connectionString p))
                         +++ " because of client-side problems "
                         +++ "(no attempt were made)") ;;
              ret (false,
                   mkRetryLocals (rl_connection l) attempts (rl_connectionOk l))
          end ;;
        '(stop, stop_fast) <- read_stop_flags ;;
        let retry := if stop || stop_fast then false else retry in
        if retry then
          sleep (PG_AUTOCTL_KEEPER_SLEEP_TIME w) ;;
          retry_loop fuel startTime l
        else ret l
  end.

(** What ends the loop in the iteration that takes the clock's reading
    number [kt], the ping number [kp] and the flags' reading number [ks]. *)
Definition timeout_reached (w : World) (startTime : Z) (kt : nat) : bool :=
  u64 (POSTGRES_PING_RETRY_TIMEOUT w) <=? u64 (u64 (w_time w kt) - startTime).

Definition ping_answered (w : World) (conninfo : string) (kp : nat) : bool :=
  match w_PQping w kp conninfo with
  | PQPING_OK | PQPING_REJECT | PQPING_NO_ATTEMPT => true
  | PQPING_NO_RESPONSE => false
  end.

Definition stop_requested (w : World) (ks : nat) : bool :=
  w_asked_to_stop w ks || w_asked_to_stop_fast w ks.

Definition exit_condition (w : World) (conninfo : string) (startTime : Z)
    (kt kp ks : nat) : bool :=
  timeout_reached w startTime kt || ping_answered w conninfo kp
  || stop_requested w ks.

Definition pgsql_retry_open_connection (fuel : nat) : M (option PGconn) :=
  p <- get_pgsql ;;
  t <- time ;;
  let startTime := u64 t in
  log_warn ("Failed to connect to " +++ quoted (Some (connectionString p))
            +++ ", retrying until the server is ready") ;;
  l <- retry_loop fuel startTime (mkRetryLocals None 0 false) ;;
  if negb (rl_connectionOk l) then
    log_error ("Connection to database failed: "
               +++ PQerrorMessage (rl_connection l)) ;;
    pgsql_finish ;;
    ret None
  else ret (rl_connection l).

Definition pgsql_open_connection (fuel : nat) : M (option PGconn) :=
  p <- get_pgsql ;;
  match connection p with
  | Some c => ret (Some c)
  | None =>
      log_debug ("Connecting to " +++ quoted (Some (connectionString p))) ;;
      c <- PQconnectdb (connectionString p) ;;
      let set_connection (c : option PGconn) : M (option PGconn) :=
        put_pgsql (mkPGSQL (connectionType p) (connectionString p) c) ;;
        PQsetNoticeProcessor pgAutoCtlDefaultNoticeProcessor ;;
        ret c in
      match PQstatus c with
      | CONNECTION_OK => set_connection c
      | CONNECTION_BAD =>
          match connectionType p with
          | PGSQL_CONN_LOCAL =>
              log_error ("Connection to database failed: "
                         +++ PQerrorMessage c) ;;
              pgsql_finish ;;
              ret None
          | PGSQL_CONN_MONITOR
          | PGSQL_CONN_COORDINATOR =>
              c <- pgsql_retry_open_connection fuel ;;
              match c with
              | None => ret None
              | Some _ => set_connection c
              end
          | PGSQL_CONN_other code =>
              log_error ("BUG: unknown connection type "
                         +++ string_of_Z code) ;;
              ret None
          end
      end
  end.

(** *** Running commands *)

Definition is_response_ok (result : option PGresult) : bool :=
  match PQresultStatus result with
  | PGRES_SINGLE_TUPLE | PGRES_TUPLES_OK | PGRES_COMMAND_OK => true
  | _ => false
  end.

(** [clear_results]: [pending] is what [PQgetResult] still hands out before
    it returns NULL. *)
Fixpoint clear_results (c : option PGconn) (pending : list PGresult)
    : M bool :=
  match pending with
  | [] => ret true
  | result :: pending =>
      if negb (is_response_ok (Some result)) then
        log_error ("Failure from Postgres: " +++ PQerrorMessage c) ;;
        clear_results c pending ;;
        ret false
      else clear_results c pending
  end.

(** The text of [debugParameters], when it fits the buffer. *)
Fixpoint debug_parameters (paramValues : list string) : string :=
  match paramValues with
  | [] => EmptyString
  | [value] => "'" +++ value +++ "'"
  | value :: rest => "'" +++ value +++ "', " +++ debug_parameters rest
  end.

Definition pgsql_execute_with_params {C : Type} (fuel : nat) (sql : string)
    (paramValues : list string) (context : C)
    (parseFun : option (C -> PGresult -> M C)) : M (bool * C) :=
  c <- pgsql_open_connection fuel ;;
  match c with
  | None => ret (false, context)
  | Some _ =>
      log_debug (sql +++ ";") ;;
      (match paramValues with
       | [] => ret tt
       | _ => log_debug (debug_parameters paramValues)
       end) ;;
      '(result, pending) <- PQexec sql ;;
      if negb (is_response_ok result) then
        log_error ("Failed to execute " +++ quoted (Some sql) +++ ": "
                   +++ PQerrorMessage c) ;;
        clear_results c pending ;;
        pgsql_finish ;;
        ret (false, context)
      else
        context <-
          match parseFun, result with
          | Some parse, Some result => parse context result
          | _, _ => ret context
          end ;;
        clear_results c pending ;;
        ret (true, context)
  end.

Definition PQescapeIdentifier (str : string) : M (option string) :=
  w <- get_world ;; ret (w_PQescapeIdentifier w str).

Definition PQescapeLiteral (str : string) : M (option string) :=
  w <- get_world ;; ret (w_PQescapeLiteral w str).

(** The error branch shared by the three CREATE commands: [what] is the
    object named in the messages, [duplicate] the SQLSTATE accepted as a
    non-error. *)
Definition check_create_result (what name duplicate : string)
    (c : option PGconn) (result : option PGresult) (pending : list PGresult)
    : M bool :=
  if negb (is_response_ok result) then
    let sqlstate := PQresultErrorField_SQLSTATE result in
    cmp <- strcmp sqlstate duplicate ;;
    if cmp =? 0 then
      log_info ("The " +++ what +++ " " +++ quoted (Some name)
                +++ " already exists, skipping.") ;;
      ret true
    else
      log_error ("Failed to create " +++ what +++ " " +++ quoted (Some name)
                 +++ "["
                 +++ match sqlstate with Some v => v | None => "(null)" end
                 +++ "]: " +++ PQerrorMessage c) ;;
      clear_results c pending ;;
      pgsql_finish ;;
      ret false
  else ret true.

Definition pgsql_create_database (fuel : nat) (dbname owner : string)
    : M bool :=
  c <- pgsql_open_connection fuel ;;
  match c with
  | None => ret false
  | Some _ =>
      escapedDBName <- PQescapeIdentifier dbname ;;
      match escapedDBName with
      | None =>
          log_error ("Failed to create database " +++ quoted (Some dbname)
                     +++ ": " +++ PQerrorMessage c) ;;
          pgsql_finish ;;
          ret false
      | Some escapedDBName =>
          escapedOwner <- PQescapeIdentifier owner ;;
          match escapedOwner with
          | None =>
              log_error ("Failed to create database " +++ quoted (Some dbname)
                         +++ ": " +++ PQerrorMessage c) ;;
              pgsql_finish ;;
              ret false
          | Some escapedOwner =>
              w <- get_world ;;
              let command :=
                snprintf (BUFSIZE w)
                  ("CREATE DATABASE " +++ escapedDBName +++ " WITH OWNER "
                   +++ escapedOwner) in
              log_debug ("Running command on Postgres: " +++ command +++ ";") ;;
              '(result, pending) <- PQexec command ;;
              ok <- check_create_result "database" dbname
                      ERRCODE_DUPLICATE_DATABASE c result pending ;;
              if ok then clear_results c pending ;; ret true
              else ret false
          end
      end
  end.

Definition pgsql_create_extension (fuel : nat) (name : string) : M bool :=
  c <- pgsql_open_connection fuel ;;
  match c with
  | None => ret false
  | Some _ =>
      escapedIdentifier <- PQescapeIdentifier name ;;
      match escapedIdentifier with
      | None =>
          log_error ("Failed to create extension " +++ quoted (Some name)
                     +++ ": " +++ PQerrorMessage c) ;;
          pgsql_finish ;;
          ret false
      | Some escapedIdentifier =>
          w <- get_world ;;
          let command :=
            snprintf (BUFSIZE w) ("CREATE EXTENSION " +++ escapedIdentifier) in
          log_debug ("Running command on Postgres: " +++ command +++ ";") ;;
          '(result, pending) <- PQexec command ;;
          ok <- check_create_result "extension" name
                  ERRCODE_DUPLICATE_OBJECT c result pending ;;
          if ok then clear_results c pending ;; ret true
          else ret false
      end
  end.

Definition pgsql_create_user (fuel : nat) (userName : string)
    (password : option string) (login superuser replication : bool)
    : M bool :=
  c <- pgsql_open_connection fuel ;;
  match c with
  | None => ret false
  | Some _ =>
      escapedIdentifier <- PQescapeIdentifier userName ;;
      match escapedIdentifier with
      | None =>
          log_error ("Failed to create user " +++ quoted (Some userName)
                     +++ ": " +++ PQerrorMessage c) ;;
          pgsql_finish ;;
          ret false
      | Some escapedIdentifier =>
          let query := "CREATE USER " +++ escapedIdentifier in
          let query :=
            if login || superuser || replication
               || match password with Some _ => true | None => false end
            then query +++ " WITH" else query in
          let query := if login then query +++ " LOGIN" else query in
          let query := if superuser then query +++ " SUPERUSER" else query in
          let query :=
            if replication then query +++ " REPLICATION" else query in
          query <-
            match password with
            | Some password =>
                log_debug ("Running command on Postgres: " +++ query
                           +++ " PASSWORD '*****';") ;;
                escapedLiteral <- PQescapeLiteral password ;;
                match escapedLiteral with
                | None =>
                    log_error ("Failed to create user "
                               +++ quoted (Some userName) +++ ": "
                               +++ PQerrorMessage c) ;;
                    pgsql_finish ;;
                    ret None
                | Some escapedLiteral =>
                    ret (Some (query +++ " PASSWORD " +++ escapedLiteral))
                end
            | None =>
                log_debug ("Running command on Postgres: " +++ query +++ ";") ;;
                ret (Some query)
            end ;;
          match query with
          | None => ret false
          | Some query =>
              w <- get_world ;;
              if w_PQExpBufferBroken w query then
                log_error "Failed to allocate memory" ;;
                pgsql_finish ;;
                ret false
              else
                previousNoticeProcessor <-
                  PQsetNoticeProcessor pgAutoCtlDebugNoticeProcessor ;;
                '(result, pending) <- PQexec query ;;
                ok <- check_create_result "user" userName
                        ERRCODE_DUPLICATE_OBJECT c result pending ;;
                if ok then
                  clear_results c pending ;;
                  PQsetNoticeProcessor previousNoticeProcessor ;;
                  ret true
                else ret false
          end
      end
  end.

(** A context as its callers set it up: they assign [resultType] and
    [parsedOk]; the other fields are not read before the parser has written
    them. *)
Definition new_context (t : QueryResultType) : SingleValueResultContext :=
  mkContext t false false 0 0 None.

(** The [sql] of pgsql_has_replica and of
    pgsql_get_received_lsn_from_standby. *)
Definition has_replica_sql : string :=
  "SELECT EXISTS (SELECT 1 FROM pg_stat_replication WHERE usename = $1)".

Definition received_lsn_sql : string := "SELECT pg_last_wal_receive_lsn()".

(** The second component is what the call stored through [hasReplica]. *)
Definition pgsql_has_replica (fuel : nat) (userName : string)
    : M (bool * option bool) :=
  let sql := has_replica_sql in
  let context := new_context PGSQL_RESULT_BOOL in
  '(_, context) <-
    pgsql_execute_with_params fuel sql [userName] context
      (Some parseSingleValueResult) ;;
  if negb (parsedOk context) then
    log_error "Failed to find pg_stat_replication" ;;
    ret (false, None)
  else ret (true, Some (boolVal context)).

(** The second component is what the call stored into [receivedLSN]. *)
Definition pgsql_get_received_lsn_from_standby (fuel : nat) (maxLSNSize : Z)
    : M (bool * option string) :=
  let sql := received_lsn_sql in
  let context := new_context PGSQL_RESULT_STRING in
  log_trace ("pgsql_get_received_lsn_from_standby : running " +++ sql) ;;
  '(_, context) <-
    pgsql_execute_with_params fuel sql [] context
      (Some parseSingleValueResult) ;;
  if negb (parsedOk context) then
    log_error ("PostgreSQL cannot reach the primary server: "
               +++ "the system view pg_stat_wal_receiver has no rows.") ;;
    ret (false, None)
  else
    receivedLSN <- strlcpy (strVal context) maxLSNSize ;;
    ret (true, Some receivedLSN).

(** *** Connection strings *)

Definition is_quote_or_backslash (c : ascii) : bool :=
  Ascii.eqb c "'" || Ascii.eqb c "\".

(** The [for] loop of escape_conninfo_value: the characters it appends to
    [destination] for the part of [string] that [strlen] measures. *)
Fixpoint escape_chars (string : String.string) : String.string :=
  match string with
  | EmptyString => EmptyString
  | String currentChar rest =>
      if Ascii.eqb currentChar zero then EmptyString
      else if is_quote_or_backslash currentChar then
        String "\" (String currentChar (escape_chars rest))
      else String currentChar (escape_chars rest)
  end.

(** What is written to [destination], and the length returned. *)
Definition escape_conninfo_value (string : String.string)
    : String.string * Z :=
  let destination := String "'" (escape_chars string +++ "'") in
  (destination, Z.of_nat (String.length destination)).

Definition make_conninfo_field_int (key : string) (value : Z) : string * Z :=
  let connInfo := " " +++ key +++ "=" +++ string_of_Z value in
  (connInfo, Z.of_nat (String.length connInfo)).

Definition make_conninfo_field_str (key value : string) : string * Z :=
  let head := " " +++ key +++ "=" in
  let '(escaped, n) := escape_conninfo_value value in
  (head +++ escaped, Z.of_nat (String.length head) + n).

(** Four fields written one behind the other, each at the offset that the
    previous call returned. *)
Definition build_conninfo (host port dbname user : string) : string :=
  fst (make_conninfo_field_str "host" host)
  +++ fst (make_conninfo_field_str "port" port)
  +++ fst (make_conninfo_field_str "dbname" dbname)
  +++ fst (make_conninfo_field_str "user" user).

(** *** States that differ in the log only *)

Definition same_but_logs (s t : State) : Prop :=
  world s = world t /\ n_time s = n_time t /\ n_ping s = n_ping t
  /\ n_connect s = n_connect t /\ n_signal s = n_signal t
  /\ n_exec s = n_exec t /\ slept s = slept t /\ errno s = errno t
  /\ noticeProcessor s = noticeProcessor t /\ pgsql s = pgsql t.

Definition outcome_same_but_logs {A} (o1 o2 : Outcome A) : Prop :=
  match o1, o2 with
  | Ret a s, Ret b t => a = b /\ same_but_logs s t
  | NullDeref s, NullDeref t => same_but_logs s t
  | OutOfFuel, OutOfFuel => True
  | _, _ => False
  end.

(** A computation whose result does not depend on what was logged. *)
Definition log_blind {A} (m : M A) : Prop :=
  forall s t, same_but_logs s t -> outcome_same_but_logs (m s) (m t).

End Pgsql.

(** ** Reading a connection string back *)
Module Conninfo.

Definition isspace (c : ascii) : bool :=
  let n := nat_of_ascii c in
  Nat.eqb n 32 || (Nat.leb 9 n && Nat.leb n 13).

Fixpoint skip_blanks (s : string) : string :=
  match s with
  | EmptyString => EmptyString
  | String c rest => if isspace c then skip_blanks rest else s
  end.

(** Modelled from the spec: the reader's parameter name (libpq, not part
    of the sources). It ends before [=], or at a blank, after which further
    blanks are skipped. *)
Fixpoint read_keyword (s : string) : string * string :=
  match s with
  | EmptyString => (EmptyString, EmptyString)
  | String c rest =>
      if Ascii.eqb c "=" then (EmptyString, s)
      else if isspace c then (EmptyString, skip_blanks rest)
      else let '(name, rest) := read_keyword rest in (String c name, rest)
  end.

(** Modelled from the spec: a value in single quotes (section 6), read
    from behind the opening quote by the reader that is not part of the
    sources: a backslash makes the next character literal, a quote ends the
    value, the end of the string before that is an error. *)
Fixpoint read_quoted (s : string) : option (string * string) :=
  match s with
  | EmptyString => None
  | String c rest =>
      if Ascii.eqb c "\" then
        match rest with
        | EmptyString => None
        | String c' rest' =>
            match read_quoted rest' with
            | Some (value, rest) => Some (String c' value, rest)
            | None => None
            end
        end
      else if Ascii.eqb c "'" then Some (EmptyString, rest)
      else
        match read_quoted rest with
        | Some (value, rest) => Some (String c value, rest)
        | None => None
        end
  end.

(** Modelled from the spec: a value without quotes, for the same reader;
    it ends at a blank. *)
Fixpoint read_unquoted (s : string) : string * string :=
  match s with
  | EmptyString => (EmptyString, EmptyString)
  | String c rest =>
      if isspace c then (EmptyString, rest)
      else if Ascii.eqb c "\" then
        match rest with
        | EmptyString => (EmptyString, EmptyString)
        | String c' rest' =>
            let '(value, rest) := read_unquoted rest' in
            (String c' value, rest)
        end
      else let '(value, rest) := read_unquoted rest in (String c value, rest)
  end.

(** Modelled from the spec: the keywords the reader accepts, libpq's
    connection options. *)
Definition keywords : list string :=
  [ "authtype"; "service"; "user"; "password"; "passfile";
    "connect_timeout"; "dbname"; "host"; "hostaddr"; "port";
    "client_encoding"; "tty"; "options"; "application_name";
    "fallback_application_name"; "keepalives"; "keepalives_idle";
    "keepalives_interval"; "keepalives_count"; "tcp_user_timeout";
    "sslmode"; "sslcompression"; "sslcert"; "sslkey"; "sslrootcert";
    "sslcrl"; "requirepeer"; "gssencmode"; "krbsrvname"; "gsslib";
    "replication"; "target_session_attrs" ].

Definition known_keyword (name : string) : bool :=
  existsb (String.eqb name) keywords.

(** Modelled from the spec: the reader of the key=value form of a connection
    string, "parse" in Scenario F. pgsql.c hands the strings it builds to
    libpq's PQconninfoParse, which is not part of the sources; this reader
    follows section 6 (values in key=value form are single-quoted with
    backslash escaping for ' and \) and libpq's grammar for the rest:
    blank-separated [keyword = value] pairs, values quoted or not. [None] is
    a parse error; the pairs come in the order they were read. *)
Fixpoint conninfo_parse (fuel : nat) (s : string)
    : option (list (string * string)) :=
  match fuel with
  | O => None
  | S fuel =>
      match skip_blanks s with
      | EmptyString => Some []
      | String c rest =>
          let '(pname, rest) := read_keyword (String c rest) in
          match rest with
          | String "=" rest =>
              let rest := skip_blanks rest in
              let pval :=
                match rest with
                | String "'" quoted => read_quoted quoted
                | _ => Some (read_unquoted rest)
                end in
              match pval with
              | Some (pval, rest) =>
                  if known_keyword pname then
                    match conninfo_parse fuel rest with
                    | Some options => Some ((pname, pval) :: options)
                    | None => None
                    end
                  else None
              | None => None
              end
          | _ => None
          end
      end
  end.

(** Every pair consumes a character, so the length of the string is fuel
    enough. *)
Definition PQconninfoParse (conninfo : string)
    : option (list (string * string)) :=
  conninfo_parse (S (String.length conninfo)) conninfo.

(** The value of a keyword: the one given last. *)
Fixpoint conninfo_value (options : list (string * string)) (keyword : string)
    : option string :=
  match options with
  | [] => None
  | (k, v) :: options =>
      match conninfo_value options keyword with
      | Some v' => Some v'
      | None => if String.eqb k keyword then Some v else None
      end
  end.

(** An ASCII printable character: space to tilde. *)
Definition printable (c : ascii) : bool :=
  let n := nat_of_ascii c in Nat.leb 32 n && Nat.leb n 126.

Fixpoint all_printable (s : string) : bool :=
  match s with
  | EmptyString => true
  | String c rest => printable c && all_printable rest
  end.

(** The escaping as section 6 words it: each ' and each \ gets a backslash
    in front, every other character stands for itself, and the whole is put
    between single quotes. *)
Definition escape_one (c : ascii) : list ascii :=
  if Ascii.eqb c "'" then ["\"; "'"]%char
  else if Ascii.eqb c "\" then ["\"; "\"]%char
  else [c].

Definition quote_spec (value : string) : string :=
  string_of_list_ascii
    (["'"%char] ++ flat_map escape_one (list_ascii_of_string value)
     ++ ["'"%char]).

(** A keyword as pgsql.c writes them: known to libpq, without blanks or
    equal signs. *)
Fixpoint plain_chars (key : string) : bool :=
  match key with
  | EmptyString => true
  | String c rest =>
      negb (Ascii.eqb c "=") && negb (isspace c) && plain_chars rest
  end.

End Conninfo.

(** ** The monitor

    The extension that implements the monitor's stored functions is not
    among the sources: what is at hand is the regression script with its
    expected output, [src/monitor/expected/monitor.out], and the
    specification. The operations below are written from the specification
    (sections 3, 4.1, 4.3 and 6); the script is kept as data and replayed
    against them. The event log and the notification channels are left out:
    nothing here reads them. *)
Module Monitor.

(** Modelled from the spec: the states of section 4.1, for the monitor
    code that is missing. *)
Inductive ReplicationState :=
| init | single | wait_primary | primary | join_primary | apply_settings
| wait_standby | catchingup | secondary | prepare_promotion
| stop_replication | wait_maintenance | maintenance | draining
| demote_timeout | demoted | demote | report_lsn | join_secondary
| fast_forward | dropped.

Scheme Equality for ReplicationState.

(** Modelled from the spec: the writable states of section 4.1. *)
Definition writable_states : list ReplicationState :=
  [single; wait_primary; primary; join_primary; apply_settings].

Definition is_writable (st : ReplicationState) : bool :=
  existsb (ReplicationState_beq st) writable_states.

(** Modelled from the spec: the data model of section 3 (formation, node)
    for the catalog of the missing extension. Timestamps and LSNs are
    integers. *)
Inductive FormationKind := plain | sharded.
Inductive ReplicationSyncState := async | sync | quorum | unknown.
Inductive Health := health_unknown | health_good | health_bad.

Record Formation := mkFormation {
  formation_id : string;
  kind : FormationKind;
  dbname : string;
  opt_secondary : bool;
  number_sync_standbys : Z
}.

Record Node := mkNode {
  node_id : Z;
  node_name : string;
  node_formation_id : string;
  group_id : Z;
  host : string;
  port : Z;
  system_identifier : option Z;
  candidate_priority : Z;
  replication_quorum : bool;
  reported_state : ReplicationState;
  goal_state : ReplicationState;
  reported_lsn : Z;
  reported_pg_is_running : bool;
  reported_replication_state : ReplicationSyncState;
  health : Health;
  health_checked_at : Z;
  state_changed_at : Z;
  reported_at : Z
}.

(** Modelled from the spec: the catalog of the missing extension, that is
    the formations, the nodes in the order they were registered, the next
    node id to hand out, and the timeout of rule 5. *)
Record Catalog := mkCatalog {
  formations : list Formation;
  nodes : list Node;
  next_node_id : Z;
  network_partition_timeout : Z
}.

(** Modelled from the spec: the logical errors of section 7. *)
Inductive MonitorError :=
| no_writable_node
| unknown_formation
| unknown_node.

(** The text of the error that section 6 names. *)
Definition error_message (e : MonitorError) : option string :=
  match e with
  | no_writable_node => Some "group has no writable node right now"
  | _ => None
  end.

Definition Result (A : Type) : Type := (MonitorError + A)%type.

Definition in_group (formation : string) (group : Z) (n : Node) : bool :=
  String.eqb (node_formation_id n) formation && (group_id n =? group).

Definition group_nodes (c : Catalog) (formation : string) (group : Z)
    : list Node :=
  filter (in_group formation group) (nodes c).

Definition find_node (c : Catalog) (id : Z) : option Node :=
  find (fun n => node_id n =? id) (nodes c).

Definition find_formation (c : Catalog) (formation : string)
    : option Formation :=
  find (fun f => String.eqb (formation_id f) formation) (formations c).

(** [n] with goal state [goal], assigned at time [now]. *)
Definition set_goal (now : Z) (goal : ReplicationState) (n : Node) : Node :=
  mkNode (node_id n) (node_name n) (node_formation_id n) (group_id n)
    (host n) (port n) (system_identifier n) (candidate_priority n)
    (replication_quorum n) (reported_state n) goal (reported_lsn n)
    (reported_pg_is_running n) (reported_replication_state n) (health n)
    (health_checked_at n)
    (if ReplicationState_beq (goal_state n) goal then state_changed_at n
     else now)
    (reported_at n).

(** [n] with the fields that a node_active call reports. *)
Definition set_reported (now : Z) (st : ReplicationState) (lsn : Z)
    (pg_is_running : bool) (rep : ReplicationSyncState) (n : Node) : Node :=
  mkNode (node_id n) (node_name n) (node_formation_id n) (group_id n)
    (host n) (port n) (system_identifier n) (candidate_priority n)
    (replication_quorum n) st (goal_state n) lsn pg_is_running rep
    (health n) (health_checked_at n) (state_changed_at n) now.

Definition set_system_identifier (sysid : Z) (n : Node) : Node :=
  mkNode (node_id n) (node_name n) (node_formation_id n) (group_id n)
    (host n) (port n) (Some sysid) (candidate_priority n)
    (replication_quorum n) (reported_state n) (goal_state n) (reported_lsn n)
    (reported_pg_is_running n) (reported_replication_state n) (health n)
    (health_checked_at n) (state_changed_at n) (reported_at n).

Definition with_nodes (c : Catalog) (ns : list Node) : Catalog :=
  mkCatalog (formations c) ns (next_node_id c) (network_partition_timeout c).

(** Replace the node that has the id of [n] by [n]. *)
Definition update_node (n : Node) (ns : list Node) : list Node :=
  map (fun p => if node_id p =? node_id n then n else p) ns.

(** What register_node and node_active return; register_node adds the
    name. *)
Record Assignment := mkAssignment {
  assigned_node_id : Z;
  assigned_group_id : Z;
  assigned_group_state : ReplicationState;
  assigned_candidate_priority : Z;
  assigned_replication_quorum : bool
}.

Definition assignment_of (n : Node) : Assignment :=
  mkAssignment (node_id n) (group_id n) (goal_state n)
    (candidate_priority n) (replication_quorum n).

(** Modelled from the spec: register_node of sections 4.3 and 6, missing
    from the sources. It assigns the next node_id, names the node
    node_<id>, and places it: single in an empty group (rule 1),
    wait_standby next to other nodes (rule 2). A formation has the one
    group 0. Priority 100 and quorum membership are the values the
    regression output shows for calls that do not pass them; the columns
    the output shows for a node that never reported (init, running, async)
    are its first reported fields. *)
Definition register_node (c : Catalog) (now : Z) (formation host : string)
    (port : Z) (dbname : string) (system_id : option Z)
    (priority : option Z) (quorum : option bool)
    : Result (Catalog * (Assignment * string)) :=
  match find_formation c formation with
  | None => inl unknown_formation
  | Some _ =>
      let id := next_node_id c in
      let name := "node_" +++ string_of_Z id in
      let goal :=
        match group_nodes c formation 0 with
        | [] => single
        | _ :: _ => wait_standby
        end in
      let n :=
        mkNode id name formation 0 host port system_id
          (match priority with Some p => p | None => 100 end)
          (match quorum with Some q => q | None => true end)
          init goal 0 true async health_unknown now now now in
      inr (mkCatalog (formations c) (nodes c ++ [n]) (id + 1)
             (network_partition_timeout c),
           (assignment_of n, name))
  end.

(** Modelled from the spec: set_node_system_identifier of section 6. *)
Definition set_node_system_identifier (c : Catalog) (id sysid : Z)
    : Result (Catalog * (Z * string * string * Z)) :=
  match find_node c id with
  | None => inl unknown_node
  | Some n =>
      inr (with_nodes c (update_node (set_system_identifier sysid n) (nodes c)),
           (node_id n, node_name n, host n, port n))
  end.

(** Modelled from the spec: the assignment rules 1 to 3 of section 4.1 for
    the calling node [n], whose reported fields are already stored in [c].
    Rule 1: alone in its group, the node is single. Rule 2: a node that
    reports single is assigned wait_primary once a peer has reported
    wait_standby. Rule 3: a node that reports wait_standby is assigned
    catchingup once the primary of the group has reported wait_primary.
    Otherwise the goal stays; the later rules (catching up, failure
    detection, election, maintenance) are not modelled. *)
Definition assign_goal (c : Catalog) (n : Node) : ReplicationState :=
  let G := group_nodes c (node_formation_id n) (group_id n) in
  let peers := filter (fun p => negb (node_id p =? node_id n)) G in
  match peers with
  | [] => single
  | _ :: _ =>
      match reported_state n with
      | single =>
          if existsb
               (fun p => ReplicationState_beq (reported_state p) wait_standby)
               peers
          then wait_primary
          else goal_state n
      | wait_standby =>
          if existsb
               (fun p =>
                  is_writable (goal_state p)
                  && ReplicationState_beq (reported_state p) wait_primary)
               peers
          then catchingup
          else goal_state n
      | _ => goal_state n
      end
  end.

(** Modelled from the spec: node_active of section 4.3, steps 1 to 4 and
    7. The call finds the node, stores what it reports with the time of
    the call, evaluates the rules, stores the goal and returns it. The
    call of section 6 carries no system identifier, so step 1 is the
    lookup of the node in its formation and group. *)
Definition node_active (c : Catalog) (now : Z) (formation : string)
    (id group : Z) (current_state : ReplicationState) (current_lsn : Z)
    (pg_is_running : bool) (replication_state : ReplicationSyncState)
    : Result (Catalog * Assignment) :=
  match find_node c id with
  | None => inl unknown_node
  | Some n =>
      if in_group formation group n then
        let n := set_reported now current_state current_lsn pg_is_running
                   replication_state n in
        let c := with_nodes c (update_node n (nodes c)) in
        let n := set_goal now (assign_goal c n) n in
        inr (with_nodes c (update_node n (nodes c)), assignment_of n)
      else inl unknown_node
  end.

(** Modelled from the spec: the failover initiation of rule 6 as rule 8
    uses it for the removal of the primary [p], whose code is missing: the
    primary is assigned [mark] and its peers are assigned report_lsn. Rule 6
    words the assignment for the peers that can be reached, Scenario B of
    section 8 for the remaining nodes; the regression output has it made
    for node 3 as well, which has never called node_active. The assignment
    is a write to the catalog, and it is made here for every other node of
    the group. *)
Definition initiate_failover (c : Catalog) (now : Z) (p : Node)
    (mark : ReplicationState) : Catalog :=
  with_nodes c
    (map (fun n =>
            if node_id n =? node_id p then set_goal now mark n
            else if in_group (node_formation_id p) (group_id p) n
            then set_goal now report_lsn n
            else n)
       (nodes c)).

(** Modelled from the spec: remove_node of section 6, rule 8 and
    Scenario B. Removing the primary initiates a failover with the node
    marked dropped, and the remaining nodes of its group are assigned
    report_lsn; any other node is just marked dropped; with [force] the
    node is taken out of the catalog at once. The call answers whether
    there was such a node. *)
Definition remove_node (c : Catalog) (now : Z) (id : Z) (force : bool)
    : Catalog * bool :=
  match find_node c id with
  | None => (c, false)
  | Some n =>
      let c :=
        if is_writable (goal_state n) then initiate_failover c now n dropped
        else with_nodes c (update_node (set_goal now dropped n) (nodes c)) in
      let c :=
        if force then
          with_nodes c (filter (fun p => negb (node_id p =? id)) (nodes c))
        else c in
      (c, true)
  end.

(** Modelled from the spec: get_primary of section 6. It answers with the
    node of the group whose goal state is writable, and fails with the
    named error when there is none. Without arguments it looks at group 0
    of the formation "default", as the regression script uses it. *)
Definition get_primary (c : Catalog) (formation : option string)
    (group : option Z) : Result (Z * string * string * Z) :=
  let formation :=
    match formation with Some f => f | None => "default" end in
  let group := match group with Some g => g | None => 0 end in
  match
    find (fun n => is_writable (goal_state n))
      (group_nodes c formation group)
  with
  | Some n => inr (node_id n, node_name n, host n, port n)
  | None => inl no_writable_node
  end.

(** *** The regression script *)

Inductive Query :=
| q_register_node (formation host : string) (port : Z) (dbname : string)
| q_set_node_system_identifier (id sysid : Z)
| q_node_active (formation : string) (id group : Z)
    (current_group_role : ReplicationState)
| q_get_primary (formation : option string) (group : option Z)
| q_remove_node (id : Z) (force : bool)
| q_select_nodes.

(** A row of the dump of pgautofailover.node: formationid, nodeid,
    groupid, nodehost, nodeport, goalstate, reportedstate,
    reportedpgisrunning, reportedrepstate. *)
Definition NodeRow : Type :=
  (string * Z * Z * string * Z * ReplicationState * ReplicationState * bool
   * ReplicationSyncState)%type.

Inductive Answer :=
| a_registered (a : Assignment) (assigned_node_name : string)
| a_assigned (a : Assignment)
| a_node (id : Z) (name host : string) (port : Z)
| a_removed (b : bool)
| a_nodes (rows : list NodeRow)
| a_error (message : string).

Definition answer_error (e : MonitorError) : Answer :=
  a_error (match error_message e with Some m => m | None => EmptyString end).

Definition node_row (n : Node) : NodeRow :=
  (node_formation_id n, node_id n, group_id n, host n, port n, goal_state n,
   reported_state n, reported_pg_is_running n, reported_replication_state n).

(** One statement of the script, run at time [now]; node_active leaves out
    the arguments the script leaves out (LSN 0/0, running, unknown). *)
Definition run_query (now : Z) (c : Catalog) (q : Query) : Catalog * Answer :=
  match q with
  | q_register_node formation host port dbname =>
      match register_node c now formation host port dbname None None None with
      | inr (c', (a, name)) => (c', a_registered a name)
      | inl e => (c, answer_error e)
      end
  | q_set_node_system_identifier id sysid =>
      match set_node_system_identifier c id sysid with
      | inr (c', (i, name, h, p)) => (c', a_node i name h p)
      | inl e => (c, answer_error e)
      end
  | q_node_active formation id group role =>
      match node_active c now formation id group role 0 true unknown with
      | inr (c', a) => (c', a_assigned a)
      | inl e => (c, answer_error e)
      end
  | q_get_primary formation group =>
      match get_primary c formation group with
      | inr (i, name, h, p) => (c, a_node i name h p)
      | inl e => (c, answer_error e)
      end
  | q_remove_node id force =>
      let '(c', b) := remove_node c now id force in (c', a_removed b)
  | q_select_nodes => (c, a_nodes (map node_row (nodes c)))
  end.

Fixpoint run_script (now : Z) (c : Catalog) (script : list Query)
    : Catalog * list Answer :=
  match script with
  | [] => (c, [])
  | q :: script =>
      let '(c, a) := run_query now c q in
      let '(c, answers) := run_script now c script in
      (c, a :: answers)
  end.

(** The catalog the script starts from: the formation "default" that the
    extension creates, as the output first shows it, and no node. *)
Definition initial_catalog : Catalog :=
  mkCatalog [mkFormation "default" plain "postgres" true 1] [] 1 20.

(** monitor.out, lines 4 to 86: the statements and their expected
    output. *)
Definition scenario_A : list (Query * Answer) :=
  [ (q_register_node "default" "localhost" 9876 "postgres",
     a_registered (mkAssignment 1 0 single 100 true) "node_1");
    (q_set_node_system_identifier 1 6852685710417058800,
     a_node 1 "node_1" "localhost" 9876);
    (q_node_active "default" 1 0 single,
     a_assigned (mkAssignment 1 0 single 100 true));
    (q_register_node "default" "localhost" 9877 "postgres",
     a_registered (mkAssignment 2 0 wait_standby 100 true) "node_2");
    (q_node_active "default" 2 0 wait_standby,
     a_assigned (mkAssignment 2 0 wait_standby 100 true));
    (q_node_active "default" 1 0 single,
     a_assigned (mkAssignment 1 0 wait_primary 100 true));
    (q_node_active "default" 1 0 wait_primary,
     a_assigned (mkAssignment 1 0 wait_primary 100 true));
    (q_node_active "default" 2 0 wait_standby,
     a_assigned (mkAssignment 2 0 catchingup 100 true)) ].

(** monitor.out, lines 88 to 177: a third node, the dump of the nodes,
    and get_primary. *)
Definition scenario_primary : list (Query * Answer) :=
  [ (q_register_node "default" "localhost" 9879 "postgres",
     a_registered (mkAssignment 3 0 wait_standby 100 true) "node_3");
    (q_select_nodes,
     a_nodes
       [ ("default", 1, 0, "localhost", 9876, wait_primary, wait_primary,
          true, unknown);
         ("default", 2, 0, "localhost", 9877, catchingup, wait_standby,
          true, unknown);
         ("default", 3, 0, "localhost", 9879, wait_standby, init,
          true, async) ]);
    (q_get_primary (Some "unknown formation") None,
     a_error "group has no writable node right now");
    (q_get_primary None (Some (-10)),
     a_error "group has no writable node right now");
    (q_get_primary None None, a_node 1 "node_1" "localhost" 9876);
    (q_get_primary (Some "default") (Some 0),
     a_node 1 "node_1" "localhost" 9876) ].

(** monitor.out, lines 195 to 244: the primary is removed. The statements
    on pgautofailover.formation, get_other_nodes and perform_failover are
    not part of the replay: the output shows number_sync_standbys go from
    1 to 0 when the primary is removed, the specification has no rule for
    it, and the operations above leave the formations as they are. *)
Definition scenario_B : list (Query * Answer) :=
  [ (q_remove_node 1 false, a_removed true);
    (q_remove_node 1 true, a_removed true);
    (q_select_nodes,
     a_nodes
       [ ("default", 2, 0, "localhost", 9877, report_lsn, wait_standby,
          true, unknown);
         ("default", 3, 0, "localhost", 9879, report_lsn, init,
          true, async) ]);
    (q_set_node_system_identifier 2 6852685710417058800,
     a_node 2 "node_2" "localhost" 9877) ].

Definition monitor_out : list (Query * Answer) :=
  scenario_A ++ scenario_primary ++ scenario_B.

(** The catalog after scenario A: node 1 is the primary in wait_primary,
    node 2 its standby in catchingup. *)
Definition catalog_after_A : Catalog :=
  fst (run_script 0 initial_catalog (map fst scenario_A)).

(** The catalog after the third node has joined, where the script asks for
    the primary. *)
Definition catalog_three_nodes : Catalog :=
  fst (run_script 0 catalog_after_A
         [q_register_node "default" "localhost" 9879 "postgres"]).

End Monitor.

(** ** Concrete worlds and values for the examples *)
Module Examples.

Import Pgsql.

Definition digit_of (c : ascii) : option Z :=
  let n := Z.of_nat (nat_of_ascii c) in
  if (48 <=? n) && (n <=? 57) then Some (n - 48) else None.

Fixpoint read_digits (s : string) (acc : Z) : Z :=
  match s with
  | EmptyString => acc
  | String c rest =>
      match digit_of c with
      | Some d => read_digits rest (10 * acc + d)
      | None => acc
      end
  end.

Definition ERANGE : Z := 34.
Definition EINVAL : Z := 22.

(** A reader of leading decimal digits that stands for strtoull: beyond 64
    bits it answers ULLONG_MAX and sets errno to ERANGE, otherwise it
    leaves errno as it found it. *)
Definition example_strtoull (v : string) (e : Z) : Z * Z :=
  let n := read_digits v 0 in
  if 2 ^ 64 <=? n then (2 ^ 64 - 1, ERANGE) else (n, e).

(** The same reader standing for strtod on texts without fraction. *)
Definition example_strtod (v : string) (e : Z) : Z * Z :=
  (read_digits v 0, e).

(** A world in which the clock moves on by five seconds from one reading
    to the next, the server does not answer pings, every connection attempt
    gives [conn] and every command gives [result]. *)
Definition world_with (conn : option PGconn) (result : option PGresult)
    : World :=
  mkWorld (fun k => 1000 + 5 * Z.of_nat k)
    (fun _ _ => PQPING_NO_RESPONSE)
    (fun _ _ => conn)
    (fun _ => false) (fun _ => false)
    (fun _ _ => (result, []))
    (fun str => Some (dquote +++ str +++ dquote))
    (fun str => Some ("'" +++ str +++ "'"))
    (fun _ => false)
    example_strtod example_strtoull
    15 5 1024.

Definition state_of (w : World) (e : Z) (p : PGSQL) : State :=
  mkState w 0 0 0 0 0 0 e [] libpqDefaultNoticeProcessor p.

Definition refused : PGconn :=
  mkPGconn CONNECTION_BAD "could not connect to server".

Definition established : PGconn := mkPGconn CONNECTION_OK EmptyString.

(** The result libpq makes up when the server goes away in the middle of a
    command: a fatal error without SQLSTATE. *)
Definition connection_lost : PGresult :=
  mkPGresult PGRES_FATAL_ERROR 0 [] None.

Definition no_rows : PGresult := mkPGresult PGRES_TUPLES_OK 1 [] None.

Definition one_row (value : string) : PGresult :=
  mkPGresult PGRES_TUPLES_OK 1 [[value]] None.

(** A keeper whose monitor does not answer. *)
Definition monitor_down : State :=
  state_of (world_with (Some refused) None) 0
    (mkPGSQL PGSQL_CONN_MONITOR "host=monitor dbname=pg_auto_failover" None).

(** A local Postgres that refuses connections. *)
Definition local_down : State :=
  state_of (world_with (Some refused) None) 0
    (mkPGSQL PGSQL_CONN_LOCAL "host=localhost" None).

(** The state in which the failed attempt to connect leaves it. *)
Definition local_down_after_attempt : State :=
  match pgsql_open_connection 0 local_down with
  | Ret _ s => s
  | _ => local_down
  end.

(** An open connection on which every command gives [result]. *)
Definition connected (result : option PGresult) : State :=
  state_of (world_with (Some established) result) 0
    (mkPGSQL PGSQL_CONN_LOCAL "host=localhost" (Some established)).

End Examples.

(** ** pgsql.c, the other commands *)
Module PgsqlCommands.

Import Pgsql.
Local Open Scope pgsql_scope.

(** What these functions take from libpq, libc and the headers that are
    not part of the sources: PQconninfoParse (an error message, or every
    option libpq knows with the value given for it, NULL when there is
    none), atoi, and the macros of pgsql.h and defaults.h. *)
Record Env := mkEnv {
  e_PQconninfoParse : string -> string + list (string * option string);
  e_atoi : string -> Z;
  MAXCONNINFO : Z;
  POSTGRES_PORT : Z;
  PGSR_SYNC_STATE_MAXLENGTH : Z;
  PG_LSN_MAXLENGTH : Z
}.

Definition strlen (s : string) : Z := Z.of_nat (String.length s).

Definition pgsql_execute (fuel : nat) (sql : string) : M bool :=
  '(ok, _) <- pgsql_execute_with_params fuel sql [] tt None ;;
  ret ok.

Definition pgsql_create_replication_slot (fuel : nat) (slotName : string)
    : M bool :=
  let sql := "SELECT pg_create_physical_replication_slot($1)" in
  log_info ("Create replication slot " +++ quoted (Some slotName)) ;;
  '(ok, _) <- pgsql_execute_with_params fuel sql [slotName] tt None ;;
  ret ok.

Definition pgsql_drop_replication_slot (fuel : nat) (slotName : string)
    (verbose : bool) : M bool :=
  let sql :=
    "SELECT pg_drop_replication_slot(slot_name) "
    +++ "  FROM pg_replication_slots "
    +++ " WHERE slot_name = $1" in
  (if verbose then
     log_info ("Drop replication slot " +++ quoted (Some slotName))
   else ret tt) ;;
  '(ok, _) <- pgsql_execute_with_params fuel sql [slotName] tt None ;;
  ret ok.

Record GUC := mkGUC { name : string; value : string }.

Definition reload_conf_sql : string := "SELECT pg_reload_conf()".

Definition pgsql_reload_conf (fuel : nat) : M bool :=
  pgsql_execute fuel reload_conf_sql.

(** The [command] of pgsql_alter_system_set. *)
Definition alter_system_command (setting : GUC) : string :=
  snprintf 1024
    ("ALTER SYSTEM SET " +++ name setting +++ " TO " +++ value setting).

Definition pgsql_alter_system_set (fuel : nat) (setting : GUC) : M bool :=
  let command := alter_system_command setting in
  ok <- pgsql_execute fuel command ;;
  if negb ok then ret false
  else
    ok <- pgsql_reload_conf fuel ;;
    if negb ok then ret false else ret true.

Definition pgsql_enable_synchronous_replication (fuel : nat) : M bool :=
  let setting := mkGUC "synchronous_standby_names" "'*'" in
  log_info "Enabling synchronous replication" ;;
  pgsql_alter_system_set fuel setting.

Definition cancelBlockedStatementsCommand : string :=
  "SELECT pg_cancel_backend(pid) FROM pg_stat_activity "
  +++ "WHERE wait_event = 'SyncRep'".

Definition pgsql_disable_synchronous_replication (fuel : nat) : M bool :=
  let setting := mkGUC "synchronous_standby_names" "''" in
  log_info "Disabling synchronous replication" ;;
  ok <- pgsql_alter_system_set fuel setting ;;
  if negb ok then ret false
  else
    log_debug "Unblocking commands waiting for synchronous replication" ;;
    ok <- pgsql_execute fuel cancelBlockedStatementsCommand ;;
    if negb ok then ret false else ret true.

Definition pgsql_set_default_transaction_mode_read_only (fuel : nat)
    : M bool :=
  let setting := mkGUC "default_transaction_read_only" "'on'" in
  log_info "Setting default_transaction_read_only to on" ;;
  pgsql_alter_system_set fuel setting.

Definition pgsql_set_default_transaction_mode_read_write (fuel : nat)
    : M bool :=
  let setting := mkGUC "default_transaction_read_only" "'off'" in
  log_info "Setting default_transaction_read_only to off" ;;
  pgsql_alter_system_set fuel setting.

Definition pgsql_checkpoint (fuel : nat) : M bool :=
  pgsql_execute fuel "CHECKPOINT".

(** The context of pgsql_get_current_setting: all zero, then the result
    type. *)
Definition zero_context (t : QueryResultType) : SingleValueResultContext :=
  mkContext t false false 0 0 None.

Definition current_setting_sql : string := "SELECT current_setting($1)".

(** The second component is the pointer left in [*currentValue], which
    the callers initialise to NULL. *)
Definition pgsql_get_current_setting (fuel : nat) (settingName : string)
    : M (bool * option string) :=
  let context := zero_context PGSQL_RESULT_STRING in
  '(ok, context) <-
    pgsql_execute_with_params fuel current_setting_sql [settingName] context
      (Some parseSingleValueResult) ;;
  if negb ok then ret (false, None)
  else if negb (parsedOk context) then
    log_error ("Failed to get result from current_setting('" +++ settingName
               +++ "')") ;;
    ret (false, None)
  else ret (true, strVal context).

(** The second component is what the call wrote to [configFilePath]. *)
Definition pgsql_get_config_file_path (fuel : nat) (maxPathLength : Z)
    : M (bool * option string) :=
  '(ok, configValue) <- pgsql_get_current_setting fuel "config_file" ;;
  if negb ok then ret (false, None)
  else
    configFilePath <- strlcpy configValue maxPathLength ;;
    ret (true, Some configFilePath).

(** The second component is what the call wrote to [hbaFilePath]. *)
Definition pgsql_get_hba_file_path (fuel : nat) (maxPathLength : Z)
    : M (bool * option string) :=
  '(ok, configValue) <- pgsql_get_current_setting fuel "hba_file" ;;
  if negb ok then ret (false, None)
  else
    hbaFilePath <- strlcpy configValue maxPathLength ;;
    let hbaFilePathLength :=
      match configValue with Some v => strlen v | None => 0 end in
    if maxPathLength <=? hbaFilePathLength then
      log_error ("The hba_file " +++ quoted configValue
                 +++ " returned by postgres is "
                 +++ string_of_Z hbaFilePathLength
                 +++ " characters, the maximum supported by pg_autoctl is "
                 +++ string_of_Z maxPathLength +++ " characters") ;;
      ret (false, Some hbaFilePath)
    else ret (true, Some hbaFilePath).

Definition is_in_recovery_sql : string := "SELECT pg_is_in_recovery()".

(** The second component is what the call stored through
    [is_in_recovery]. *)
Definition pgsql_is_in_recovery (fuel : nat) : M (bool * option bool) :=
  let context := new_context PGSQL_RESULT_BOOL in
  '(ok, context) <-
    pgsql_execute_with_params fuel is_in_recovery_sql [] context
      (Some parseSingleValueResult) ;;
  if negb ok then ret (false, None)
  else if negb (parsedOk context) then
    log_error "Failed to get result from pg_is_in_recovery()" ;;
    ret (false, None)
  else ret (true, Some (boolVal context)).

Definition check_monitor_settings_sql : string :=
  "select exists(select 1 from "
  +++ "unnest("
  +++ "string_to_array(current_setting('shared_preload_libraries'), ','))"
  +++ " as t(name) "
  +++ "where trim(name) = 'pgautofailover');".

Definition pgsql_check_monitor_settings (fuel : nat)
    : M (bool * option bool) :=
  let context := new_context PGSQL_RESULT_BOOL in
  '(ok, context) <-
    pgsql_execute_with_params fuel check_monitor_settings_sql [] context
      (Some parseSingleValueResult) ;;
  if negb ok then ret (false, None)
  else if negb (parsedOk context) then ret (false, None)
  else ret (true, Some (boolVal context)).

(** *** pg_stat_replication *)

Record PgsrSyncAndWALContext := mkPgsrContext {
  pgsr_parsedOk : bool;
  syncState : string;
  currentLSN : string
}.

Definition parsePgsrSyncStateAndWAL (env : Env)
    (context : PgsrSyncAndWALContext) (result : PGresult)
    : M PgsrSyncAndWALContext :=
  if negb (PQnfields result =? 2) then
    log_error ("Query returned " +++ string_of_Z (PQnfields result)
               +++ " columns, expected 2") ;;
    ret (mkPgsrContext false (syncState context) (currentLSN context))
  else
    match PQntuples result with
    | 0 => ret (mkPgsrContext false (syncState context) (currentLSN context))
    | 1 =>
        state <- strlcpy (PQgetvalue result 0 0)
                   (PGSR_SYNC_STATE_MAXLENGTH env) ;;
        lsn <- strlcpy (PQgetvalue result 0 1) (PG_LSN_MAXLENGTH env) ;;
        ret (mkPgsrContext true state lsn)
    | _ =>
        log_error "parsePgsrSyncStateAndWAL received more than 1 result" ;;
        ret (mkPgsrContext false (syncState context) (currentLSN context))
    end.

Definition sync_state_sql : string :=
  "select coalesce(rep.sync_state, '') as sync_state,"
  +++ " pg_current_wal_lsn() "
  +++ "from (values(1)) as dummy "
  +++ "full outer join "
  +++ "( select sync_state from pg_replication_slots slot "
  +++ " join pg_stat_replication rep on rep.pid = slot.active_pid "
  +++ " where slot_name = $1 "
  +++ ") as rep on true".

(** The second component is what the call wrote to [pgsrSyncState] and
    [currentLSN]. *)
Definition pgsql_get_sync_state_and_current_lsn (env : Env) (fuel : nat)
    (slotName : string) (maxLSNSize : Z) (missing_ok : bool)
    : M (bool * option (string * string)) :=
  let context := mkPgsrContext false EmptyString EmptyString in
  '(_, context) <-
    pgsql_execute_with_params fuel sync_state_sql [slotName] context
      (Some (parsePgsrSyncStateAndWAL env)) ;;
  if negb (pgsr_parsedOk context) then
    (if negb missing_ok then
       log_error ("PostgreSQL primary server has lost track of its standby: "
                  +++ "pg_stat_replication reports no client using the slot "
                  +++ quoted (Some slotName) +++ ".")
     else ret tt) ;;
    ret (false, None)
  else
    pgsrSyncState <- strlcpy (Some (syncState context))
                       (PGSR_SYNC_STATE_MAXLENGTH env) ;;
    lsn <- strlcpy (Some (currentLSN context)) maxLSNSize ;;
    ret (true, Some (pgsrSyncState, lsn)).

(** *** LISTEN *)

(** The [for] loop of pgsql_listen over the channels that are left.
    [sprintf] writes the command and its NUL into [sql], an array of
    BUFSIZE bytes, without a bound: a command of BUFSIZE characters or more
    goes past the end of the array, and C gives no meaning to what the
    program does from there. The answer is [None] then, and [Some] of the
    value the function returns otherwise. *)
Fixpoint listen_channels (c : option PGconn) (channels : list string)
    : M (option bool) :=
  match channels with
  | [] => ret (Some true)
  | name :: channels =>
      channel <- PQescapeIdentifier name ;;
      match channel with
      | None =>
          log_error ("Failed to LISTEN " +++ quoted (Some name) +++ ": "
                     +++ PQerrorMessage c) ;;
          pgsql_finish ;;
          ret (Some false)
      | Some channel =>
          let sql := "LISTEN " +++ channel in
          w <- get_world ;;
          if BUFSIZE w <=? strlen sql then ret None
          else
            '(result, pending) <- PQexec sql ;;
            if negb (is_response_ok result) then
              log_error ("Failed to LISTEN " +++ quoted (Some name) +++ ": "
                         +++ PQerrorMessage c) ;;
              clear_results c pending ;;
              ret (Some false)
            else
              clear_results c pending ;;
              listen_channels c channels
      end
  end.

(** [None] when a command did not fit [sql], see [listen_channels]. *)
Definition pgsql_listen (fuel : nat) (channels : list string)
    : M (option bool) :=
  c <- pgsql_open_connection fuel ;;
  match c with
  | None => ret (Some false)
  | Some _ => listen_channels c channels
  end.

(** *** ALTER EXTENSION *)

(** printf's [%s]; glibc prints a null pointer as (null). *)
Definition percent_s (v : option string) : string :=
  match v with Some v => v | None => "(null)" end.

(** The text that pgsql_alter_extension_update_to formats into
    [command]. *)
Definition alter_extension_text (escapedIdentifier : string)
    (escapedVersion : option string) : string :=
  "ALTER EXTENSION " +++ escapedIdentifier +++ " UPDATE TO "
  +++ percent_s escapedVersion.

Definition pgsql_alter_extension_update_to (fuel : nat)
    (extname version : string) : M bool :=
  c <- pgsql_open_connection fuel ;;
  match c with
  | None => ret false
  | Some _ =>
      escapedIdentifier <- PQescapeIdentifier extname ;;
      match escapedIdentifier with
      | None =>
          log_error ("Failed to update extension " +++ quoted (Some extname)
                     +++ ": " +++ PQerrorMessage c) ;;
          pgsql_finish ;;
          ret false
      | Some escapedIdentifier =>
          escapedVersion <- PQescapeIdentifier version ;;
          (* the second test reads escapedIdentifier again, which is not
             NULL here *)
          w <- get_world ;;
          let text := alter_extension_text escapedIdentifier escapedVersion in
          let n := strlen text in
          let command := snprintf (BUFSIZE w) text in
          (if BUFSIZE w <=? n then
             log_error ("BUG: pg_autoctl only supports SQL string up to "
                        +++ string_of_Z (BUFSIZE w) +++ " bytes, "
                        +++ "a SQL string of " +++ string_of_Z n
                        +++ " bytes is needed to update the "
                        +++ quoted (Some extname) +++ " extension.")
           else ret tt) ;;
          log_debug ("Running command on Postgres: " +++ command +++ ";") ;;
          '(result, pending) <- PQexec command ;;
          if negb (is_response_ok result) then
            let sqlstate := PQresultErrorField_SQLSTATE result in
            log_error ("Error " +++ percent_s sqlstate
                       +++ " while running Postgres query: " +++ command
                       +++ ": " +++ PQerrorMessage c) ;;
            clear_results c pending ;;
            pgsql_finish ;;
            ret false
          else
            clear_results c pending ;;
            ret true
      end
  end.

(** *** Connection strings *)

Definition is_host_keyword (keyword : string) : bool :=
  String.eqb keyword "host" || String.eqb keyword "hostaddr".

(** The [for] loop of hostname_from_uri over the options that are left.
    The result is the value returned and what [hostname] and [*port] hold
    then, [None] where nothing was written. *)
Fixpoint hostname_from_uri_options (env : Env) (maxHostLength : Z)
    (options : list (string * option string))
    (hostname : option string) (port : option Z) (found : Z)
    : M (bool * option string * option Z) :=
  match options with
  | [] => ret (true, hostname, port)
  | (keyword, val) :: options =>
      step <-
        (if is_host_keyword keyword then
           match val with
           | Some v =>
               copied <- strlcpy (Some v) maxHostLength ;;
               let hostNameLength := strlen v in
               if maxHostLength <=? hostNameLength then
                 log_error ("The URL " +++ quoted (Some v)
                            +++ " contains a hostname of "
                            +++ string_of_Z hostNameLength
                            +++ " characters, the maximum supported by "
                            +++ "pg_autoctl is " +++ string_of_Z maxHostLength
                            +++ " characters") ;;
                 ret (inl (false, Some copied, port))
               else ret (inr (Some copied, found + 1))
           | None => ret (inr (hostname, found))
           end
         else ret (inr (hostname, found))) ;;
      match step with
      | inl returned => ret returned
      | inr (hostname, found) =>
          let '(port, found) :=
            if String.eqb keyword "port" then
              match val with
              | Some v => (Some (e_atoi env v), found + 1)
              | None => (Some (POSTGRES_PORT env), found)
              end
            else (port, found) in
          if found =? 2 then ret (true, hostname, port)
          else
            hostname_from_uri_options env maxHostLength options
              hostname port found
      end
  end.

Definition hostname_from_uri (env : Env) (pguri : string)
    (maxHostLength : Z) : M (bool * option string * option Z) :=
  match e_PQconninfoParse env pguri with
  | inl errmsg =>
      log_error ("Failed to parse pguri " +++ quoted (Some pguri) +++ ": "
                 +++ errmsg) ;;
      ret (false, None, None)
  | inr conninfo =>
      hostname_from_uri_options env maxHostLength conninfo None None 0
  end.

Definition validate_connection_string (env : Env) (connectionString : string)
    : M bool :=
  let length := strlen connectionString in
  if MAXCONNINFO env <=? length then
    log_error ("Connection string " +++ quoted (Some connectionString)
               +++ " is " +++ string_of_Z length
               +++ " characters, the maximum supported by pg_autoctl is "
               +++ string_of_Z (MAXCONNINFO env)) ;;
    ret false
  else
    match e_PQconninfoParse env connectionString with
    | inl errorMessage =>
        log_error ("Failed to parse connection string "
                   +++ quoted (Some connectionString) +++ ": "
                   +++ errorMessage +++ " ") ;;
        ret false
    | inr _ => ret true
    end.

Definition pgsql_init (env : Env) (url : string)
    (type : ConnectionType) : M bool :=
  p <- get_pgsql ;;
  put_pgsql (mkPGSQL type (connectionString p) None) ;;
  ok <- validate_connection_string env url ;;
  if ok then
    copied <- strlcpy (Some url) (MAXCONNINFO env) ;;
    put_pgsql (mkPGSQL type copied None) ;;
    ret true
  else ret false.

(** The part of a string that [strlen] measures: up to the first NUL. *)
Fixpoint c_string (s : string) : string :=
  match s with
  | EmptyString => EmptyString
  | String c rest =>
      if Ascii.eqb c zero then EmptyString else String c (c_string rest)
  end.

(** Text that the reader of connection strings takes as it stands: no
    blank, quote or backslash in it. *)
Fixpoint bare (s : string) : bool :=
  match s with
  | EmptyString => true
  | String c rest =>
      negb (Conninfo.isspace c) && negb (is_quote_or_backslash c)
      && bare rest
  end.

(** An option of the parsed URI that the loop of hostname_from_uri passes
    over without counting it or writing to [*port]. *)
Definition passed_over (option : string * option string) : bool :=
  let '(keyword, val) := option in
  negb (is_host_keyword keyword
        && match val with Some _ => true | None => false end)
  && negb (String.eqb keyword "port").

(** Whether the loop of pgsql_execute_with_params over the parameters
    stays inside [debugParameters], an array of BUFSIZE bytes. Each snprintf
    of the loop moves [writePointer] on by the length of its whole text,
    cut or not, and takes that length off [remainingBytes]; as long as the
    text of all parameters together is shorter than BUFSIZE no write is cut,
    the pointer stays inside the array and what is logged is
    [debug_parameters]. Without parameters the loop is not entered. *)
Definition debug_parameters_fit (w : World) (paramValues : list string)
    : bool :=
  match paramValues with
  | [] => true
  | _ :: _ => strlen (debug_parameters paramValues) <? BUFSIZE w
  end.

(** The same state with [pgsql->connection] set to NULL. *)
Definition disconnected (s : State) : State :=
  mkState (world s) (n_time s) (n_ping s) (n_connect s) (n_signal s)
    (n_exec s) (slept s) (errno s) (logs s) (noticeProcessor s)
    (mkPGSQL (connectionType (pgsql s)) (connectionString (pgsql s)) None).

(** Whether the server answers the command number [k], when it is [sql],
    with a result that is_response_ok accepts. *)
Definition answer_ok (w : World) (k : nat) (sql : string) : bool :=
  is_response_ok (fst (w_PQexec w k sql)).

(** What pgsql_execute_with_params does with a result that
    is_response_ok accepts. *)
Definition run_parseFun {C} (parseFun : option (C -> PGresult -> M C))
    (context : C) (result : option PGresult) : M C :=
  match parseFun, result with
  | Some parse, Some result => parse context result
  | _, _ => ret context
  end.

(** The state after one more command: the connection is kept when the
    command went through and closed when it did not. *)
Definition executed (ok : bool) (s : State) : State :=
  let s := if ok then s else disconnected s in
  mkState (world s) (n_time s) (n_ping s) (n_connect s) (n_signal s)
    (S (n_exec s)) (slept s) (errno s) (logs s) (noticeProcessor s)
    (pgsql s).

(** [k] commands that went through, one after the other. *)
Fixpoint executed_times (k : nat) (s : State) : State :=
  match k with
  | O => s
  | S k => executed_times k (executed true s)
  end.

End PgsqlCommands.

(** ** More states and environments to run the commands in *)
Module Fixtures.

Import Pgsql PgsqlCommands Examples.

(** The state a computation leaves behind. *)
Definition state_after {A} (m : M A) (s : State) : State :=
  match m s with
  | Ret _ s' => s'
  | NullDeref s' => s'
  | OutOfFuel => s
  end.

(** The context a call of pgsql_execute_with_params leaves to its caller;
    a call that does not return leaves none, which reads as a context that
    says parsedOk. *)
Definition context_after (m : M (bool * SingleValueResultContext))
    (s : State) : SingleValueResultContext :=
  match m s with
  | Ret (_, context) _ => context
  | _ => mkContext PGSQL_RESULT_STRING true true 0 0 None
  end.

(** A PQconninfoParse that reads with the reader of module [Conninfo] and
    lists the options that were given. *)
Definition example_PQconninfoParse (conninfo : string)
    : string + list (string * option string) :=
  match Conninfo.PQconninfoParse conninfo with
  | Some options => inr (map (fun '(k, v) => (k, Some v)) options)
  | None => inl "syntax error"
  end.

Definition example_env : Env :=
  mkEnv example_PQconninfoParse (fun v => read_digits v 0) 1024 5432 32 18.

(** A world in which the server answers the pings, accepts connections and
    answers every command with [result]; identifiers are escaped by
    [escape]. *)
Definition world_up (escape : string -> option string)
    (result : option PGresult) : World :=
  mkWorld (fun k => 1000 + 5 * Z.of_nat k)
    (fun _ _ => PQPING_OK)
    (fun _ _ => Some established)
    (fun _ => false) (fun _ => false)
    (fun _ _ => (result, []))
    escape
    (fun str => Some ("'" +++ str +++ "'"))
    (fun _ => false)
    example_strtod example_strtoull
    15 5 1024.

(** A keeper that has not connected yet to a server that is up. *)
Definition starting : State :=
  state_of (world_up (fun str => Some (dquote +++ str +++ dquote)) None) 0
    (mkPGSQL PGSQL_CONN_LOCAL "host=localhost" None).

(** A byte that is no valid text in the encoding of the connection. *)
Definition invalid_text : string := String "255" EmptyString.

(** An escaping that fails on [invalid_text]. *)
Definition escape_valid (str : string) : option string :=
  if String.eqb str invalid_text then None
  else Some (dquote +++ str +++ dquote).

Definition command_ok : PGresult := mkPGresult PGRES_COMMAND_OK 0 [] None.

(** An open connection to a server that accepts every command, over which
    [invalid_text] cannot be escaped. *)
Definition connected_strict : State :=
  state_of (world_up escape_valid (Some command_ok)) 0
    (mkPGSQL PGSQL_CONN_LOCAL "host=localhost" (Some established)).

(** The row that the query of pgsql_get_sync_state_and_current_lsn gets
    for a standby in quorum. *)
Definition quorum_row : PGresult :=
  mkPGresult PGRES_TUPLES_OK 2 [["quorum"; "0/3000060"]] None.

End Fixtures.

(** * Properties *)

Import Pgsql.
Local Open Scope pgsql_scope.

(** ** Connection strings *)

Lemma append_assoc' (a b c : string) : (a +++ b) +++ c = a +++ (b +++ c).
Proof. induction a as [|x a IH]; simpl; [reflexivity | now rewrite IH]. Qed.

Lemma length_append (a b : string) :
  String.length (a +++ b) = (String.length a + String.length b)%nat.
Proof. induction a as [|x a IH]; simpl; [reflexivity | now rewrite IH]. Qed.

Lemma printable_not_zero (c : ascii) :
  Conninfo.printable c = true -> Ascii.eqb c zero = false.
Proof.
  intros H. apply Ascii.eqb_neq. intros ->. discriminate H.
Qed.

Lemma string_of_list_ascii_app (l1 l2 : list ascii) :
  string_of_list_ascii (l1 ++ l2)
  = string_of_list_ascii l1 +++ string_of_list_ascii l2.
Proof. induction l1 as [|x l1 IH]; simpl; [reflexivity | now rewrite IH]. Qed.

(** On printable text the loop of escape_conninfo_value writes what the
    spec's wording describes. *)
Lemma escape_chars_spec (v : string) :
  Conninfo.all_printable v = true ->
  escape_chars v
  = string_of_list_ascii
      (flat_map Conninfo.escape_one (list_ascii_of_string v)).
Proof.
  induction v as [|c v IH]; simpl; intros H; [reflexivity|].
  apply andb_prop in H as [Hc Hv].
  rewrite (printable_not_zero c Hc), string_of_list_ascii_app, <- (IH Hv).
  unfold is_quote_or_backslash, Conninfo.escape_one.
  destruct (Ascii.eqb_spec c "'") as [->|]; [reflexivity|].
  destruct (Ascii.eqb_spec c "\") as [->|]; reflexivity.
Qed.

(** Reading the escaped text back, up to the closing quote, gives the
    value and leaves what follows the quote. *)
Lemma read_quoted_escape_chars (v rest : string) :
  Conninfo.all_printable v = true ->
  Conninfo.read_quoted (escape_chars v +++ String "'" rest) = Some (v, rest).
Proof.
  induction v as [|c v IH]; simpl; intros H; [reflexivity|].
  apply andb_prop in H as [Hc Hv].
  rewrite (printable_not_zero c Hc). unfold is_quote_or_backslash.
  destruct (Ascii.eqb_spec c "'") as [->|Hq].
  - simpl. now rewrite (IH Hv).
  - destruct (Ascii.eqb_spec c "\") as [->|Hb]; simpl.
    + now rewrite (IH Hv).
    + apply Ascii.eqb_neq in Hq, Hb. rewrite Hq, Hb. now rewrite (IH Hv).
Qed.

Lemma read_keyword_plain (key rest : string) :
  Conninfo.plain_chars key = true ->
  Conninfo.read_keyword (key +++ String "=" rest) = (key, String "=" rest).
Proof.
  induction key as [|c key IH]; simpl; intros H; [reflexivity|].
  apply andb_prop in H as [H Hk]. apply andb_prop in H as [He Hs].
  apply negb_true_iff in He, Hs. rewrite He, Hs. now rewrite (IH Hk).
Qed.

Lemma conninfo_parse_field (fuel : nat) (key v rest : string) :
  Conninfo.plain_chars key = true ->
  Conninfo.known_keyword key = true ->
  Conninfo.all_printable v = true ->
  Conninfo.conninfo_parse (S fuel)
    (String " " (key +++ String "=" (String "'"
       (escape_chars v +++ String "'" rest))))
  = match Conninfo.conninfo_parse fuel rest with
    | Some options => Some ((key, v) :: options)
    | None => None
    end.
Proof.
  intros Hplain Hknown Hv.
  cbn [Conninfo.conninfo_parse Conninfo.skip_blanks].
  change (Conninfo.isspace " ") with true. cbv iota.
  pose proof (read_keyword_plain key
                (String "'" (escape_chars v +++ String "'" rest)) Hplain) as Hk.
  destruct key as [|c key].
  - discriminate Hknown.
  - cbn [String.append] in Hk |- *.
    cbn [Conninfo.skip_blanks].
    simpl in Hplain. apply andb_prop in Hplain as [H _].
    apply andb_prop in H as [_ Hs]. apply negb_true_iff in Hs.
    rewrite Hs, Hk.
    cbn [Conninfo.skip_blanks].
    change (Conninfo.isspace "'") with false. cbv iota.
    rewrite (read_quoted_escape_chars v rest Hv), Hknown.
    reflexivity.
Qed.

Lemma make_conninfo_field_str_text (key v : string) :
  fst (make_conninfo_field_str key v)
  = String " " (key +++ String "=" (String "'" (escape_chars v +++ "'"))).
Proof.
  unfold make_conninfo_field_str, escape_conninfo_value. cbn.
  now rewrite append_assoc'.
Qed.

Lemma field_then (key v rest : string) :
  fst (make_conninfo_field_str key v) +++ rest
  = String " " (key +++ String "=" (String "'"
      (escape_chars v +++ String "'" rest))).
Proof.
  rewrite make_conninfo_field_str_text. cbn [String.append].
  now rewrite append_assoc'; cbn [String.append]; rewrite append_assoc'.
Qed.

Lemma conninfo_parse_empty (fuel : nat) :
  Conninfo.conninfo_parse (S fuel) EmptyString = Some [].
Proof. reflexivity. Qed.

(** C4. For ASCII printable values, escape_conninfo_value writes the value
    between single quotes with a backslash before each ' and \ and nothing
    else changed, and returns the length of what it wrote; the connection
    string that make_conninfo_field_str builds from host, port, dbname and
    user reads back as exactly these four values. *)
Theorem conninfo_escaping_round_trips (host port dbname user : string) :
  Conninfo.all_printable host = true ->
  Conninfo.all_printable port = true ->
  Conninfo.all_printable dbname = true ->
  Conninfo.all_printable user = true ->
  Forall (fun v =>
            escape_conninfo_value v
            = (Conninfo.quote_spec v,
               Z.of_nat (String.length (Conninfo.quote_spec v))))
         [host; port; dbname; user]
  /\ Conninfo.PQconninfoParse (build_conninfo host port dbname user)
     = Some [("host", host); ("port", port); ("dbname", dbname);
             ("user", user)].
Proof.
  intros Hh Hp Hd Hu. split.
  - assert (E : forall v, Conninfo.all_printable v = true ->
                escape_conninfo_value v
                = (Conninfo.quote_spec v,
                   Z.of_nat (String.length (Conninfo.quote_spec v)))).
    { intros v Hv. unfold escape_conninfo_value, Conninfo.quote_spec.
      cbn [app string_of_list_ascii].
      now rewrite string_of_list_ascii_app, <- (escape_chars_spec v Hv). }
    repeat constructor; now apply E.
  - unfold Conninfo.PQconninfoParse, build_conninfo.
    rewrite !field_then.
    rewrite make_conninfo_field_str_text.
    remember (String.length _) as n eqn:En.
    assert (Hn : exists k, n = (4 + k)%nat).
    { subst n. cbn [String.length String.append]. eexists.
      rewrite length_append. cbn [String.length]. reflexivity. }
    destruct Hn as [k ->]. clear En.
    cbn [Nat.add].
    rewrite (conninfo_parse_field _ "host" host),
      (conninfo_parse_field _ "port" port),
      (conninfo_parse_field _ "dbname" dbname) by (assumption || reflexivity).
    change (String "'" (escape_chars user +++ "'"))
      with (String "'" (escape_chars user +++ String "'" EmptyString)).
    rewrite (conninfo_parse_field _ "user" user) by (assumption || reflexivity).
    reflexivity.
Qed.

(** ** parseSingleValueResult *)

Ltac run :=
  unfold bind, ret, null_dereference, out_of_fuel, log_error, log_warn,
    log_info, log_debug, log_trace, log_msg, get_pgsql, put_pgsql,
    get_errno, put_errno, get_world, logged; cbn.

(** C6. With resultType PGSQL_RESULT_BIGINT and a one-row result, the
    parser stores the bigint and then runs the STRING branch as well:
    strVal becomes a copy of the raw value and parsedOk is set as the STRING
    case sets it. *)
Theorem parseSingleValueResult_bigint_falls_through
    (context : SingleValueResultContext) (result : PGresult)
    (value : string) (s : State) :
  PQntuples result = 1 ->
  PQgetvalue result 0 0 = Some value ->
  resultType context = PGSQL_RESULT_BIGINT ->
  let n := fst (w_strtoull (world s) value (errno s)) in
  exists context' s',
    parseSingleValueResult context result s = Ret context' s'
    /\ bigint context' = n
    /\ strVal context' = Some value
    /\ parsedOk context' = true
    /\ case_PGSQL_RESULT_STRING
         (set_parsedOk (set_bigint context n) true) (Some value) s'
       = Ret context' s'.
Proof.
  intros Hrows Hvalue Htype n. unfold parseSingleValueResult.
  rewrite Hrows, Hvalue, Htype. cbn [Z.eqb Pos.eqb].
  unfold strtoull, libc_number, case_PGSQL_RESULT_STRING, strdup. run.
  fold n.
  destruct ((n =? 0) && negb (snd (w_strtoull (world s) value (errno s)) =? 0));
    cbn; eexists _, _; repeat split; reflexivity.
Qed.

(** C9. With resultType PGSQL_RESULT_INT or PGSQL_RESULT_BIGINT and a
    one-row result, the parser ends with parsedOk = true whatever the
    conversion did: when the value read is 0 and errno is set, the failure
    is logged, and the parsedOk = false of that branch is overwritten. *)
Theorem parseSingleValueResult_numeric_failure_not_reported
    (context : SingleValueResultContext) (result : PGresult)
    (value : string) (s : State) :
  PQntuples result = 1 ->
  PQgetvalue result 0 0 = Some value ->
  resultType context = PGSQL_RESULT_INT
  \/ resultType context = PGSQL_RESULT_BIGINT ->
  let convert :=
    match resultType context with
    | PGSQL_RESULT_INT => w_strtod
    | _ => w_strtoull
    end in
  let n := fst (convert (world s) value (errno s)) in
  let e := snd (convert (world s) value (errno s)) in
  exists context' s',
    parseSingleValueResult context result s = Ret context' s'
    /\ parsedOk context' = true
    /\ errno s' = e
    /\ logs s'
       = logs s
         ++ (if (n =? 0) && negb (e =? 0) then
               [(LOG_ERROR,
                 match resultType context with
                 | PGSQL_RESULT_INT => "Failed to parse int result "
                 | _ => "Failed to parse uint64_t result "
                 end +++ quoted (Some value))]
             else []).
Proof.
  intros Hrows Hvalue Htype. unfold parseSingleValueResult.
  rewrite Hrows, Hvalue. cbn [Z.eqb Pos.eqb].
  destruct Htype as [-> | ->]; cbv zeta;
    unfold strtod, strtoull, libc_number, case_PGSQL_RESULT_STRING, strdup;
    run.
  - destruct ((fst (w_strtod (world s) value (errno s)) =? 0)
              && negb (snd (w_strtod (world s) value (errno s)) =? 0));
      cbn; eexists _, _; repeat split; try reflexivity.
    now rewrite app_nil_r.
  - destruct ((fst (w_strtoull (world s) value (errno s)) =? 0)
              && negb (snd (w_strtoull (world s) value (errno s)) =? 0));
      cbn; eexists _, _; repeat split; try reflexivity.
    now rewrite app_nil_r.
Qed.

(** ** The CREATE commands *)

Lemma strcmp_eq (a b : string) (s : State) :
  strcmp (Some a) b s = Ret (if String.eqb a b then 0 else 1) s
  \/ strcmp (Some a) b s = Ret (if String.eqb a b then 0 else -1) s.
Proof.
  unfold strcmp, ret.
  destruct (String.eqb_spec a b) as [->|Hne].
  - left. pose proof (String.compare_antisym b b) as A.
    destruct (String.compare b b); try reflexivity; discriminate A.
  - destruct (String.compare a b) eqn:E.
    + apply String.compare_eq_iff in E. contradiction.
    + now right.
    + now left.
Qed.

Lemma pgsql_finish_returns (s : State) :
  exists s',
    pgsql_finish s = Ret tt s'
    /\ world s' = world s /\ n_time s' = n_time s /\ n_ping s' = n_ping s
    /\ n_exec s' = n_exec s /\ connection (pgsql s') = None.
Proof.
  unfold pgsql_finish. run.
  destruct (connection (pgsql s)) eqn:E; cbn; eexists; repeat split; cbn;
    try reflexivity; exact E.
Qed.

Lemma clear_results_returns (c : option PGconn) (pending : list PGresult) :
  forall s, exists b s', clear_results c pending s = Ret b s'.
Proof.
  induction pending as [|r pending IH]; intros s; cbn [clear_results].
  - eexists _, _; reflexivity.
  - destruct (negb (is_response_ok (Some r))).
    + unfold bind at 1, log_error, log_msg. unfold bind at 1.
      destruct (IH (logged LOG_ERROR
                      ("Failure from Postgres: " +++ PQerrorMessage c) s))
        as (b & s' & E).
      rewrite E. eexists _, _; reflexivity.
    + apply IH.
Qed.

(** With a SQLSTATE at hand the comparison does what its comment says: the
    duplicate code is accepted, any other code makes the command fail. *)
Lemma check_create_result_with_sqlstate (what name duplicate code : string)
    (c : option PGconn) (result : option PGresult) (pending : list PGresult)
    (s : State) :
  is_response_ok result = false ->
  PQresultErrorField_SQLSTATE result = Some code ->
  exists s',
    check_create_result what name duplicate c result pending s
    = Ret (String.eqb code duplicate) s'.
Proof.
  intros Hfailed Hcode. unfold check_create_result.
  rewrite Hfailed, Hcode. cbn [negb]. unfold bind at 1.
  destruct (strcmp_eq code duplicate s) as [-> | ->];
    destruct (String.eqb code duplicate); cbn [Z.eqb];
    try (eexists; reflexivity);
    unfold bind at 1, log_error, log_msg; unfold bind at 1;
    match goal with
    | |- context [clear_results c pending ?s0] =>
        destruct (clear_results_returns c pending s0) as (b & s1 & ->)
    end;
    unfold bind at 1;
    destruct (pgsql_finish_returns s1) as (s2 & -> & _);
    eexists; reflexivity.
Qed.

(** C7. In pgsql_create_extension, pgsql_create_database and
    pgsql_create_user the SQLSTATE of a failed command goes to strcmp
    without a null check: when the failed result carries no SQLSTATE, each
    of them runs into the null pointer instead of returning false. *)
Theorem create_commands_compare_null_sqlstate
    (fuel : nat) (s s1 : State) (c : PGconn)
    (result : option PGresult) (pending : list PGresult)
    (name dbname owner userName : string) (password : option string)
    (login superuser replication : bool) :
  pgsql_open_connection fuel s = Ret (Some c) s1 ->
  (forall str, w_PQescapeIdentifier (world s1) str <> None) ->
  (forall str, w_PQescapeLiteral (world s1) str <> None) ->
  (forall query, w_PQExpBufferBroken (world s1) query = false) ->
  (forall command,
     w_PQexec (world s1) (n_exec s1) command = (result, pending)) ->
  is_response_ok result = false ->
  PQresultErrorField_SQLSTATE result = None ->
  (exists s', pgsql_create_extension fuel name s = NullDeref s')
  /\ (exists s', pgsql_create_database fuel dbname owner s = NullDeref s')
  /\ (exists s',
        pgsql_create_user fuel userName password login superuser replication s
        = NullDeref s').
Proof.
  intros Hopen Hident Hliteral Hbroken Hexec Hfailed Hnull.
  assert (Hcheck : forall what nm dup pend s2,
            check_create_result what nm dup (Some c) result pend s2
            = NullDeref s2).
  { intros. unfold check_create_result. now rewrite Hfailed, Hnull. }
  repeat split.
  - unfold pgsql_create_extension, bind at 1. rewrite Hopen.
    unfold PQescapeIdentifier. run.
    destruct (w_PQescapeIdentifier (world s1) name) as [e|] eqn:E;
      [|now apply Hident in E].
    unfold PQexec. cbn. rewrite Hexec. rewrite Hcheck. eexists; reflexivity.
  - unfold pgsql_create_database, bind at 1. rewrite Hopen.
    unfold PQescapeIdentifier. run.
    destruct (w_PQescapeIdentifier (world s1) dbname) as [e|] eqn:E;
      [|now apply Hident in E].
    destruct (w_PQescapeIdentifier (world s1) owner) as [e'|] eqn:E';
      [|now apply Hident in E'].
    unfold PQexec. cbn. rewrite Hexec. rewrite Hcheck. eexists; reflexivity.
  - unfold pgsql_create_user, bind at 1. rewrite Hopen.
    unfold PQescapeIdentifier, PQescapeLiteral. run.
    destruct (w_PQescapeIdentifier (world s1) userName) as [e|] eqn:E;
      [|now apply Hident in E].
    destruct password as [pw|]; cbn.
    + destruct (w_PQescapeLiteral (world s1) pw) as [l|] eqn:El;
        [|now apply Hliteral in El].
      cbn. rewrite Hbroken. unfold PQsetNoticeProcessor, PQexec. cbn.
      rewrite Hexec. rewrite Hcheck. eexists; reflexivity.
    + rewrite Hbroken. unfold PQsetNoticeProcessor, PQexec. cbn.
      rewrite Hexec. rewrite Hcheck. eexists; reflexivity.
Qed.

(** ** The retry loop *)

Ltac leave_loop :=
  eexists _, _; split;
  [reflexivity | repeat split; cbn; try lia; reflexivity].

(** The loop is over no later than the first iteration in which a condition
    to leave it holds. *)
Lemma retry_loop_exits (i : nat) :
  forall (fuel : nat) (startTime : Z) (l : RetryLocals) (s : State),
    (i < fuel)%nat ->
    exit_condition (world s) (connectionString (pgsql s)) startTime
      (n_time s + i) (n_ping s + i) (n_signal s + i) = true ->
    exists l' s',
      retry_loop fuel startTime l s = Ret l' s'
      /\ (n_time s' <= n_time s + 1 + i)%nat
      /\ (n_ping s' <= n_ping s + 1 + i)%nat
      /\ pgsql s' = pgsql s.
Proof.
  induction i as [|i IH]; intros fuel startTime l s Hfuel Hexit;
    (destruct fuel as [|fuel]; [lia|]);
    cbn [retry_loop]; unfold bind, get_pgsql, get_world, time; cbn;
    unfold exit_condition, timeout_reached, ping_answered, stop_requested
      in Hexit.
  - rewrite !Nat.add_0_r in Hexit.
    destruct (u64 (POSTGRES_PING_RETRY_TIMEOUT (world s))
              <=? u64 (u64 (w_time (world s) (n_time s)) - startTime)) eqn:Ht.
    + run. leave_loop.
    + unfold PQping; cbn.
      destruct (w_PQping (world s) (n_ping s) (connectionString (pgsql s)))
        eqn:Hp; run; unfold PQconnectdb, read_stop_flags; cbn.
      * destruct (PQstatus _); cbn;
          destruct (w_asked_to_stop (world s) (n_signal s)
                  || w_asked_to_stop_fast (world s) (n_signal s)); cbn;
          leave_loop.
      * destruct (w_asked_to_stop (world s) (n_signal s)
                  || w_asked_to_stop_fast (world s) (n_signal s)); cbn;
          leave_loop.
      * cbn in Hexit.
        destruct (w_asked_to_stop (world s) (n_signal s)
                  || w_asked_to_stop_fast (world s) (n_signal s)) eqn:Hs; cbn.
        -- leave_loop.
        -- discriminate Hexit.
      * destruct (w_asked_to_stop (world s) (n_signal s)
                  || w_asked_to_stop_fast (world s) (n_signal s)); cbn;
          leave_loop.
  - destruct (u64 (POSTGRES_PING_RETRY_TIMEOUT (world s))
              <=? u64 (u64 (w_time (world s) (n_time s)) - startTime)) eqn:Ht.
    + run. leave_loop.
    + unfold PQping; cbn.
      destruct (w_PQping (world s) (n_ping s) (connectionString (pgsql s)))
        eqn:Hp; run; unfold PQconnectdb, read_stop_flags; cbn.
      * destruct (PQstatus _); cbn;
          destruct (w_asked_to_stop (world s) (n_signal s)
                  || w_asked_to_stop_fast (world s) (n_signal s)); cbn;
          leave_loop.
      * destruct (w_asked_to_stop (world s) (n_signal s)
                  || w_asked_to_stop_fast (world s) (n_signal s)); cbn;
          leave_loop.
      * destruct (w_asked_to_stop (world s) (n_signal s)
                  || w_asked_to_stop_fast (world s) (n_signal s)) eqn:Hs; cbn.
        -- leave_loop.
        -- unfold sleep; cbn.
           match goal with
           | |- exists l' s', retry_loop fuel startTime ?l0 ?s0 = _ /\ _ =>
               destruct (IH fuel startTime l0 s0)
                 as (l' & s' & E & Ht' & Hp' & Hq)
           end.
           ++ lia.
           ++ cbn. unfold exit_condition, timeout_reached, ping_answered,
                stop_requested.
              rewrite <- !Nat.add_succ_comm in Hexit. exact Hexit.
           ++ cbn in Ht', Hp', Hq. eexists _, _. split; [exact E|].
              repeat split; [lia | lia | exact Hq].
      * destruct (w_asked_to_stop (world s) (n_signal s)
                  || w_asked_to_stop_fast (world s) (n_signal s)); cbn;
          leave_loop.
Qed.

(** C5. pgsql_retry_open_connection returns: its loop is over no later than
    the first iteration in which the time elapsed since [startTime] has
    reached POSTGRES_PING_RETRY_TIMEOUT, or the ping answered OK, REJECT or
    NO_ATTEMPT, or asked_to_stop or asked_to_stop_fast was set. Iterations
    count from 0; by then the server was pinged at most [i + 1] times. *)
Theorem pgsql_retry_open_connection_terminates (s : State) (i fuel : nat) :
  exit_condition (world s) (connectionString (pgsql s))
    (u64 (w_time (world s) (n_time s)))
    (n_time s + 1 + i) (n_ping s + i) (n_signal s + i) = true ->
  (i < fuel)%nat ->
  exists c s',
    pgsql_retry_open_connection fuel s = Ret c s'
    /\ (n_ping s' <= n_ping s + 1 + i)%nat
    /\ (n_time s' <= n_time s + 2 + i)%nat.
Proof.
  intros Hexit Hfuel. unfold pgsql_retry_open_connection.
  unfold bind at 1, get_pgsql. unfold bind at 1, time.
  unfold bind at 1, log_warn, log_msg. unfold bind at 1.
  match goal with
  | |- context [retry_loop fuel ?t ?l0 ?s0] =>
      destruct (retry_loop_exits i fuel t l0 s0 Hfuel)
        as (l' & s' & E & Ht & Hp & _)
  end.
  - cbn. replace (S (n_time s + i)) with (n_time s + 1 + i)%nat by lia.
    exact Hexit.
  - rewrite E. cbn in Ht, Hp.
    destruct (rl_connectionOk l'); cbn.
    + eexists _, _. split; [reflexivity|]. lia.
    + unfold bind at 1, log_error, log_msg. unfold bind.
      match goal with
      | |- context [pgsql_finish ?s0] =>
          destruct (pgsql_finish_returns s0) as (s'' & E' & _ & Ht' & Hp' & _)
      end.
      rewrite E'. cbn in Ht', Hp'. eexists _, _. split; [reflexivity|].
      unfold ret. cbn. lia.
Qed.

(** A clock that moves on by a second or more from one reading to the next
    brings the timeout about: the loop cannot go on for ever. *)
Lemma running_clock_reaches_timeout (s : State) :
  let w := world s in
  let T := POSTGRES_PING_RETRY_TIMEOUT w in
  0 <= T < 2 ^ 64 ->
  (forall k, 0 <= w_time w k < 2 ^ 64) ->
  (forall k, w_time w k + 1 <= w_time w (S k)) ->
  exists c s',
    pgsql_retry_open_connection (S (Z.to_nat T)) s = Ret c s'
    /\ (n_ping s' <= n_ping s + 1 + Z.to_nat T)%nat.
Proof.
  intros w T HT Hrange Hstep.
  assert (Hmono : forall k d, w_time w k + Z.of_nat d <= w_time w (k + d)).
  { intros k d. induction d as [|d IH].
    - rewrite Nat.add_0_r. lia.
    - rewrite Nat.add_succ_r. specialize (Hstep (k + d)%nat). lia. }
  destruct (pgsql_retry_open_connection_terminates s (Z.to_nat T)
              (S (Z.to_nat T))) as (c & s' & E & Hp & _); [|lia|eauto].
  unfold exit_condition, timeout_reached. fold w. fold T.
  apply orb_true_iff; left. apply orb_true_iff; left.
  apply Z.leb_le. unfold u64.
  pose proof (Hmono (n_time s) (1 + Z.to_nat T)%nat) as Hm.
  rewrite Nat.add_assoc in Hm.
  pose proof (Hrange (n_time s)) as H0.
  pose proof (Hrange (n_time s + 1 + Z.to_nat T)%nat) as H1.
  rewrite (Z.mod_small T), (Z.mod_small (w_time w (n_time s))),
    (Z.mod_small (w_time w (n_time s + 1 + Z.to_nat T))) by lia.
  rewrite Z.mod_small; lia.
Qed.

(** ** Callers that drop the result of pgsql_execute_with_params *)

Ltac blind_primitive :=
  intros [] [] H; unfold same_but_logs in H; cbn in H;
  decompose [and] H; subst; cbn; unfold same_but_logs; cbn;
  repeat split; reflexivity.

Lemma log_blind_ret {A} (a : A) : log_blind (ret a).
Proof. intros s t H. exact (conj eq_refl H). Qed.

Lemma log_blind_bind {A B} (m : M A) (k : A -> M B) :
  log_blind m -> (forall a, log_blind (k a)) -> log_blind (bind m k).
Proof.
  intros Hm Hk s t H. unfold bind. specialize (Hm s t H).
  destruct (m s), (m t); cbn in Hm; try contradiction; try exact Hm.
  destruct Hm as [-> Hm]. now apply Hk.
Qed.

Lemma log_blind_log (level : LogLevel) (message : string) :
  log_blind (log_msg level message).
Proof. unfold log_msg. blind_primitive. Qed.

Lemma log_blind_get_pgsql : log_blind get_pgsql.
Proof. unfold get_pgsql. blind_primitive. Qed.

Lemma log_blind_put_pgsql (p : PGSQL) : log_blind (put_pgsql p).
Proof. unfold put_pgsql. blind_primitive. Qed.

Lemma log_blind_get_world : log_blind get_world.
Proof. unfold get_world. blind_primitive. Qed.

Lemma log_blind_time : log_blind time.
Proof. unfold time. blind_primitive. Qed.

Lemma log_blind_PQping (conninfo : string) : log_blind (PQping conninfo).
Proof. unfold PQping. blind_primitive. Qed.

Lemma log_blind_PQconnectdb (conninfo : string) :
  log_blind (PQconnectdb conninfo).
Proof. unfold PQconnectdb. blind_primitive. Qed.

Lemma log_blind_read_stop_flags : log_blind read_stop_flags.
Proof. unfold read_stop_flags. blind_primitive. Qed.

Lemma log_blind_sleep (seconds : Z) : log_blind (sleep seconds).
Proof. unfold sleep. blind_primitive. Qed.

Lemma log_blind_PQsetNoticeProcessor (p : NoticeProcessor) :
  log_blind (PQsetNoticeProcessor p).
Proof. unfold PQsetNoticeProcessor. blind_primitive. Qed.

Create HintDb blind.
#[local] Hint Resolve log_blind_ret log_blind_log log_blind_get_pgsql
  log_blind_put_pgsql log_blind_get_world log_blind_time log_blind_PQping
  log_blind_PQconnectdb log_blind_read_stop_flags log_blind_sleep
  log_blind_PQsetNoticeProcessor : blind.

Ltac blind :=
  repeat first
    [ apply log_blind_bind; [|intros ?]
    | progress (unfold log_error, log_warn, log_info, log_debug, log_trace)
    | solve [auto with blind]
    | match goal with
      | |- log_blind (match ?x with _ => _ end) => destruct x
      | |- log_blind (if ?x then _ else _) => destruct x
      end ].

Lemma log_blind_pgsql_finish : log_blind pgsql_finish.
Proof. unfold pgsql_finish. blind. Qed.

#[local] Hint Resolve log_blind_pgsql_finish : blind.

Lemma log_blind_retry_loop (fuel : nat) :
  forall startTime l, log_blind (retry_loop fuel startTime l).
Proof.
  induction fuel as [|fuel IH]; intros startTime l; cbn [retry_loop].
  - intros s t _. exact I.
  - blind; apply IH.
Qed.

#[local] Hint Resolve log_blind_retry_loop : blind.

Lemma log_blind_pgsql_retry_open_connection (fuel : nat) :
  log_blind (pgsql_retry_open_connection fuel).
Proof. unfold pgsql_retry_open_connection. blind. Qed.

#[local] Hint Resolve log_blind_pgsql_retry_open_connection : blind.

Lemma log_blind_pgsql_open_connection (fuel : nat) :
  log_blind (pgsql_open_connection fuel).
Proof. unfold pgsql_open_connection. blind. Qed.

(** A connection that could not be opened: false, the context untouched. *)
Lemma pgsql_execute_with_params_no_connection {C} (fuel : nat) (sql : string)
    (paramValues : list string) (context : C)
    (parseFun : option (C -> PGresult -> M C)) (s s1 : State) :
  pgsql_open_connection fuel s = Ret None s1 ->
  pgsql_execute_with_params fuel sql paramValues context parseFun s
  = Ret (false, context) s1.
Proof.
  intros Hopen. unfold pgsql_execute_with_params, bind at 1.
  now rewrite Hopen.
Qed.

(** A command that ran but whose result does not have exactly one row:
    true, the context untouched by parseSingleValueResult. *)
Lemma pgsql_execute_with_params_no_single_row (fuel : nat) (sql : string)
    (paramValues : list string) (context : SingleValueResultContext)
    (s s1 : State) (c : PGconn) (r : PGresult) (pending : list PGresult) :
  pgsql_open_connection fuel s = Ret (Some c) s1 ->
  w_PQexec (world s1) (n_exec s1) sql = (Some r, pending) ->
  is_response_ok (Some r) = true ->
  PQntuples r <> 1 ->
  exists s2,
    pgsql_execute_with_params fuel sql paramValues context
      (Some parseSingleValueResult) s
    = Ret (true, context) s2.
Proof.
  intros Hopen Hexec Hok Hrows.
  unfold pgsql_execute_with_params, bind at 1. rewrite Hopen.
  apply Z.eqb_neq in Hrows.
  assert (Hrun : forall s0, world s0 = world s1 -> n_exec s0 = n_exec s1 ->
            exists s2,
              ('(result, pending) <- PQexec sql ;;
               if negb (is_response_ok result) then
                 log_error ("Failed to execute " +++ quoted (Some sql) +++ ": "
                            +++ PQerrorMessage (Some c)) ;;
                 clear_results (Some c) pending ;;
                 pgsql_finish ;;
                 ret (false, context)
               else
                 context <-
                   match Some parseSingleValueResult, result with
                   | Some parse, Some result => parse context result
                   | _, _ => ret context
                   end ;;
                 clear_results (Some c) pending ;;
                 ret (true, context)) s0
              = Ret (true, context) s2).
  { intros s0 Hw Hn. unfold bind at 1, PQexec. rewrite Hw, Hn, Hexec, Hok.
    cbn [negb]. unfold parseSingleValueResult. rewrite Hrows.
    unfold bind at 1, ret at 1. unfold bind.
    match goal with
    | |- context [clear_results ?c0 pending ?s3] =>
        destruct (clear_results_returns c0 pending s3) as (b & s2 & ->)
    end.
    eexists; reflexivity. }
  destruct paramValues as [|v paramValues].
  - exact (Hrun (logged LOG_DEBUG (sql +++ ";") s1) eq_refl eq_refl).
  - exact (Hrun (logged LOG_DEBUG (debug_parameters (v :: paramValues))
                   (logged LOG_DEBUG (sql +++ ";") s1)) eq_refl eq_refl).
Qed.

Lemma pgsql_open_connection_after_log (fuel : nat) (level : LogLevel)
    (message : string) (s s1 : State) (c : option PGconn) :
  pgsql_open_connection fuel s = Ret c s1 ->
  exists s1',
    pgsql_open_connection fuel (logged level message s) = Ret c s1'
    /\ world s1' = world s1 /\ n_exec s1' = n_exec s1.
Proof.
  intros Hopen.
  assert (H : same_but_logs s (logged level message s))
    by (unfold same_but_logs; cbn; repeat split).
  apply (log_blind_pgsql_open_connection fuel) in H. rewrite Hopen in H.
  destruct (pgsql_open_connection fuel (logged level message s))
    as [c' s1'| |]; cbn in H; try contradiction.
  destruct H as [<- H]. exists s1'. unfold same_but_logs in H.
  repeat split; symmetry; apply H.
Qed.

(** C8. pgsql_has_replica and pgsql_get_received_lsn_from_standby drop the
    boolean of pgsql_execute_with_params and return what context.parsedOk
    holds. A connection that could not be opened ([sA]) and a command that
    ran but gave no single row to parse ([sB]) therefore end in the same
    return value: false, with nothing stored for the caller. *)
Theorem callers_drop_result_of_execute_with_params
    (fuel : nat) (userName : string) (maxLSNSize : Z)
    (sA sA1 sB sB1 : State) (c : PGconn) (r : PGresult)
    (pending : list PGresult) :
  pgsql_open_connection fuel sA = Ret None sA1 ->
  pgsql_open_connection fuel sB = Ret (Some c) sB1 ->
  (forall sql, w_PQexec (world sB1) (n_exec sB1) sql = (Some r, pending)) ->
  is_response_ok (Some r) = true ->
  PQntuples r <> 1 ->
  (exists sA' sB',
     pgsql_has_replica fuel userName sA = Ret (false, None) sA'
     /\ pgsql_has_replica fuel userName sB = Ret (false, None) sB')
  /\ (exists sA' sB',
        pgsql_get_received_lsn_from_standby fuel maxLSNSize sA
        = Ret (false, None) sA'
        /\ pgsql_get_received_lsn_from_standby fuel maxLSNSize sB
           = Ret (false, None) sB')
  /\ (forall s b context s1,
        pgsql_execute_with_params fuel has_replica_sql [userName]
          (new_context PGSQL_RESULT_BOOL) (Some parseSingleValueResult) s
        = Ret (b, context) s1 ->
        forall result hasReplica s',
          pgsql_has_replica fuel userName s = Ret (result, hasReplica) s' ->
          result = parsedOk context)
  /\ (forall s b context s1,
        pgsql_execute_with_params fuel received_lsn_sql []
          (new_context PGSQL_RESULT_STRING) (Some parseSingleValueResult)
          (logged LOG_TRACE
             ("pgsql_get_received_lsn_from_standby : running "
              +++ received_lsn_sql) s)
        = Ret (b, context) s1 ->
        forall result receivedLSN s',
          pgsql_get_received_lsn_from_standby fuel maxLSNSize s
          = Ret (result, receivedLSN) s' ->
          result = parsedOk context).
Proof.
  intros HopenA HopenB Hexec Hok Hrows.
  split; [|split; [|split]].
  - destruct (pgsql_execute_with_params_no_single_row fuel has_replica_sql
                [userName] (new_context PGSQL_RESULT_BOOL) sB sB1 c r pending
                HopenB (Hexec _) Hok Hrows) as (sB2 & EB).
    eexists _, _. split.
    + unfold pgsql_has_replica, bind at 1.
      rewrite (pgsql_execute_with_params_no_connection fuel has_replica_sql
                 [userName] (new_context PGSQL_RESULT_BOOL) _ sA sA1 HopenA).
      reflexivity.
    + unfold pgsql_has_replica, bind at 1. rewrite EB. reflexivity.
  - set (msg := "pgsql_get_received_lsn_from_standby : running "
                +++ received_lsn_sql).
    destruct (pgsql_open_connection_after_log fuel LOG_TRACE msg sA sA1 None
                HopenA) as (tA1 & HA & _).
    destruct (pgsql_open_connection_after_log fuel LOG_TRACE msg sB sB1
                (Some c) HopenB) as (tB1 & HB & Hw & Hn).
    assert (Hexec' : w_PQexec (world tB1) (n_exec tB1) received_lsn_sql
                     = (Some r, pending)) by (rewrite Hw, Hn; apply Hexec).
    destruct (pgsql_execute_with_params_no_single_row fuel received_lsn_sql
                [] (new_context PGSQL_RESULT_STRING) _ tB1 c r pending
                HB Hexec' Hok Hrows) as (tB2 & EB).
    eexists _, _. split.
    + unfold pgsql_get_received_lsn_from_standby, bind at 1, log_trace,
        log_msg. unfold bind at 1. fold msg.
      rewrite (pgsql_execute_with_params_no_connection fuel received_lsn_sql
                 [] (new_context PGSQL_RESULT_STRING) _ _ tA1 HA).
      reflexivity.
    + unfold pgsql_get_received_lsn_from_standby, bind at 1, log_trace,
        log_msg. unfold bind at 1. fold msg. rewrite EB. reflexivity.
  - intros s b context s1 E result hasReplica s'.
    unfold pgsql_has_replica, bind at 1. rewrite E.
    destruct (parsedOk context); cbn; intros H; now inversion H.
  - intros s b context s1 E result receivedLSN s'.
    unfold pgsql_get_received_lsn_from_standby, bind at 1, log_trace,
      log_msg. unfold bind at 1. rewrite E.
    destruct (parsedOk context); cbn.
    + unfold strlcpy. destruct (strVal context); cbn; intros H;
        now inversion H.
    + intros H; now inversion H.
Qed.

(** ** The monitor *)

Import Monitor.

(** The model answers every statement of the replayed script as
    monitor.out expects. *)
Example monitor_out_replayed :
  snd (run_script 0 initial_catalog (map fst monitor_out))
  = map snd monitor_out.
Proof. vm_compute. reflexivity. Qed.

(** register_node hands out the next node id, derives the name from it and
    places the node by what its group holds. *)
Lemma register_node_assignment (c : Catalog) (now : Z)
    (formation host : string) (port : Z) (dbname : string) (f : Formation) :
  find_formation c formation = Some f ->
  exists c' a,
    register_node c now formation host port dbname None None None
    = inr (c', (a, "node_" +++ string_of_Z (next_node_id c)))
    /\ assigned_node_id a = next_node_id c
    /\ assigned_group_id a = 0
    /\ assigned_group_state a
       = match group_nodes c formation 0 with
         | [] => single
         | _ :: _ => wait_standby
         end
    /\ next_node_id c' = next_node_id c + 1.
Proof.
  intros Hf. unfold register_node. rewrite Hf.
  eexists _, _. repeat split.
Qed.


Lemma find_none_forall {A} (f : A -> bool) (l : list A) :
  (forall x, In x l -> f x = false) -> find f l = None.
Proof.
  induction l as [|x l IH]; intros H; cbn; [reflexivity|].
  rewrite (H x (or_introl eq_refl)). apply IH. intros y Hy. apply H. now right.
Qed.

Lemma find_some_exists {A} (f : A -> bool) (l : list A) (x : A) :
  In x l -> f x = true -> exists y, find f l = Some y.
Proof.
  induction l as [|z l IH]; intros Hin Hx; [contradiction|]. cbn.
  destruct (f z) eqn:Hz; [now exists z|].
  destruct Hin as [->|Hin]; [congruence|]. now apply IH.
Qed.

(** C2. get_primary fails with the error named "group has no writable node
    right now" whenever the formation and group it is asked about hold no
    node in a writable state, which includes formations and groups that do
    not exist; otherwise it answers with the id, name, host and port of a
    writable node of that group, of the writable node when there is one
    only. *)
Theorem get_primary_answers (c : Catalog) (formation : option string)
    (group : option Z) :
  let f := match formation with Some f => f | None => "default" end in
  let g := match group with Some g => g | None => 0 end in
  ((forall n, In n (nodes c) -> in_group f g n = true ->
              is_writable (goal_state n) = false) ->
   get_primary c formation group = inl no_writable_node
   /\ error_message no_writable_node
      = Some "group has no writable node right now")
  /\ (forall n, In n (nodes c) -> in_group f g n = true ->
                is_writable (goal_state n) = true ->
      exists p,
        In p (nodes c) /\ in_group f g p = true
        /\ is_writable (goal_state p) = true
        /\ get_primary c formation group
           = inr (node_id p, node_name p, host p, port p)
        /\ ((forall q, In q (nodes c) -> in_group f g q = true ->
                       is_writable (goal_state q) = true -> q = n) ->
            p = n)).
Proof.
  intros f g. split.
  - intros Hnone. split; [|reflexivity].
    unfold get_primary. fold f g.
    rewrite find_none_forall; [reflexivity|].
    intros n Hn. unfold group_nodes in Hn. apply filter_In in Hn as [Hin Hg].
    now apply Hnone.
  - intros n Hin Hg Hw.
    destruct (find_some_exists (fun n => is_writable (goal_state n))
                (group_nodes c f g) n) as [p Hp]; [|exact Hw|].
    { unfold group_nodes. apply filter_In. now split. }
    pose proof (find_some _ _ Hp) as [Hpin Hpw].
    unfold group_nodes in Hpin. apply filter_In in Hpin as [Hpin Hpg].
    exists p. repeat split; try assumption.
    + unfold get_primary. fold f g. now rewrite Hp.
    + intros Huniq. now apply Huniq.
Qed.

(** Rule 2 at work: as long as node 2 has not reported wait_standby, node 1
    reporting single stays single. *)
Remark primary_waits_for_the_standby_report :
  snd (run_script 0 initial_catalog
         [ q_register_node "default" "localhost" 9876 "postgres";
           q_register_node "default" "localhost" 9877 "postgres";
           q_node_active "default" 1 0 single ])
  = [ a_registered (mkAssignment 1 0 single 100 true) "node_1";
      a_registered (mkAssignment 2 0 wait_standby 100 true) "node_2";
      a_assigned (mkAssignment 1 0 single 100 true) ].
Proof. vm_compute. reflexivity. Qed.


(** ** Removing the primary *)

Lemma set_goal_keeps (now : Z) (goal : ReplicationState) (n : Node) :
  node_id (set_goal now goal n) = node_id n
  /\ (forall f g, in_group f g (set_goal now goal n) = in_group f g n)
  /\ goal_state (set_goal now goal n) = goal.
Proof. repeat split. Qed.




(** Scenario B as monitor.out has it: after scenario A and the third
    register_node, removing node 1 answers true and leaves node 2 and node 3
    with the goal state report_lsn; get_primary then fails. *)
Example scenario_B_replayed :
  let c := fst (remove_node catalog_three_nodes 0 1 false) in
  snd (remove_node catalog_three_nodes 0 1 false) = true
  /\ map (fun p => (node_id p, goal_state p)) (nodes c)
     = [(1, dropped); (2, report_lsn); (3, report_lsn)]
  /\ get_primary c None None = inl no_writable_node.
Proof. vm_compute. repeat split. Qed.

(** ** The statements above at concrete inputs *)

Import Examples.

Lemma conninfo_escaping_round_trips_witness :
  escape_conninfo_value "O'Brien"
  = (Conninfo.quote_spec "O'Brien", 10)
  /\ Conninfo.PQconninfoParse
       (build_conninfo "db.example.com" "5432" "C:\data" "O'Brien")
     = Some [("host", "db.example.com"); ("port", "5432");
             ("dbname", "C:\data"); ("user", "O'Brien")].
Proof.
  destruct (conninfo_escaping_round_trips
              "db.example.com" "5432" "C:\data" "O'Brien"
              eq_refl eq_refl eq_refl eq_refl) as [Hesc Hparse].
  split; [|exact Hparse].
  apply Forall_inv_tail, Forall_inv_tail, Forall_inv_tail, Forall_inv in Hesc.
  exact Hesc.
Defined.

Lemma pgsql_retry_open_connection_terminates_witness :
  exists c s',
    pgsql_retry_open_connection 3 monitor_down = Ret c s'
    /\ (n_ping s' <= 3)%nat /\ (n_time s' <= 4)%nat.
Proof.
  exact (pgsql_retry_open_connection_terminates monitor_down 2 3
           eq_refl (le_n 3)).
Defined.

Lemma parseSingleValueResult_bigint_falls_through_witness :
  exists context' s',
    parseSingleValueResult (new_context PGSQL_RESULT_BIGINT) (one_row "42")
      local_down
    = Ret context' s'
    /\ bigint context' = 42
    /\ strVal context' = Some "42"
    /\ parsedOk context' = true
    /\ case_PGSQL_RESULT_STRING
         (set_parsedOk (set_bigint (new_context PGSQL_RESULT_BIGINT) 42) true)
         (Some "42") s'
       = Ret context' s'.
Proof.
  exact (parseSingleValueResult_bigint_falls_through
           (new_context PGSQL_RESULT_BIGINT) (one_row "42") "42" local_down
           eq_refl eq_refl eq_refl).
Defined.

Lemma parseSingleValueResult_numeric_failure_not_reported_witness :
  let s := state_of (world_with None None) EINVAL (pgsql local_down) in
  exists context' s',
    parseSingleValueResult (new_context PGSQL_RESULT_INT) (one_row "abc") s
    = Ret context' s'
    /\ parsedOk context' = true
    /\ errno s' = EINVAL
    /\ logs s'
       = [(LOG_ERROR, "Failed to parse int result " +++ quoted (Some "abc"))].
Proof.
  exact (parseSingleValueResult_numeric_failure_not_reported
           (new_context PGSQL_RESULT_INT) (one_row "abc") "abc"
           (state_of (world_with None None) EINVAL (pgsql local_down))
           eq_refl eq_refl (or_introl eq_refl)).
Defined.

Lemma create_commands_compare_null_sqlstate_witness :
  let s := connected (Some connection_lost) in
  (exists s', pgsql_create_extension 0 "pgautofailover" s = NullDeref s')
  /\ (exists s', pgsql_create_database 0 "pg_auto_failover" "autoctl" s
                 = NullDeref s')
  /\ (exists s',
        pgsql_create_user 0 "autoctl_node" (Some "secret") true false false s
        = NullDeref s').
Proof.
  apply (create_commands_compare_null_sqlstate 0
           (connected (Some connection_lost))
           (connected (Some connection_lost)) established
           (Some connection_lost) []).
  - reflexivity.
  - intros str H. discriminate H.
  - intros str H. discriminate H.
  - intros query. reflexivity.
  - intros command. reflexivity.
  - reflexivity.
  - reflexivity.
Defined.

Lemma callers_drop_result_of_execute_with_params_witness :
  (exists sA' sB',
     pgsql_has_replica 0 "pgautofailover_replicator" local_down
     = Ret (false, None) sA'
     /\ pgsql_has_replica 0 "pgautofailover_replicator"
          (connected (Some no_rows))
        = Ret (false, None) sB')
  /\ (exists sA' sB',
        pgsql_get_received_lsn_from_standby 0 18 local_down
        = Ret (false, None) sA'
        /\ pgsql_get_received_lsn_from_standby 0 18 (connected (Some no_rows))
           = Ret (false, None) sB').
Proof.
  destruct (callers_drop_result_of_execute_with_params 0
              "pgautofailover_replicator" 18
              local_down local_down_after_attempt
              (connected (Some no_rows)) (connected (Some no_rows))
              established no_rows []) as (H1 & H2 & _).
  - reflexivity.
  - reflexivity.
  - intros sql. reflexivity.
  - reflexivity.
  - discriminate.
  - split; assumption.
Defined.

Lemma get_primary_answers_witness :
  get_primary catalog_three_nodes (Some "unknown formation") None
  = inl no_writable_node
  /\ get_primary catalog_three_nodes None (Some (-10)) = inl no_writable_node
  /\ get_primary catalog_three_nodes None None
     = inr (1, "node_1", "localhost", 9876).
Proof.
  assert (Hnodes : exists n1 n2 n3,
            nodes catalog_three_nodes = [n1; n2; n3]
            /\ node_formation_id n1 = "default" /\ group_id n1 = 0
            /\ node_formation_id n2 = "default" /\ group_id n2 = 0
            /\ node_formation_id n3 = "default" /\ group_id n3 = 0
            /\ goal_state n1 = wait_primary /\ goal_state n2 = catchingup
            /\ goal_state n3 = wait_standby
            /\ (node_id n1, node_name n1, host n1, port n1)
               = (1, "node_1", "localhost", 9876)).
  { eexists _, _, _. split; [vm_compute; reflexivity|]. repeat split. }
  destruct Hnodes as (n1 & n2 & n3 & Hn & Hf1 & Hg1 & Hf2 & Hg2 & Hf3 & Hg3
                      & Hs1 & Hs2 & Hs3 & Hrow).
  split; [|split].
  - apply (proj1 (get_primary_answers catalog_three_nodes
                    (Some "unknown formation") None)).
    intros n Hin Hg. rewrite Hn in Hin. unfold in_group in Hg.
    destruct Hin as [<-|[<-|[<-|[]]]];
      rewrite ?Hf1, ?Hf2, ?Hf3 in Hg; discriminate Hg.
  - apply (proj1 (get_primary_answers catalog_three_nodes None (Some (-10)))).
    intros n Hin Hg. rewrite Hn in Hin. unfold in_group in Hg.
    destruct Hin as [<-|[<-|[<-|[]]]];
      rewrite ?Hf1, ?Hf2, ?Hf3, ?Hg1, ?Hg2, ?Hg3 in Hg; discriminate Hg.
  - destruct (proj2 (get_primary_answers catalog_three_nodes None None) n1)
      as (p & _ & _ & _ & E & Huniq).
    + rewrite Hn. now left.
    + unfold in_group. now rewrite Hf1, Hg1.
    + now rewrite Hs1.
    + rewrite E, Huniq, Hrow; [reflexivity|].
      intros q Hin _ Hw. rewrite Hn in Hin.
      destruct Hin as [<-|[<-|[<-|[]]]]; [reflexivity| |].
      * rewrite Hs2 in Hw. discriminate Hw.
      * rewrite Hs3 in Hw. discriminate Hw.
Defined.


(** ** Opening a connection *)

Import PgsqlCommands.

Lemma same_but_logs_refl (s : State) : same_but_logs s s.
Proof. unfold same_but_logs. repeat split. Qed.

Lemma same_but_logs_trans (s t u : State) :
  same_but_logs s t -> same_but_logs t u -> same_but_logs s u.
Proof.
  unfold same_but_logs. intros H1 H2.
  decompose [and] H1. decompose [and] H2. repeat split; congruence.
Qed.

Lemma same_but_logs_logged (level : LogLevel) (message : string) (s t : State) :
  same_but_logs s t -> same_but_logs s (logged level message t).
Proof. unfold same_but_logs, logged. cbn. tauto. Qed.

Ltac loop_frame :=
  split; [reflexivity|]; split; [reflexivity|]; split; [reflexivity|];
  split; [reflexivity|]; split; [cbn; lia|].

(** What a run of the retry loop leaves as it was, and what it takes for
    the loop to end with [connectionOk]: a ping of this run that answered
    OK, and a connection whose status is CONNECTION_OK. *)
Lemma retry_loop_post (fuel : nat) :
  forall (startTime : Z) (l l' : RetryLocals) (s s' : State),
    retry_loop fuel startTime l s = Ret l' s' ->
    world s' = world s /\ n_exec s' = n_exec s /\ errno s' = errno s
    /\ pgsql s' = pgsql s
    /\ (n_ping s <= n_ping s')%nat
    /\ (rl_connectionOk l = false -> rl_connectionOk l' = true ->
        PQstatus (rl_connection l') = CONNECTION_OK
        /\ exists k,
             (n_ping s <= k < n_ping s')%nat
             /\ w_PQping (world s) k (connectionString (pgsql s))
                = PQPING_OK).
Proof.
  induction fuel as [|fuel IH]; intros startTime l l' s s' H;
    cbn [retry_loop] in H; [discriminate H|].
  unfold bind, get_pgsql, get_world, time in H; cbn in H.
  destruct (u64 (POSTGRES_PING_RETRY_TIMEOUT (world s))
            <=? u64 (u64 (w_time (world s) (n_time s)) - startTime)).
  - unfold log_warn, log_msg, ret in H. injection H as <- <-.
    loop_frame. intros E1 E2. congruence.
  - unfold PQping in H; cbn in H.
    destruct (w_PQping (world s) (n_ping s) (connectionString (pgsql s)))
      eqn:Hp; unfold log_debug, log_error, log_msg, ret, PQconnectdb,
                read_stop_flags in H; cbn in H.
    + destruct (PQstatus (w_PQconnectdb (world s) (n_connect s)
                            (connectionString (pgsql s)))) eqn:Hst;
        cbn in H;
        destruct (w_asked_to_stop (world s) (n_signal s)
                  || w_asked_to_stop_fast (world s) (n_signal s));
        cbn in H; injection H as <- <-; loop_frame; cbn; intros E1 E2;
        try congruence;
        (split; [exact Hst|]); exists (n_ping s); (split; [lia | exact Hp]).
    + destruct (w_asked_to_stop (world s) (n_signal s)
                || w_asked_to_stop_fast (world s) (n_signal s));
        cbn in H; injection H as <- <-; loop_frame; cbn; intros E1 E2;
        congruence.
    + destruct (w_asked_to_stop (world s) (n_signal s)
                || w_asked_to_stop_fast (world s) (n_signal s));
        cbn in H.
      * injection H as <- <-; loop_frame; cbn; intros E1 E2; congruence.
      * unfold sleep in H; cbn in H.
        apply IH in H. cbn in H.
        destruct H as (Hw & He & Hn & Hq & Hping & Hok).
        split; [exact Hw|]. split; [exact He|]. split; [exact Hn|].
        split; [exact Hq|]. split; [lia|].
        intros E1 E2. destruct (Hok E1 E2) as [Hst (k & Hk & Hpk)].
        split; [exact Hst|]. exists k. split; [lia | exact Hpk].
    + destruct (w_asked_to_stop (world s) (n_signal s)
                || w_asked_to_stop_fast (world s) (n_signal s));
        cbn in H; injection H as <- <-; loop_frame; cbn; intros E1 E2;
        congruence.
Qed.

Lemma pgsql_finish_post (s : State) :
  exists s',
    pgsql_finish s = Ret tt s' /\ same_but_logs (disconnected s) s'.
Proof.
  unfold pgsql_finish, bind, get_pgsql, put_pgsql, ret, log_debug, log_msg.
  destruct (connection (pgsql s)) eqn:E; cbn; eexists; split;
    try reflexivity; unfold same_but_logs, disconnected; cbn;
    repeat split.
  destruct (pgsql s); cbn in *. now subst.
Qed.

Lemma pgsql_retry_open_connection_post (fuel : nat)
    (s s' : State) (r : option PGconn) :
  pgsql_retry_open_connection fuel s = Ret r s' ->
  world s' = world s /\ n_exec s' = n_exec s
  /\ match r with
     | Some c =>
         conn_status c = CONNECTION_OK
         /\ pgsql s' = pgsql s
         /\ exists k,
              (n_ping s <= k < n_ping s')%nat
              /\ w_PQping (world s) k (connectionString (pgsql s))
                 = PQPING_OK
     | None => pgsql s' = pgsql (disconnected s)
     end.
Proof.
  unfold pgsql_retry_open_connection.
  unfold bind at 1, get_pgsql. unfold bind at 1, time.
  unfold bind at 1, log_warn, log_msg. unfold bind at 1.
  intros H.
  destruct (retry_loop fuel _ _ _) as [l' s1| |] eqn:E; try discriminate H.
  apply retry_loop_post in E. cbn in E.
  destruct E as (Hw & He & _ & Hq & _ & Hok).
  destruct (rl_connectionOk l') eqn:Hc; cbn in H.
  - unfold ret in H. injection H as <- <-.
    destruct (Hok eq_refl eq_refl) as [Hst (k & Hk & Hpk)].
    split; [exact Hw|]. split; [exact He|].
    destruct (rl_connection l') as [c|]; [|discriminate Hst].
    split; [exact Hst|]. split; [exact Hq|].
    exists k. split; [lia | exact Hpk].
  - unfold bind at 1, log_error, log_msg in H. unfold bind in H.
    match type of H with
    | context [pgsql_finish ?s0] =>
        destruct (pgsql_finish_post s0) as (s2 & E2 & Hs)
    end.
    rewrite E2 in H. unfold ret in H. injection H as <- <-.
    unfold same_but_logs in Hs. cbn in Hs.
    decompose [and] Hs.
    split; [congruence|]. split; [congruence|].
    unfold disconnected. cbn. congruence.
Qed.

(** X1. pgsql_retry_open_connection hands out a connection only when a
    ping of this very call answered PQPING_OK and the connection made then
    has the status CONNECTION_OK; it runs no command, and when it gives up
    nothing is left in pgsql->connection. *)
Theorem pgsql_retry_open_connection_needs_ping_ok (fuel : nat)
    (s s' : State) (r : option PGconn) :
  pgsql_retry_open_connection fuel s = Ret r s' ->
  world s' = world s /\ n_exec s' = n_exec s
  /\ match r with
     | Some c =>
         conn_status c = CONNECTION_OK
         /\ pgsql s' = pgsql s
         /\ exists k,
              (n_ping s <= k < n_ping s')%nat
              /\ w_PQping (world s) k (connectionString (pgsql s))
                 = PQPING_OK
     | None => pgsql s' = pgsql (disconnected s)
     end.
Proof. exact (pgsql_retry_open_connection_post fuel s s' r). Qed.

Ltac open_retry Hc Ht :=
  let H := fresh "H" in
  let E := fresh "E" in
  unfold bind at 1; intros H;
  match type of H with
  | context [pgsql_retry_open_connection ?fuel ?s0] =>
      destruct (pgsql_retry_open_connection fuel s0) as [[c1|] s1| |] eqn:E;
      try discriminate H;
      apply pgsql_retry_open_connection_post in E; cbn in E;
      [ destruct E as (? & ? & ? & Hq & _);
        unfold bind, put_pgsql, PQsetNoticeProcessor, ret in H; cbn in H;
        injection H as <- <-; cbn;
        repeat split; try assumption; try exact Ht;
        intros ? E'; right; now injection E' as <-
      | destruct E as (? & ? & Hq);
        unfold ret in H; injection H as <- <-; rewrite Hq;
        unfold disconnected; cbn; repeat split; try assumption;
        try exact Ht; intros ? E'; discriminate E' ]
  end.

Lemma pgsql_open_connection_post (fuel : nat)
    (s s' : State) (r : option PGconn) :
  pgsql_open_connection fuel s = Ret r s' ->
  connection (pgsql s') = r
  /\ connectionString (pgsql s') = connectionString (pgsql s)
  /\ connectionType (pgsql s') = connectionType (pgsql s)
  /\ world s' = world s /\ n_exec s' = n_exec s
  /\ forall c, r = Some c ->
       connection (pgsql s) = Some c \/ conn_status c = CONNECTION_OK.
Proof.
  unfold pgsql_open_connection. unfold bind at 1, get_pgsql.
  destruct (connection (pgsql s)) as [c0|] eqn:Hc.
  - unfold ret. intros H. injection H as <- <-.
    repeat split; try assumption. intros c E. now left.
  - unfold bind at 1, log_debug, log_msg. unfold bind at 1, PQconnectdb.
    cbn [world n_connect logged pgsql].
    destruct (PQstatus (w_PQconnectdb (world s) (n_connect s)
                          (connectionString (pgsql s)))) eqn:Hst.
    + unfold bind, put_pgsql, PQsetNoticeProcessor, ret. cbn.
      intros H. injection H as <- <-. cbn.
      repeat split. intros c E. right.
      rewrite E in Hst. exact Hst.
    + destruct (connectionType (pgsql s)) eqn:Ht.
      * unfold bind at 1, log_error, log_msg. unfold bind.
        match goal with
        | |- context [pgsql_finish ?s0] =>
            destruct (pgsql_finish_post s0) as (s2 & E2 & Hs)
        end.
        rewrite E2. unfold ret. intros H. injection H as <- <-.
        destruct Hs as (Hw & _ & _ & _ & _ & He & _ & _ & _ & Hq).
        cbn in Hw, He, Hq. rewrite <- Hq, <- Hw, <- He. cbn.
        repeat split; [exact Ht | intros c E; discriminate E].
      * open_retry Hc Ht.
      * open_retry Hc Ht.
      * unfold bind, log_error, log_msg, ret. intros H.
        injection H as <- <-. cbn. repeat split; try assumption.
        intros c E. discriminate E.
Qed.

(** X2. Whatever pgsql_open_connection returns is what pgsql->connection
    holds afterwards (NULL included); a connection it returns is either the
    one that was open already or a new one with status CONNECTION_OK; it
    runs no command and keeps the connection string and type. *)
Theorem pgsql_open_connection_stores_what_it_returns (fuel : nat)
    (s s' : State) (r : option PGconn) :
  pgsql_open_connection fuel s = Ret r s' ->
  connection (pgsql s') = r
  /\ connectionString (pgsql s') = connectionString (pgsql s)
  /\ connectionType (pgsql s') = connectionType (pgsql s)
  /\ world s' = world s /\ n_exec s' = n_exec s
  /\ forall c, r = Some c ->
       connection (pgsql s) = Some c \/ conn_status c = CONNECTION_OK.
Proof. exact (pgsql_open_connection_post fuel s s' r). Qed.

(** ** Commands on an open connection *)

Lemma same_but_logs_sym (s t : State) : same_but_logs s t -> same_but_logs t s.
Proof.
  unfold same_but_logs. intros H. decompose [and] H.
  repeat split; congruence.
Qed.

Lemma pgsql_open_connection_connected (fuel : nat) (s : State) (c : PGconn) :
  connection (pgsql s) = Some c ->
  pgsql_open_connection fuel s = Ret (Some c) s.
Proof.
  intros H. unfold pgsql_open_connection, bind, get_pgsql. now rewrite H.
Qed.

Lemma clear_results_post (c : option PGconn) (pending : list PGresult) :
  forall s, exists b s',
    clear_results c pending s = Ret b s' /\ same_but_logs s s'
    /\ b = forallb (fun r => is_response_ok (Some r)) pending.
Proof.
  induction pending as [|r pending IH]; intros s; cbn [clear_results forallb].
  - eexists _, _. repeat split.
  - destruct (is_response_ok (Some r)); cbn [negb andb].
    + apply IH.
    + unfold bind at 1, log_error, log_msg. unfold bind at 1.
      destruct (IH (logged LOG_ERROR
                      ("Failure from Postgres: " +++ PQerrorMessage c) s))
        as (b & s' & E & Hs & _).
      rewrite E. eexists _, _. split; [reflexivity|]. split; [|reflexivity].
      apply same_but_logs_trans with (2 := Hs).
      apply same_but_logs_logged, same_but_logs_refl.
Qed.

Lemma same_but_logs_executed (ok : bool) (s t : State) :
  same_but_logs s t -> same_but_logs (executed ok s) (executed ok t).
Proof.
  unfold same_but_logs, executed, disconnected. intros H.
  decompose [and] H. destruct ok; cbn; repeat split; congruence.
Qed.

(** pgsql_execute_with_params on an open connection: a command the server
    refuses gives false, leaves the context alone and closes the
    connection; a command that goes through gives true with the context
    that the callback made of the result. *)
Lemma pgsql_execute_with_params_connected {C} (fuel : nat) (sql : string)
    (paramValues : list string) (context : C)
    (parseFun : option (C -> PGresult -> M C)) (s : State) (c : PGconn) :
  connection (pgsql s) = Some c ->
  (answer_ok (world s) (n_exec s) sql = false ->
   exists s',
     pgsql_execute_with_params fuel sql paramValues context parseFun s
     = Ret (false, context) s'
     /\ same_but_logs (executed false s) s')
  /\ (answer_ok (world s) (n_exec s) sql = true ->
      forall context',
        (forall s0, same_but_logs (executed true s) s0 ->
           exists s1,
             run_parseFun parseFun context
               (fst (w_PQexec (world s) (n_exec s) sql)) s0
             = Ret context' s1
             /\ same_but_logs (executed true s) s1) ->
        exists s',
          pgsql_execute_with_params fuel sql paramValues context parseFun s
          = Ret (true, context') s'
          /\ same_but_logs (executed true s) s').
Proof.
  intros Hc.
  set (K := fun t : State =>
              ('(result, pending) <- PQexec sql ;;
               if negb (is_response_ok result) then
                 log_error ("Failed to execute " +++ quoted (Some sql) +++ ": "
                            +++ PQerrorMessage (Some c)) ;;
                 clear_results (Some c) pending ;;
                 pgsql_finish ;;
                 ret (false, context)
               else
                 context <- run_parseFun parseFun context result ;;
                 clear_results (Some c) pending ;;
                 ret (true, context)) t).
  assert (HK : forall t, same_but_logs s t ->
            pgsql_execute_with_params fuel sql paramValues context parseFun s
            = K t -> True) by trivial.
  assert (Hrun : exists t,
            same_but_logs s t
            /\ pgsql_execute_with_params fuel sql paramValues context
                 parseFun s = K t).
  { unfold pgsql_execute_with_params, bind at 1.
    rewrite (pgsql_open_connection_connected fuel s c Hc).
    destruct paramValues as [|v paramValues].
    - exists (logged LOG_DEBUG (sql +++ ";") s).
      split; [apply same_but_logs_logged, same_but_logs_refl | reflexivity].
    - exists (logged LOG_DEBUG (debug_parameters (v :: paramValues))
                (logged LOG_DEBUG (sql +++ ";") s)).
      split; [do 2 apply same_but_logs_logged; apply same_but_logs_refl
             | reflexivity]. }
  clear HK. destruct Hrun as (t & Hst & ->).
  assert (Hw : world t = world s) by (symmetry; apply Hst).
  assert (Hn : n_exec t = n_exec s)
    by (symmetry; destruct Hst as (_ & _ & _ & _ & _ & H & _); exact H).
  unfold answer_ok. rewrite <- Hw, <- Hn. unfold K.
  set (t1 := mkState (world t) (n_time t) (n_ping t) (n_connect t)
               (n_signal t) (S (n_exec t)) (slept t) (errno t) (logs t)
               (noticeProcessor t) (pgsql t)).
  assert (Ht1 : same_but_logs (executed true s) t1).
  { unfold same_but_logs, executed, t1 in *. cbn. decompose [and] Hst.
    repeat split; congruence. }
  split; intros Hok.
  - unfold bind at 1, PQexec.
    destruct (w_PQexec (world t) (n_exec t) sql) as [result pending].
    cbn [fst] in Hok. cbv beta iota. rewrite Hok. cbn [negb].
    unfold bind at 1, log_error, log_msg. unfold bind at 1.
    match goal with
    | |- context [clear_results ?c0 pending ?s0] =>
        destruct (clear_results_post c0 pending s0) as (b & s2 & -> & Hs2 & _)
    end.
    unfold bind at 1.
    destruct (pgsql_finish_post s2) as (s3 & -> & Hs3).
    eexists. split; [reflexivity|].
    apply same_but_logs_trans with (2 := Hs3).
    unfold same_but_logs, executed, disconnected, logged in *. cbn in *.
    decompose [and] Hs2. decompose [and] Hst.
    repeat split; congruence.
  - intros context' Hparse.
    unfold bind at 1, PQexec.
    destruct (w_PQexec (world t) (n_exec t) sql) as [result pending].
    cbn [fst] in Hok, Hparse. cbv beta iota. rewrite Hok. cbn [negb].
    destruct (Hparse t1 Ht1) as (s1 & E & Hs1).
    unfold bind at 1. fold t1. rewrite E. unfold bind at 1.
    destruct (clear_results_post (Some c) pending s1)
      as (b & s2 & -> & Hs2 & _).
    eexists. split; [reflexivity|].
    apply same_but_logs_trans with (1 := Hs1). exact Hs2.
Qed.

Lemma executed_facts (ok : bool) (s s' : State) (c : PGconn) :
  connection (pgsql s) = Some c ->
  same_but_logs (executed ok s) s' ->
  world s' = world s /\ n_exec s' = S (n_exec s)
  /\ connection (pgsql s') = (if ok then Some c else None)
  /\ connectionString (pgsql s') = connectionString (pgsql s).
Proof.
  intros Hc Hs. unfold same_but_logs, executed, disconnected in Hs.
  destruct ok; cbn in Hs; decompose [and] Hs;
    repeat split; try congruence;
    match goal with
    | Hp : _ = pgsql s' |- _ => rewrite <- Hp; cbn; congruence
    end.
Qed.

Lemma pgsql_execute_connected (fuel : nat) (sql : string) (s : State)
    (c : PGconn) :
  connection (pgsql s) = Some c ->
  exists s',
    pgsql_execute fuel sql s = Ret (answer_ok (world s) (n_exec s) sql) s'
    /\ same_but_logs (executed (answer_ok (world s) (n_exec s) sql) s) s'.
Proof.
  intros Hc. unfold pgsql_execute, bind at 1.
  destruct (pgsql_execute_with_params_connected fuel sql [] tt None s c Hc)
    as [Hfail Hok].
  destruct (answer_ok (world s) (n_exec s) sql).
  - destruct (Hok eq_refl tt) as (s' & -> & Hs).
    + intros s0 Hs0. exists s0. split; [|exact Hs0].
      unfold run_parseFun. reflexivity.
    + eexists. split; [reflexivity | exact Hs].
  - destruct (Hfail eq_refl) as (s' & -> & Hs).
    eexists. split; [reflexivity | exact Hs].
Qed.

Lemma pgsql_alter_system_set_connected (fuel : nat) (setting : GUC)
    (s : State) (c : PGconn) :
  connection (pgsql s) = Some c ->
  let ok1 := answer_ok (world s) (n_exec s) (alter_system_command setting) in
  let ok2 := answer_ok (world s) (S (n_exec s)) reload_conf_sql in
  exists s',
    pgsql_alter_system_set fuel setting s = Ret (ok1 && ok2) s'
    /\ n_exec s' = (if ok1 then 2 + n_exec s else 1 + n_exec s)%nat
    /\ connection (pgsql s') = (if ok1 && ok2 then Some c else None)
    /\ world s' = world s.
Proof.
  intros Hc ok1 ok2. unfold pgsql_alter_system_set, bind at 1.
  destruct (pgsql_execute_connected fuel (alter_system_command setting) s c Hc)
    as (s1 & E1 & Hs1).
  rewrite E1. fold ok1 in Hs1 |- *.
  destruct (executed_facts ok1 s s1 c Hc Hs1) as (Hw1 & Hn1 & Hc1 & _).
  destruct ok1; cbn [negb andb].
  - unfold pgsql_reload_conf, bind at 1.
    destruct (pgsql_execute_connected fuel reload_conf_sql s1 c Hc1)
      as (s2 & E2 & Hs2).
    rewrite E2. rewrite Hw1, Hn1 in Hs2 |- *. fold ok2 in Hs2 |- *.
    destruct (executed_facts ok2 s1 s2 c Hc1 Hs2) as (Hw2 & Hn2 & Hc2 & _).
    destruct ok2; cbn [negb]; eexists; (split; [reflexivity|]);
      repeat split; cbn; congruence.
  - eexists. split; [reflexivity|]. repeat split; cbn; congruence.
Qed.

(** X3. On an open connection pgsql_alter_system_set sends ALTER SYSTEM
    SET and then SELECT pg_reload_conf(), and answers true exactly when the
    server accepted both. When ALTER SYSTEM is refused nothing else is
    sent; after a refusal the connection is closed, after success it is
    still open. *)
Theorem pgsql_alter_system_set_steps (fuel : nat) (setting : GUC)
    (s : State) (c : PGconn) :
  connection (pgsql s) = Some c ->
  let ok1 := answer_ok (world s) (n_exec s) (alter_system_command setting) in
  let ok2 := answer_ok (world s) (S (n_exec s)) reload_conf_sql in
  exists s',
    pgsql_alter_system_set fuel setting s = Ret (ok1 && ok2) s'
    /\ n_exec s' = (if ok1 then 2 + n_exec s else 1 + n_exec s)%nat
    /\ connection (pgsql s') = (if ok1 && ok2 then Some c else None)
    /\ world s' = world s.
Proof. exact (pgsql_alter_system_set_connected fuel setting s c). Qed.

(** X4. On an open connection pgsql_disable_synchronous_replication
    answers true exactly when the server accepted, in this order, ALTER
    SYSTEM SET synchronous_standby_names TO '', SELECT pg_reload_conf() and
    the cancellation of the backends waiting for SyncRep; the first refusal
    ends the sequence, so the backends are never cancelled while the
    setting is not changed and reloaded. *)
Theorem pgsql_disable_synchronous_replication_steps (fuel : nat)
    (s : State) (c : PGconn) :
  connection (pgsql s) = Some c ->
  let k := n_exec s in
  let ok1 :=
    answer_ok (world s) k
      (alter_system_command (mkGUC "synchronous_standby_names" "''")) in
  let ok2 := answer_ok (world s) (S k) reload_conf_sql in
  let ok3 := answer_ok (world s) (S (S k)) cancelBlockedStatementsCommand in
  exists s',
    pgsql_disable_synchronous_replication fuel s
    = Ret (ok1 && ok2 && ok3) s'
    /\ n_exec s'
       = (if ok1 then if ok2 then 3 + k else 2 + k else 1 + k)%nat
    /\ connection (pgsql s') = (if ok1 && ok2 && ok3 then Some c else None).
Proof.
  intros Hc k ok1 ok2 ok3.
  unfold pgsql_disable_synchronous_replication.
  unfold bind at 1, log_info, log_msg. unfold bind at 1.
  set (s0 := logged LOG_INFO "Disabling synchronous replication" s).
  assert (Hc0 : connection (pgsql s0) = Some c) by exact Hc.
  destruct (pgsql_alter_system_set_connected fuel
              (mkGUC "synchronous_standby_names" "''") s0 c Hc0)
    as (s1 & E1 & Hn1 & Hc1 & Hw1).
  rewrite E1. change (world s0) with (world s) in *.
  change (n_exec s0) with k in *. fold ok1 ok2 in Hn1, Hc1 |- *.
  destruct ok1; cbn [andb negb] in *.
  - destruct ok2; cbn [andb negb] in *.
    + unfold bind at 1, log_debug, log_msg. unfold bind at 1.
      set (s2 := logged LOG_DEBUG _ s1).
      assert (Hc2 : connection (pgsql s2) = Some c) by exact Hc1.
      destruct (pgsql_execute_connected fuel cancelBlockedStatementsCommand
                  s2 c Hc2) as (s3 & E3 & Hs3).
      rewrite E3.
      change (world s2) with (world s1) in *.
      change (n_exec s2) with (n_exec s1) in *.
      rewrite Hw1, Hn1 in Hs3 |- *. cbn [Nat.add] in Hs3 |- *.
      fold ok3 in Hs3 |- *.
      destruct (executed_facts ok3 s2 s3 c Hc2 Hs3) as (_ & Hn3 & Hc3 & _).
      change (n_exec s2) with (n_exec s1) in Hn3. rewrite Hn1 in Hn3.
      destruct ok3; cbn [negb]; eexists; (split; [reflexivity|]);
        split; [exact Hn3 | exact Hc3 | exact Hn3 | exact Hc3].
    + eexists. split; [reflexivity|]. split; assumption.
  - eexists. split; [reflexivity|]. split; assumption.
Qed.

(** ** Reading one value *)

Lemma substring_all (s : string) (n : nat) :
  (String.length s <= n)%nat -> substring 0 n s = s.
Proof.
  revert n. induction s as [|c s IH]; intros [|n] H; cbn in *;
    try reflexivity; try lia.
  rewrite IH; [reflexivity | lia].
Qed.

Lemma length_substring (s : string) (n : nat) :
  (String.length (substring 0 n s) <= n)%nat.
Proof.
  revert n. induction s as [|c s IH]; intros [|n]; cbn; try lia.
  specialize (IH n). lia.
Qed.

Lemma parseSingleValueResult_string (context : SingleValueResultContext)
    (r : PGresult) (v : string) (s : State) :
  PQntuples r = 1 -> PQgetvalue r 0 0 = Some v ->
  resultType context = PGSQL_RESULT_STRING ->
  parseSingleValueResult context r s
  = Ret (set_parsedOk (set_strVal context (Some v)) true) s.
Proof.
  intros Hrows Hv Ht. unfold parseSingleValueResult.
  now rewrite Hrows, Hv, Ht.
Qed.

Lemma parseSingleValueResult_bool (context : SingleValueResultContext)
    (r : PGresult) (v : string) (s : State) :
  PQntuples r = 1 -> PQgetvalue r 0 0 = Some v ->
  resultType context = PGSQL_RESULT_BOOL ->
  parseSingleValueResult context r s
  = Ret (set_parsedOk (set_boolVal context (String.eqb v "t")) true) s.
Proof.
  intros Hrows Hv Ht. unfold parseSingleValueResult.
  rewrite Hrows, Hv, Ht. cbn [Z.eqb Pos.eqb]. unfold bind at 1.
  destruct (strcmp_eq v "t" s) as [-> | ->];
    destruct (String.eqb v "t"); reflexivity.
Qed.

Lemma parseSingleValueResult_other_rows (context : SingleValueResultContext)
    (r : PGresult) (s : State) :
  PQntuples r <> 1 -> parseSingleValueResult context r s = Ret context s.
Proof.
  intros Hrows. unfold parseSingleValueResult.
  apply Z.eqb_neq in Hrows. now rewrite Hrows.
Qed.

(** pgsql_get_current_setting when the server answers with one row. *)
Lemma pgsql_get_current_setting_one_row (fuel : nat) (settingName : string)
    (s : State) (c : PGconn) (r : PGresult) (pending : list PGresult)
    (v : string) :
  connection (pgsql s) = Some c ->
  w_PQexec (world s) (n_exec s) current_setting_sql = (Some r, pending) ->
  is_response_ok (Some r) = true ->
  PQntuples r = 1 -> PQgetvalue r 0 0 = Some v ->
  exists s',
    pgsql_get_current_setting fuel settingName s = Ret (true, Some v) s'
    /\ same_but_logs (executed true s) s'.
Proof.
  intros Hc Hexec Hok Hrows Hv.
  unfold pgsql_get_current_setting, bind at 1.
  destruct (pgsql_execute_with_params_connected fuel current_setting_sql
              [settingName] (zero_context PGSQL_RESULT_STRING)
              (Some parseSingleValueResult) s c Hc) as [_ H].
  unfold answer_ok in H. rewrite Hexec in H. cbn [fst] in H.
  destruct (H Hok (set_parsedOk
                     (set_strVal (zero_context PGSQL_RESULT_STRING) (Some v))
                     true)) as (s' & -> & Hs).
  - intros s0 Hs0. exists s0. split; [|exact Hs0].
    unfold run_parseFun. now apply parseSingleValueResult_string.
  - eexists. split; [reflexivity | exact Hs].
Qed.

(** X5. pgsql_get_hba_file_path never answers true with a shortened path:
    when current_setting('hba_file') comes back as one row, the call
    answers true with the whole value if it is shorter than maxPathLength,
    and false otherwise. *)
Theorem pgsql_get_hba_file_path_whole_or_false (fuel : nat)
    (maxPathLength : Z) (s : State) (c : PGconn) (r : PGresult)
    (pending : list PGresult) (v : string) :
  connection (pgsql s) = Some c ->
  w_PQexec (world s) (n_exec s) current_setting_sql = (Some r, pending) ->
  is_response_ok (Some r) = true ->
  PQntuples r = 1 -> PQgetvalue r 0 0 = Some v ->
  1 <= maxPathLength ->
  exists s' written,
    pgsql_get_hba_file_path fuel maxPathLength s
    = Ret (strlen v <? maxPathLength, Some written) s'
    /\ (strlen v < maxPathLength -> written = v).
Proof.
  intros Hc Hexec Hok Hrows Hv Hmax.
  unfold pgsql_get_hba_file_path, bind at 1.
  destruct (pgsql_get_current_setting_one_row fuel "hba_file" s c r pending v
              Hc Hexec Hok Hrows Hv) as (s1 & -> & _).
  cbn [negb]. unfold strlcpy, bind at 1, ret at 1.
  rewrite Z.ltb_antisym.
  destruct (maxPathLength <=? strlen v) eqn:E; cbn [negb].
  - eexists _, _. split; [reflexivity|].
    apply Z.leb_le in E. lia.
  - eexists _, _. split; [reflexivity|]. intros _.
    apply Z.leb_gt in E. unfold strlen in E.
    apply substring_all. lia.
Qed.

(** X6. pgsql_get_config_file_path has no such test: when
    current_setting('config_file') comes back as one row, the call answers
    true with the first maxPathLength - 1 characters of the value, which is
    not the value when that is maxPathLength characters or longer. *)
Theorem pgsql_get_config_file_path_truncates (fuel : nat)
    (maxPathLength : Z) (s : State) (c : PGconn) (r : PGresult)
    (pending : list PGresult) (v : string) :
  connection (pgsql s) = Some c ->
  w_PQexec (world s) (n_exec s) current_setting_sql = (Some r, pending) ->
  is_response_ok (Some r) = true ->
  PQntuples r = 1 -> PQgetvalue r 0 0 = Some v ->
  1 <= maxPathLength ->
  exists s' written,
    pgsql_get_config_file_path fuel maxPathLength s
    = Ret (true, Some written) s'
    /\ written = substring 0 (Z.to_nat (maxPathLength - 1)) v
    /\ (strlen v < maxPathLength -> written = v)
    /\ (maxPathLength <= strlen v -> written <> v).
Proof.
  intros Hc Hexec Hok Hrows Hv Hmax.
  unfold pgsql_get_config_file_path, bind at 1.
  destruct (pgsql_get_current_setting_one_row fuel "config_file" s c r
              pending v Hc Hexec Hok Hrows Hv) as (s1 & -> & _).
  cbn [negb]. unfold strlcpy, bind at 1, ret at 1.
  eexists _, _. split; [reflexivity|]. split; [reflexivity|]. split.
  - intros H. unfold strlen in H. apply substring_all. lia.
  - intros H E.
    pose proof (length_substring v (Z.to_nat (maxPathLength - 1))) as L.
    rewrite E in L. unfold strlen in H. lia.
Qed.

(** X7. pgsql_is_in_recovery on an open connection: with a one-row answer
    it is true and the flag says whether the first field is exactly "t";
    with an accepted answer of any other number of rows it is false and
    nothing is stored. *)
Theorem pgsql_is_in_recovery_reads_t (fuel : nat) (s : State) (c : PGconn)
    (r : PGresult) (pending : list PGresult) :
  connection (pgsql s) = Some c ->
  w_PQexec (world s) (n_exec s) is_in_recovery_sql = (Some r, pending) ->
  is_response_ok (Some r) = true ->
  (forall v, PQntuples r = 1 -> PQgetvalue r 0 0 = Some v ->
     exists s',
       pgsql_is_in_recovery fuel s = Ret (true, Some (String.eqb v "t")) s')
  /\ (PQntuples r <> 1 ->
      exists s', pgsql_is_in_recovery fuel s = Ret (false, None) s').
Proof.
  intros Hc Hexec Hok.
  destruct (pgsql_execute_with_params_connected fuel is_in_recovery_sql
              [] (new_context PGSQL_RESULT_BOOL)
              (Some parseSingleValueResult) s c Hc) as [_ H].
  unfold answer_ok in H. rewrite Hexec in H. cbn [fst] in H.
  specialize (H Hok). split.
  - intros v Hrows Hv.
    destruct (H (set_parsedOk
                   (set_boolVal (new_context PGSQL_RESULT_BOOL)
                      (String.eqb v "t")) true)) as (s' & E & _).
    + intros s0 Hs0. exists s0. split; [|exact Hs0].
      unfold run_parseFun. now apply parseSingleValueResult_bool.
    + unfold pgsql_is_in_recovery, bind at 1. rewrite E.
      eexists. reflexivity.
  - intros Hrows.
    destruct (H (new_context PGSQL_RESULT_BOOL)) as (s' & E & _).
    + intros s0 Hs0. exists s0. split; [|exact Hs0].
      unfold run_parseFun. now apply parseSingleValueResult_other_rows.
    + unfold pgsql_is_in_recovery, bind at 1. rewrite E.
      eexists. reflexivity.
Qed.

(** ** What pgsql_execute_with_params returns *)

(** The two ways in which pgsql_execute_with_params returns: false, with
    the context it was given and no connection left; or true, after the
    server accepted the command and the callback, if any, made the context
    from the result. *)
Lemma pgsql_execute_with_params_cases {C} (fuel : nat) (sql : string)
    (paramValues : list string) (context context' : C)
    (parseFun : option (C -> PGresult -> M C)) (s s' : State) (b : bool) :
  pgsql_execute_with_params fuel sql paramValues context parseFun s
  = Ret (b, context') s' ->
  (b = false /\ context' = context /\ connection (pgsql s') = None)
  \/ (b = true
      /\ exists result s0 s1,
           is_response_ok result = true
           /\ run_parseFun parseFun context result s0 = Ret context' s1).
Proof.
  unfold pgsql_execute_with_params. unfold bind at 1.
  destruct (pgsql_open_connection fuel s) as [[c|] s1| |] eqn:Hopen;
    try discriminate.
  - unfold bind at 1, log_debug, log_msg. unfold bind at 1.
    set (K := fun t : State =>
                ('(result, pending) <- PQexec sql ;;
                 if negb (is_response_ok result) then
                   log_error ("Failed to execute " +++ quoted (Some sql)
                              +++ ": " +++ PQerrorMessage (Some c)) ;;
                   clear_results (Some c) pending ;;
                   pgsql_finish ;;
                   ret (false, context)
                 else
                   context <- run_parseFun parseFun context result ;;
                   clear_results (Some c) pending ;;
                   ret (true, context)) t).
    assert (HK : forall t, K t = Ret (b, context') s' ->
              (b = false /\ context' = context
               /\ connection (pgsql s') = None)
              \/ (b = true
                  /\ exists result s0 s1,
                       is_response_ok result = true
                       /\ run_parseFun parseFun context result s0
                          = Ret context' s1)).
    { intros t. unfold K, bind at 1, PQexec.
      destruct (w_PQexec (world t) (n_exec t) sql) as [result pending].
      cbv beta iota.
      destruct (is_response_ok result) eqn:Hok; cbn [negb].
      - unfold bind at 1.
        destruct (run_parseFun parseFun context result _)
          as [ctx1 s2| |] eqn:Hparse; try discriminate.
        unfold bind at 1.
        destruct (clear_results_post (Some c) pending s2)
          as (b2 & s3 & -> & _ & _).
        unfold ret. intros H. injection H as <- <- <-.
        right. split; [reflexivity|]. eexists _, _, _. split; eassumption.
      - unfold bind at 1, log_error, log_msg. unfold bind at 1.
        match goal with
        | |- context [clear_results ?c0 pending ?s0] =>
            destruct (clear_results_post c0 pending s0)
              as (b2 & s2 & -> & _ & _)
        end.
        unfold bind at 1.
        destruct (pgsql_finish_post s2) as (s3 & -> & Hs3).
        unfold ret. intros H. injection H as <- <- <-.
        left. repeat split.
        destruct Hs3 as (_ & _ & _ & _ & _ & _ & _ & _ & _ & Hq).
        rewrite <- Hq. reflexivity. }
    destruct paramValues as [|v paramValues]; intros H.
    + exact (HK _ H).
    + exact (HK _ H).
  - unfold ret. intros H. injection H as <- <- <-.
    left. repeat split.
    now apply pgsql_open_connection_post in Hopen.
Qed.

(** X8. Whenever pgsql_execute_with_params answers false, with any
    callback, from any state and for parameters whose text fits
    debugParameters, the caller's context is as it was handed in and
    pgsql->connection is NULL. *)
Theorem pgsql_execute_with_params_false {C} (fuel : nat) (sql : string)
    (paramValues : list string) (context context' : C)
    (parseFun : option (C -> PGresult -> M C)) (s s' : State) :
  debug_parameters_fit (world s) paramValues = true ->
  pgsql_execute_with_params fuel sql paramValues context parseFun s
  = Ret (false, context') s' ->
  context' = context /\ connection (pgsql s') = None.
Proof.
  intros _ H. apply pgsql_execute_with_params_cases in H.
  destruct H as [(_ & H1 & H2) | (H & _)]; [now split | discriminate H].
Qed.

Lemma outcome_same_but_logs_refl {A} (o : Outcome A) :
  outcome_same_but_logs o o.
Proof.
  destruct o; cbn; auto using same_but_logs_refl.
Qed.

(** X9. The flag missing_ok of pgsql_get_sync_state_and_current_lsn only
    silences the error message: with it or without it the call returns the
    same value, stores the same strings and leaves the same state, the log
    apart. *)
Theorem missing_ok_only_silences_the_log (env : Env) (fuel : nat)
    (slotName : string) (maxLSNSize : Z) (s : State) :
  outcome_same_but_logs
    (pgsql_get_sync_state_and_current_lsn env fuel slotName maxLSNSize true s)
    (pgsql_get_sync_state_and_current_lsn env fuel slotName maxLSNSize false
       s).
Proof.
  unfold pgsql_get_sync_state_and_current_lsn, bind.
  destruct (pgsql_execute_with_params fuel sync_state_sql [slotName] _ _ s)
    as [[b context] s1| s1|]; cbn [outcome_same_but_logs].
  - destruct (pgsr_parsedOk context); cbn [negb].
    + apply outcome_same_but_logs_refl.
    + unfold ret, log_error, log_msg. cbn.
      split; [reflexivity|].
      apply same_but_logs_logged, same_but_logs_refl.
  - apply same_but_logs_refl.
  - exact I.
Qed.

Lemma length_substring_le (s : string) (n : nat) :
  (String.length (substring 0 n s) <= String.length s)%nat.
Proof.
  revert n. induction s as [|c s IH]; intros [|n]; cbn; try lia.
  specialize (IH n). lia.
Qed.

(** X10. The strings pgsql_get_sync_state_and_current_lsn hands back fit
    their buffers: the sync state is shorter than
    PGSR_SYNC_STATE_MAXLENGTH, the LSN shorter than both PG_LSN_MAXLENGTH
    and maxLSNSize. *)
Theorem pgsql_get_sync_state_and_current_lsn_fits (env : Env) (fuel : nat)
    (slotName : string) (maxLSNSize : Z) (missing_ok : bool)
    (s s' : State) (state lsn : string) :
  1 <= PGSR_SYNC_STATE_MAXLENGTH env ->
  1 <= PG_LSN_MAXLENGTH env ->
  1 <= maxLSNSize ->
  pgsql_get_sync_state_and_current_lsn env fuel slotName maxLSNSize
    missing_ok s
  = Ret (true, Some (state, lsn)) s' ->
  strlen state < PGSR_SYNC_STATE_MAXLENGTH env
  /\ strlen lsn < PG_LSN_MAXLENGTH env
  /\ strlen lsn < maxLSNSize.
Proof.
  intros H1 H2 H3. unfold pgsql_get_sync_state_and_current_lsn.
  unfold bind at 1.
  destruct (pgsql_execute_with_params fuel sync_state_sql [slotName] _ _ s)
    as [[b context] s1| s1|] eqn:E; try discriminate.
  destruct (pgsr_parsedOk context) eqn:Hp; cbn [negb].
  - unfold strlcpy, bind, ret. intros H. injection H as <- <- <-.
    apply pgsql_execute_with_params_cases in E.
    destruct E as [(_ & -> & _) | (_ & result & s0 & s2 & _ & Hparse)];
      [discriminate Hp|].
    assert (Hlsn : (String.length (currentLSN context)
                    <= Z.to_nat (PG_LSN_MAXLENGTH env - 1))%nat).
    { unfold run_parseFun in Hparse. destruct result as [r|].
      - unfold parsePgsrSyncStateAndWAL in Hparse.
        destruct (negb (PQnfields r =? 2)).
        + unfold bind, log_error, log_msg, ret in Hparse.
          injection Hparse as <- <-. discriminate Hp.
        + destruct (PQntuples r) as [|[p|p|]|p];
            unfold bind, log_error, log_msg, ret in Hparse;
            try (injection Hparse as <- <-; discriminate Hp).
          unfold strlcpy in Hparse.
          destruct (PQgetvalue r 0 0); [|discriminate Hparse].
          destruct (PQgetvalue r 0 1); [|discriminate Hparse].
          unfold ret in Hparse. injection Hparse as <- <-. cbn.
          apply length_substring.
      - unfold ret in Hparse. injection Hparse as <- <-. discriminate Hp. }
    unfold strlen.
    pose proof (length_substring (syncState context)
                  (Z.to_nat (PGSR_SYNC_STATE_MAXLENGTH env - 1))).
    pose proof (length_substring (currentLSN context)
                  (Z.to_nat (maxLSNSize - 1))).
    pose proof (length_substring_le (currentLSN context)
                  (Z.to_nat (maxLSNSize - 1))).
    repeat split; lia.
  - unfold bind. destruct missing_ok; cbn; discriminate.
Qed.

(** ** LISTEN and ALTER EXTENSION *)

Lemma listen_channels_post (c0 : option PGconn) (channels : list string) :
  forall (s s' : State) (b : option bool),
    listen_channels c0 channels s = Ret b s' ->
    world s' = world s
    /\ (b = Some true -> n_exec s' = (n_exec s + List.length channels)%nat)
    /\ ((forall name, In name channels ->
           w_PQescapeIdentifier (world s) name <> None) ->
        pgsql s' = pgsql s).
Proof.
  induction channels as [|name channels IH]; intros s s' b;
    cbn [listen_channels].
  - unfold ret. intros H. injection H as <- <-.
    cbn. repeat split. lia.
  - unfold bind at 1, PQescapeIdentifier, bind at 1, get_world, ret at 1.
    destruct (w_PQescapeIdentifier (world s) name) as [channel|] eqn:Hesc.
    + unfold bind at 1, get_world.
      destruct (BUFSIZE (world s) <=? strlen ("LISTEN " +++ channel)).
      { unfold ret. intros H. injection H as <- <-.
        split; [reflexivity|]. split; [discriminate | reflexivity]. }
      unfold bind at 1, PQexec.
      destruct (w_PQexec (world s) (n_exec s) ("LISTEN " +++ channel))
        as [result pending].
      cbv beta iota.
      destruct (is_response_ok result); cbn [negb].
      * unfold bind at 1.
        match goal with
        | |- context [clear_results c0 pending ?s0] =>
            destruct (clear_results_post c0 pending s0)
              as (b2 & s2 & -> & Hs2 & _)
        end.
        intros H. apply IH in H.
        destruct H as (Hw & Hn & Hq).
        destruct Hs2 as (Hw2 & _ & _ & _ & _ & Hn2 & _ & _ & _ & Hq2).
        cbn in Hw2, Hn2, Hq2.
        split; [congruence|]. split.
        -- intros Hb. rewrite (Hn Hb), <- Hn2. cbn. lia.
        -- intros Hall. rewrite Hq, <- Hq2; [reflexivity|].
           intros n Hin. rewrite <- Hw2. apply Hall. now right.
      * unfold bind at 1, log_error, log_msg. unfold bind at 1.
        match goal with
        | |- context [clear_results c0 pending ?s0] =>
            destruct (clear_results_post c0 pending s0)
              as (b2 & s2 & -> & Hs2 & _)
        end.
        unfold ret. intros H. injection H as <- <-.
        destruct Hs2 as (Hw2 & _ & _ & _ & _ & Hn2 & _ & _ & _ & Hq2).
        cbn in Hw2, Hn2, Hq2.
        split; [congruence|]. split; [discriminate|].
        intros _. congruence.
    + unfold bind at 1, log_error, log_msg. unfold bind at 1.
      match goal with
      | |- context [pgsql_finish ?s0] =>
          destruct (pgsql_finish_post s0) as (s2 & -> & Hs2)
      end.
      unfold ret. intros H. injection H as <- <-.
      destruct Hs2 as (Hw2 & _). cbn in Hw2.
      split; [congruence|]. split; [discriminate|].
      intros Hall. exfalso. apply (Hall name); [now left | exact Hesc].
Qed.

(** X11. When pgsql_listen answers true, every command having fitted the
    buffer sql, it has sent exactly one LISTEN command per channel. *)
Theorem pgsql_listen_one_command_per_channel (fuel : nat)
    (channels : list string) (s s' : State) :
  pgsql_listen fuel channels s = Ret (Some true) s' ->
  n_exec s' = (n_exec s + List.length channels)%nat.
Proof.
  unfold pgsql_listen, bind at 1.
  destruct (pgsql_open_connection fuel s) as [[c|] s1| |] eqn:Hopen;
    try discriminate.
  intros H. apply listen_channels_post in H.
  destruct H as (_ & Hn & _).
  apply pgsql_open_connection_post in Hopen.
  destruct Hopen as (_ & _ & _ & _ & Hn1 & _).
  rewrite (Hn eq_refl). congruence.
Qed.

(** X12. Unlike the other commands, pgsql_listen keeps the connection when
    the server refuses a LISTEN: on an open connection, with channel names
    that PQescapeIdentifier accepts, pgsql->connection is the same after
    the call, whether it answered true or false; the commands the call
    wrote all fitted the buffer sql. *)
Theorem pgsql_listen_keeps_the_connection (fuel : nat)
    (channels : list string) (s s' : State) (c : PGconn) (b : bool) :
  connection (pgsql s) = Some c ->
  (forall name, In name channels ->
     w_PQescapeIdentifier (world s) name <> None) ->
  pgsql_listen fuel channels s = Ret (Some b) s' ->
  connection (pgsql s') = Some c.
Proof.
  intros Hc Hall. unfold pgsql_listen, bind at 1.
  rewrite (pgsql_open_connection_connected fuel s c Hc).
  intros H. apply listen_channels_post in H.
  destruct H as (_ & _ & Hq). now rewrite (Hq Hall).
Qed.

(** X13. pgsql_alter_extension_update_to tests escapedIdentifier a second
    time where escapedVersion is meant: when PQescapeIdentifier fails on
    the version only, the call does not stop but sends ALTER EXTENSION ...
    UPDATE TO with the null pointer printed in place of the version, and
    answers what the server says to that. *)
Theorem pgsql_alter_extension_update_to_misses_null_version (fuel : nat)
    (extname version escapedIdentifier : string) (s : State) (c : PGconn) :
  connection (pgsql s) = Some c ->
  w_PQescapeIdentifier (world s) extname = Some escapedIdentifier ->
  w_PQescapeIdentifier (world s) version = None ->
  let command :=
    snprintf (BUFSIZE (world s))
      ("ALTER EXTENSION " +++ escapedIdentifier +++ " UPDATE TO (null)") in
  exists s',
    pgsql_alter_extension_update_to fuel extname version s
    = Ret (answer_ok (world s) (n_exec s) command) s'
    /\ n_exec s' = S (n_exec s).
Proof.
  intros Hc He Hv command.
  unfold pgsql_alter_extension_update_to, bind at 1.
  rewrite (pgsql_open_connection_connected fuel s c Hc).
  unfold bind at 1, PQescapeIdentifier, bind at 1, get_world, ret at 1.
  rewrite He.
  unfold bind at 1, bind at 1, ret at 1. rewrite Hv.
  unfold bind at 1. unfold alter_extension_text, percent_s.
  set (text := "ALTER EXTENSION " +++ escapedIdentifier +++ " UPDATE TO "
               +++ "(null)").
  assert (Hrun : forall s0, same_but_logs s s0 ->
            exists s',
              ('(result, pending) <-
                 PQexec (snprintf (BUFSIZE (world s)) text) ;;
               if negb (is_response_ok result) then
                 let sqlstate := PQresultErrorField_SQLSTATE result in
                 log_error ("Error " +++ percent_s sqlstate
                            +++ " while running Postgres query: "
                            +++ snprintf (BUFSIZE (world s)) text
                            +++ ": " +++ PQerrorMessage (Some c)) ;;
                 clear_results (Some c) pending ;;
                 pgsql_finish ;;
                 ret false
               else
                 clear_results (Some c) pending ;;
                 ret true) s0
              = Ret (answer_ok (world s) (n_exec s)
                       (snprintf (BUFSIZE (world s)) text)) s'
              /\ n_exec s' = S (n_exec s)).
  { intros s0 Hs0.
    destruct Hs0 as (Hw0 & _ & _ & _ & _ & Hn0 & _).
    unfold bind at 1, PQexec. rewrite <- Hw0, <- Hn0.
    unfold answer_ok.
    destruct (w_PQexec (world s) (n_exec s) (snprintf (BUFSIZE (world s)) text))
      as [result pending].
    cbn [fst]. cbv beta iota zeta.
    destruct (is_response_ok result); cbn [negb].
    - unfold bind at 1.
      match goal with
      | |- context [clear_results ?c0 pending ?s1] =>
          destruct (clear_results_post c0 pending s1)
            as (b2 & s2 & -> & Hs2 & _)
      end.
      eexists. split; [reflexivity|].
      destruct Hs2 as (_ & _ & _ & _ & _ & Hn2 & _). cbn in Hn2. congruence.
    - unfold bind at 1, log_error, log_msg. unfold bind at 1.
      match goal with
      | |- context [clear_results ?c0 pending ?s1] =>
          destruct (clear_results_post c0 pending s1)
            as (b2 & s2 & -> & Hs2 & _)
      end.
      unfold bind at 1.
      destruct (pgsql_finish_post s2) as (s3 & -> & Hs3).
      eexists. split; [reflexivity|].
      destruct Hs2 as (_ & _ & _ & _ & _ & Hn2 & _).
      destruct Hs3 as (_ & _ & _ & _ & _ & Hn3 & _).
      cbn in Hn2, Hn3. congruence. }
  destruct (BUFSIZE (world s) <=? strlen text).
  - apply Hrun. do 2 apply same_but_logs_logged. apply same_but_logs_refl.
  - apply Hrun. apply same_but_logs_logged. apply same_but_logs_refl.
Qed.

(** ** hostname_from_uri *)

Lemma hostname_from_uri_options_post (env : Env) (maxHostLength : Z)
    (conninfo : list (string * option string)) :
  forall (options : list (string * option string))
         (hostname : option string) (port : option Z) (found : Z)
         (s s' : State) (r : bool * option string * option Z),
    incl options conninfo ->
    (forall h, hostname = Some h ->
       strlen h < maxHostLength
       /\ exists keyword, is_host_keyword keyword = true
                          /\ In (keyword, Some h) conninfo) ->
    hostname_from_uri_options env maxHostLength options hostname port found s
    = Ret r s' ->
    fst (fst r) = true ->
    s' = s
    /\ forall h, snd (fst r) = Some h ->
         strlen h < maxHostLength
         /\ exists keyword, is_host_keyword keyword = true
                            /\ In (keyword, Some h) conninfo.
Proof.
  induction options as [|[keyword val] options IH];
    intros hostname port found s s' r Hincl Hinv;
    cbn [hostname_from_uri_options].
  - unfold ret. intros H Ht. injection H as <- <-. now split.
  - assert (Hin : In (keyword, val) conninfo) by (apply Hincl; now left).
    assert (Hincl' : incl options conninfo)
      by (intros x Hx; apply Hincl; now right).
    unfold bind at 1.
    destruct (is_host_keyword keyword) eqn:Hk; [destruct val as [v|]|].
    + unfold bind at 1, strlcpy, ret at 1.
      destruct (maxHostLength <=? strlen v) eqn:Hlen.
      * unfold bind at 1, log_error, log_msg, ret.
        intros H Ht. injection H as <- <-. discriminate Ht.
      * apply Z.leb_gt in Hlen. unfold ret at 1.
        rewrite substring_all by (unfold strlen in Hlen; lia).
        assert (Hinv' : forall h, Some v = Some h ->
                  strlen h < maxHostLength
                  /\ exists keyword, is_host_keyword keyword = true
                                     /\ In (keyword, Some h) conninfo).
        { intros h [= <-]. split; [exact Hlen|]. now exists keyword. }
        destruct (String.eqb keyword "port").
        -- destruct (found + 1 + 1 =? 2).
           ++ unfold ret. intros H Ht. injection H as <- <-. now split.
           ++ intros H Ht. exact (IH _ _ _ _ _ _ Hincl' Hinv' H Ht).
        -- destruct (found + 1 =? 2).
           ++ unfold ret. intros H Ht. injection H as <- <-. now split.
           ++ intros H Ht. exact (IH _ _ _ _ _ _ Hincl' Hinv' H Ht).
    + unfold ret at 1.
      destruct (String.eqb keyword "port"); destruct (found =? 2);
        try (unfold ret; intros H Ht; injection H as <- <-; now split);
        intros H Ht; exact (IH _ _ _ _ _ _ Hincl' Hinv H Ht).
    + unfold ret at 1.
      destruct (String.eqb keyword "port"); [destruct val as [v|]|].
      * destruct (found + 1 =? 2);
          try (unfold ret; intros H Ht; injection H as <- <-; now split);
          intros H Ht; exact (IH _ _ _ _ _ _ Hincl' Hinv H Ht).
      * destruct (found =? 2);
          try (unfold ret; intros H Ht; injection H as <- <-; now split);
          intros H Ht; exact (IH _ _ _ _ _ _ Hincl' Hinv H Ht).
      * destruct (found =? 2);
          try (unfold ret; intros H Ht; injection H as <- <-; now split);
          intros H Ht; exact (IH _ _ _ _ _ _ Hincl' Hinv H Ht).
Qed.

(** X14. When hostname_from_uri answers true with a hostname written, the
    hostname is the whole value of a host or hostaddr option of the parsed
    URI, shorter than maxHostLength, and nothing was logged. *)
Theorem hostname_from_uri_gives_a_whole_host_value (env : Env)
    (pguri : string) (maxHostLength : Z) (s s' : State)
    (h : string) (port : option Z) :
  hostname_from_uri env pguri maxHostLength s = Ret (true, Some h, port) s' ->
  s' = s
  /\ strlen h < maxHostLength
  /\ exists conninfo keyword,
       e_PQconninfoParse env pguri = inr conninfo
       /\ is_host_keyword keyword = true
       /\ In (keyword, Some h) conninfo.
Proof.
  unfold hostname_from_uri.
  destruct (e_PQconninfoParse env pguri) as [errmsg|conninfo].
  - unfold bind, log_error, log_msg, ret. discriminate.
  - intros H.
    apply (hostname_from_uri_options_post env maxHostLength conninfo) in H;
      [ | apply incl_refl | discriminate | reflexivity ].
    destruct H as (-> & Hh). destruct (Hh h eq_refl) as (Hlen & k & Hk & Hin).
    split; [reflexivity|]. split; [exact Hlen|].
    exists conninfo, k. now repeat split.
Qed.

Lemma hostname_from_uri_options_passed_over (env : Env) (maxHostLength : Z)
    (passed rest : list (string * option string))
    (hostname : option string) (port : option Z) (found : Z) (s : State) :
  forallb passed_over passed = true ->
  found <> 2 ->
  hostname_from_uri_options env maxHostLength (passed ++ rest)
    hostname port found s
  = hostname_from_uri_options env maxHostLength rest hostname port found s.
Proof.
  intros Hall Hfound. apply Z.eqb_neq in Hfound.
  induction passed as [|[keyword val] passed IH]; [reflexivity|].
  cbn [forallb] in Hall. apply andb_prop in Hall as [Hp Hall].
  unfold passed_over in Hp. apply andb_prop in Hp as [Hh Hport].
  apply negb_true_iff in Hh, Hport.
  cbn [app hostname_from_uri_options]. rewrite Hport.
  unfold bind at 1.
  destruct (is_host_keyword keyword); [destruct val as [v|]|].
  - discriminate Hh.
  - unfold ret at 1. rewrite Hfound. exact (IH Hall).
  - unfold ret at 1. rewrite Hfound. exact (IH Hall).
Qed.

Lemma is_host_keyword_not_port (keyword : string) :
  is_host_keyword keyword = true -> String.eqb keyword "port" = false.
Proof.
  unfold is_host_keyword. intros H. apply orb_prop in H.
  destruct H as [H|H]; apply String.eqb_eq in H; now subst.
Qed.

(** X15. hostname_from_uri stops at the second value it counts: when the
    parsed URI gives a host and a hostaddr value before any port option,
    and both fit, it answers true with the second of them as hostname and
    never writes *port, whatever options follow. *)
Theorem hostname_from_uri_leaves_port_after_two_hosts (env : Env)
    (pguri : string) (maxHostLength : Z) (s : State)
    (before between after : list (string * option string))
    (keyword1 keyword2 h1 h2 : string) :
  e_PQconninfoParse env pguri
  = inr (before ++ (keyword1, Some h1) :: between
         ++ (keyword2, Some h2) :: after) ->
  forallb passed_over before = true ->
  forallb passed_over between = true ->
  is_host_keyword keyword1 = true ->
  is_host_keyword keyword2 = true ->
  strlen h1 < maxHostLength ->
  strlen h2 < maxHostLength ->
  hostname_from_uri env pguri maxHostLength s = Ret (true, Some h2, None) s.
Proof.
  intros Hparse Hb Hm Hk1 Hk2 Hl1 Hl2.
  unfold hostname_from_uri. rewrite Hparse.
  rewrite hostname_from_uri_options_passed_over by (assumption || lia).
  cbn [hostname_from_uri_options].
  rewrite Hk1, (is_host_keyword_not_port keyword1 Hk1).
  unfold bind at 1, bind at 1, strlcpy, ret at 1.
  apply Z.leb_gt in Hl1 as Hl1'. rewrite Hl1'. unfold ret at 1.
  change (0 + 1 =? 2) with false. cbv iota.
  rewrite hostname_from_uri_options_passed_over by (assumption || lia).
  cbn [hostname_from_uri_options].
  rewrite Hk2, (is_host_keyword_not_port keyword2 Hk2).
  unfold bind at 1, bind at 1, strlcpy, ret at 1.
  apply Z.leb_gt in Hl2 as Hl2'. rewrite Hl2'. unfold ret at 1.
  change (0 + 1 + 1 =? 2) with true. cbv iota.
  unfold ret. rewrite substring_all by (unfold strlen in Hl2; lia).
  reflexivity.
Qed.

Lemma hostname_from_uri_options_without_host (env : Env)
    (maxHostLength : Z) :
  forall (options : list (string * option string))
         (hostname : option string) (port : option Z) (found : Z)
         (s : State),
    (forall keyword v, In (keyword, Some v) options ->
       is_host_keyword keyword = false) ->
    exists p,
      hostname_from_uri_options env maxHostLength options hostname port
        found s
      = Ret (true, hostname, p) s.
Proof.
  induction options as [|[keyword val] options IH];
    intros hostname port found s Hno; cbn [hostname_from_uri_options].
  - now exists port.
  - assert (Hno' : forall keyword v, In (keyword, Some v) options ->
              is_host_keyword keyword = false)
      by (intros k v Hin; apply (Hno k v); now right).
    unfold bind at 1.
    destruct (is_host_keyword keyword) eqn:Hk; [destruct val as [v|]|].
    + rewrite (Hno keyword v) in Hk by now left. discriminate Hk.
    + unfold ret at 1.
      destruct (String.eqb keyword "port"); destruct (found =? 2);
        try (eexists; reflexivity); apply (IH _ _ _ _ Hno').
    + unfold ret at 1.
      destruct (String.eqb keyword "port"); [destruct val as [v|]|];
        match goal with
        | |- context [if ?b then _ else _] => destruct b
        end;
        try (eexists; reflexivity); apply (IH _ _ _ _ Hno').
Qed.

(** X16. A URI that parses but gives no host and no hostaddr value makes
    hostname_from_uri answer true without having written a hostname and
    without logging anything. *)
Theorem hostname_from_uri_true_without_hostname (env : Env)
    (pguri : string) (maxHostLength : Z) (s : State)
    (conninfo : list (string * option string)) :
  e_PQconninfoParse env pguri = inr conninfo ->
  (forall keyword v, In (keyword, Some v) conninfo ->
     is_host_keyword keyword = false) ->
  exists port,
    hostname_from_uri env pguri maxHostLength s = Ret (true, None, port) s.
Proof.
  intros Hparse Hno. unfold hostname_from_uri. rewrite Hparse.
  exact (hostname_from_uri_options_without_host env maxHostLength conninfo
           None None 0 s Hno).
Qed.

(** ** Connection strings, any value *)

Lemma length_c_string (v : string) :
  (String.length (c_string v) <= String.length v)%nat.
Proof.
  induction v as [|c v IH]; cbn; [lia|].
  destruct (Ascii.eqb c zero); cbn; lia.
Qed.

Lemma length_escape_chars (v : string) :
  (String.length (c_string v) <= String.length (escape_chars v)
   <= 2 * String.length (c_string v))%nat.
Proof.
  induction v as [|c v IH]; cbn; [lia|].
  destruct (Ascii.eqb c zero); cbn; [lia|].
  destruct (is_quote_or_backslash c); cbn; lia.
Qed.

(** X17. The length make_conninfo_field_str returns is the length of the
    text it wrote, which is at least strlen(key) + strlen(value) + 4 and at
    most strlen(key) + 2 * strlen(value) + 4 characters: the room a caller
    has to provide in connInfo. *)
Theorem make_conninfo_field_str_length (key value : string) :
  snd (make_conninfo_field_str key value)
  = strlen (fst (make_conninfo_field_str key value))
  /\ strlen key + strlen (c_string value) + 4
     <= snd (make_conninfo_field_str key value)
     <= strlen key + 2 * strlen (c_string value) + 4.
Proof.
  unfold make_conninfo_field_str, escape_conninfo_value, strlen.
  cbn [fst snd String.append String.length].
  rewrite !length_append. cbn [String.length].
  rewrite !length_append. cbn [String.length].
  pose proof (length_escape_chars value). split; lia.
Qed.

Lemma read_quoted_escape_chars_c_string (v rest : string) :
  Conninfo.read_quoted (escape_chars v +++ String "'" rest)
  = Some (c_string v, rest).
Proof.
  induction v as [|c v IH]; cbn [escape_chars c_string];
    [reflexivity|].
  destruct (Ascii.eqb c zero); [reflexivity|].
  unfold is_quote_or_backslash.
  destruct (Ascii.eqb_spec c "'") as [->|Hq].
  - simpl. now rewrite IH.
  - destruct (Ascii.eqb_spec c "\") as [->|Hb]; simpl.
    + now rewrite IH.
    + apply Ascii.eqb_neq in Hq, Hb. rewrite Hq, Hb. now rewrite IH.
Qed.

Lemma conninfo_parse_blank (fuel : nat) (s : string) :
  Conninfo.conninfo_parse (S fuel) (String " " s)
  = Conninfo.conninfo_parse (S fuel) s.
Proof. reflexivity. Qed.

Lemma plain_chars_known_first (key : string) :
  Conninfo.plain_chars key = true ->
  Conninfo.known_keyword key = true ->
  exists c rest, key = String c rest /\ Conninfo.isspace c = false.
Proof.
  destruct key as [|c key]; intros Hplain Hknown; [discriminate Hknown|].
  exists c, key. split; [reflexivity|].
  simpl in Hplain. apply andb_prop in Hplain as [H _].
  apply andb_prop in H as [_ Hs]. now apply negb_true_iff in Hs.
Qed.

Lemma conninfo_parse_quoted (fuel : nat) (key v rest : string) :
  Conninfo.plain_chars key = true ->
  Conninfo.known_keyword key = true ->
  Conninfo.conninfo_parse (S fuel)
    (key +++ String "=" (String "'" (escape_chars v +++ String "'" rest)))
  = match Conninfo.conninfo_parse fuel rest with
    | Some options => Some ((key, c_string v) :: options)
    | None => None
    end.
Proof.
  intros Hplain Hknown.
  pose proof (read_keyword_plain key
                (String "'" (escape_chars v +++ String "'" rest)) Hplain) as Hk.
  destruct (plain_chars_known_first key Hplain Hknown) as (c & k & -> & Hs).
  cbn [Conninfo.conninfo_parse String.append Conninfo.skip_blanks] in Hk |- *.
  rewrite Hs, Hk.
  cbn [Conninfo.skip_blanks].
  change (Conninfo.isspace "'") with false. cbv iota.
  rewrite (read_quoted_escape_chars_c_string v rest), Hknown.
  reflexivity.
Qed.

Lemma bare_uint (d : Decimal.uint) :
  bare (NilEmpty.string_of_uint d) = true.
Proof. induction d; cbn; auto. Qed.

Lemma bare_string_of_Z (n : Z) :
  bare (string_of_Z n) = true /\ string_of_Z n <> EmptyString.
Proof.
  unfold string_of_Z, NilZero.string_of_int, NilZero.string_of_uint.
  destruct (Z.to_int n) as [d|d]; destruct d; cbn;
    (split; [try reflexivity; apply bare_uint | discriminate]).
Qed.

Lemma read_unquoted_bare (v rest : string) :
  bare v = true ->
  Conninfo.read_unquoted (v +++ String " " rest) = (v, rest)
  /\ Conninfo.read_unquoted v = (v, EmptyString).
Proof.
  induction v as [|c v IH]; intros H.
  - split; reflexivity.
  - cbn [bare] in H. apply andb_prop in H as [H Hv].
    apply andb_prop in H as [Hs Hq]. apply negb_true_iff in Hs, Hq.
    unfold is_quote_or_backslash in Hq. apply orb_false_elim in Hq as [_ Hb].
    destruct (IH Hv) as [IH1 IH2].
    cbn [String.append Conninfo.read_unquoted].
    rewrite Hs, Hb, IH1, IH2. split; reflexivity.
Qed.

Lemma conninfo_parse_bare (fuel : nat) (key v rest : string) :
  Conninfo.plain_chars key = true ->
  Conninfo.known_keyword key = true ->
  bare v = true ->
  v <> EmptyString ->
  Conninfo.conninfo_parse (S fuel) (key +++ String "=" (v +++ String " " rest))
  = match Conninfo.conninfo_parse fuel rest with
    | Some options => Some ((key, v) :: options)
    | None => None
    end.
Proof.
  intros Hplain Hknown Hbare Hv.
  pose proof (read_keyword_plain key (v +++ String " " rest) Hplain) as Hk.
  destruct (plain_chars_known_first key Hplain Hknown) as (c & k & -> & Hs).
  cbn [Conninfo.conninfo_parse String.append Conninfo.skip_blanks] in Hk |- *.
  rewrite Hs, Hk.
  destruct (read_unquoted_bare v rest Hbare) as [Hr _].
  destruct v as [|c' v]; [now elim Hv|].
  cbn [bare] in Hbare. apply andb_prop in Hbare as [H _].
  apply andb_prop in H as [Hs' Hq]. apply negb_true_iff in Hs', Hq.
  unfold is_quote_or_backslash in Hq. apply orb_false_elim in Hq as [Hq _].
  apply Ascii.eqb_neq in Hq.
  cbn [String.append Conninfo.skip_blanks] in Hr |- *. rewrite Hs'.
  assert (Hval : match String c' (v +++ String " " rest) with
                 | String "'" quoted => Conninfo.read_quoted quoted
                 | _ => Some (Conninfo.read_unquoted
                                (String c' (v +++ String " " rest)))
                 end = Some (String c' v, rest)).
  { rewrite <- Hr.
    destruct c' as [[|] [|] [|] [|] [|] [|] [|] [|]];
      try reflexivity; now elim Hq. }
  rewrite Hval, Hknown. reflexivity.
Qed.

(** X18. Read back as a connection string, a field written by
    make_conninfo_field_str gives its key with the value as C sees it, up
    to the first NUL, for every value: control characters and bytes above
    127 go through as well as the printable ones. *)
Theorem make_conninfo_field_str_reads_back (key value : string) :
  Conninfo.plain_chars key = true ->
  Conninfo.known_keyword key = true ->
  Conninfo.PQconninfoParse (fst (make_conninfo_field_str key value))
  = Some [(key, c_string value)].
Proof.
  intros Hplain Hknown. unfold Conninfo.PQconninfoParse.
  rewrite make_conninfo_field_str_text.
  cbn [String.length]. rewrite conninfo_parse_blank.
  change (escape_chars value +++ "'")
    with (escape_chars value +++ String "'" EmptyString).
  rewrite (conninfo_parse_quoted _ key value EmptyString Hplain Hknown).
  rewrite length_append. cbn [String.length].
  now rewrite Nat.add_succ_r.
Qed.

(** X19. A number written by make_conninfo_field_int between two fields
    written by make_conninfo_field_str reads back as its decimal text, and
    the fields around it as their values: the three calls compose into one
    connection string. *)
Theorem make_conninfo_field_int_reads_back (key1 key2 key3 : string)
    (value1 value3 : string) (value2 : Z) :
  Conninfo.plain_chars key1 = true -> Conninfo.known_keyword key1 = true ->
  Conninfo.plain_chars key2 = true -> Conninfo.known_keyword key2 = true ->
  Conninfo.plain_chars key3 = true -> Conninfo.known_keyword key3 = true ->
  Conninfo.PQconninfoParse
    (fst (make_conninfo_field_str key1 value1)
     +++ fst (make_conninfo_field_int key2 value2)
     +++ fst (make_conninfo_field_str key3 value3))
  = Some [(key1, c_string value1); (key2, string_of_Z value2);
          (key3, c_string value3)].
Proof.
  intros Hp1 Hk1 Hp2 Hk2 Hp3 Hk3.
  destruct (bare_string_of_Z value2) as [Hbare Hne].
  unfold Conninfo.PQconninfoParse.
  rewrite field_then, make_conninfo_field_str_text.
  unfold make_conninfo_field_int. cbn [fst].
  remember (String.length _) as n eqn:En.
  assert (Hn : exists k, n = (3 + k)%nat).
  { subst n. cbn [String.length String.append]. eexists.
    rewrite length_append. cbn [String.length].
    rewrite Nat.add_succ_r. cbn [String.length String.append].
    rewrite Nat.add_succ_r. cbn [String.length String.append].
    rewrite length_append. cbn [String.length].
    rewrite Nat.add_succ_r. reflexivity. }
  destruct Hn as [k ->]. clear En.
  cbn [Nat.add].
  rewrite conninfo_parse_blank.
  rewrite (conninfo_parse_quoted _ key1 value1 _ Hp1 Hk1).
  cbn [String.append]. rewrite conninfo_parse_blank.
  rewrite !append_assoc'. cbn [String.append].
  rewrite (conninfo_parse_bare _ key2 (string_of_Z value2) _ Hp2 Hk2 Hbare Hne).
  change (escape_chars value3 +++ "'")
    with (escape_chars value3 +++ String "'" EmptyString).
  rewrite (conninfo_parse_quoted _ key3 value3 EmptyString Hp3 Hk3).
  reflexivity.
Qed.

(** ** pgsql_init *)

(** X20. pgsql_init always leaves pgsql->connection NULL and the connection
    type set. When it answers true the whole url is stored, never a cut
    copy, and url is shorter than MAXCONNINFO and accepted by
    PQconninfoParse; when it answers false the connection string is the one
    that was there before. *)
Theorem pgsql_init_stores_the_whole_url (env : Env) (url : string)
    (type : ConnectionType) (s s' : State) (b : bool) :
  pgsql_init env url type s = Ret b s' ->
  connection (pgsql s') = None
  /\ connectionType (pgsql s') = type
  /\ (b = true ->
      connectionString (pgsql s') = url
      /\ strlen url < MAXCONNINFO env
      /\ exists conninfo, e_PQconninfoParse env url = inr conninfo)
  /\ (b = false ->
      connectionString (pgsql s') = connectionString (pgsql s)).
Proof.
  unfold pgsql_init, validate_connection_string.
  destruct (MAXCONNINFO env <=? strlen url) eqn:Hlen.
  - run. intros H. injection H as <- <-. cbn.
    repeat split; try reflexivity; discriminate.
  - apply Z.leb_gt in Hlen.
    destruct (e_PQconninfoParse env url) as [errorMessage|conninfo] eqn:Hp.
    + run. intros H. injection H as <- <-. cbn.
      repeat split; try reflexivity; discriminate.
    + run. unfold strlcpy. run. intros H. injection H as <- <-. cbn.
      rewrite substring_all by (unfold strlen in Hlen; lia).
      repeat split; try reflexivity; try discriminate; try exact Hlen.
      now exists conninfo.
Qed.

(** ** parseSingleValueResult, every result type *)

(** X21. Whatever the result type, when parseSingleValueResult returns on
    a result of one row it has set parsedOk; on a result of no row or of
    several rows it leaves the context and the state as they were, so
    parsedOk then holds what the caller put there. *)
Theorem parseSingleValueResult_parsedOk_iff_one_row
    (context context' : SingleValueResultContext) (result : PGresult)
    (s s' : State) :
  parseSingleValueResult context result s = Ret context' s' ->
  resultType context' = resultType context
  /\ (PQntuples result = 1 -> parsedOk context' = true)
  /\ (PQntuples result <> 1 -> context' = context /\ s' = s).
Proof.
  unfold parseSingleValueResult.
  destruct (PQntuples result =? 1) eqn:Hrows.
  - apply Z.eqb_eq in Hrows.
    destruct (PQgetvalue result 0 0) as [value|];
      destruct (resultType context) eqn:Ht;
      unfold strcmp, strtod, strtoull, libc_number,
        case_PGSQL_RESULT_STRING, strdup; run;
      try discriminate;
      try match goal with
          | |- context [if ?b then _ else _] => destruct b
          end;
      cbn; intros H; injection H as <- <-; cbn;
      (split; [now rewrite Ht | split; [reflexivity | intros Hn; now elim Hn]]).
  - apply Z.eqb_neq in Hrows. unfold ret. intros H. injection H as <- <-.
    split; [reflexivity|]. split; [intros H1; now elim Hrows | now split].
Qed.

(** ** Commands do not read the log *)

Lemma log_blind_PQexec (command : string) : log_blind (PQexec command).
Proof. unfold PQexec. blind_primitive. Qed.

Lemma log_blind_clear_results (c : option PGconn)
    (pending : list PGresult) :
  log_blind (clear_results c pending).
Proof.
  induction pending as [|result pending IH]; cbn [clear_results];
    blind; exact IH.
Qed.

Lemma log_blind_pgsql_execute_with_params {C} (fuel : nat) (sql : string)
    (paramValues : list string) (context : C)
    (parseFun : option (C -> PGresult -> M C)) :
  (forall parse context result,
     parseFun = Some parse -> log_blind (parse context result)) ->
  log_blind (pgsql_execute_with_params fuel sql paramValues context parseFun).
Proof.
  intros Hparse. unfold pgsql_execute_with_params.
  apply log_blind_bind; [apply log_blind_pgsql_open_connection|].
  intros [c|]; [|apply log_blind_ret].
  apply log_blind_bind; [apply log_blind_log|]. intros _.
  apply log_blind_bind; [destruct paramValues; blind|]. intros _.
  apply log_blind_bind; [apply log_blind_PQexec|]. intros [result pending].
  destruct (negb (is_response_ok result)).
  - apply log_blind_bind; [apply log_blind_log|]. intros _.
    apply log_blind_bind; [apply log_blind_clear_results|]. intros _.
    apply log_blind_bind; [apply log_blind_pgsql_finish|]. intros _.
    apply log_blind_ret.
  - apply log_blind_bind.
    + destruct parseFun as [parse|]; [destruct result as [result|]|].
      * now apply Hparse.
      * apply log_blind_ret.
      * apply log_blind_ret.
    + intros context'.
      apply log_blind_bind; [apply log_blind_clear_results|]. intros _.
      apply log_blind_ret.
Qed.

Lemma log_then_blind {A} (level : LogLevel) (message : string)
    (rest : M A) (s : State) :
  log_blind rest ->
  outcome_same_but_logs
    ((log_msg level message ;; rest) s) ((ret tt ;; rest) s).
Proof.
  intros Hrest. unfold bind, log_msg, ret.
  apply Hrest. apply same_but_logs_sym, same_but_logs_logged.
  apply same_but_logs_refl.
Qed.

(** X22. The flag verbose of pgsql_drop_replication_slot only decides
    whether the info message is logged: with it or without it the call
    sends the same command, returns the same value and leaves the same
    state, the log apart. *)
Theorem verbose_only_silences_the_log (fuel : nat) (slotName : string)
    (s : State) :
  outcome_same_but_logs
    (pgsql_drop_replication_slot fuel slotName true s)
    (pgsql_drop_replication_slot fuel slotName false s).
Proof.
  unfold pgsql_drop_replication_slot, log_info. cbv beta zeta iota.
  apply log_then_blind.
  apply log_blind_bind.
  - apply log_blind_pgsql_execute_with_params. discriminate.
  - intros [ok u]. apply log_blind_ret.
Qed.

(** ** The properties above, on examples *)

Import Fixtures.

Lemma pgsql_retry_open_connection_needs_ping_ok_witness :
  let s' := state_after (pgsql_retry_open_connection 3) starting in
  world s' = world starting /\ n_exec s' = n_exec starting
  /\ conn_status established = CONNECTION_OK
  /\ pgsql s' = pgsql starting
  /\ exists k,
       (n_ping starting <= k < n_ping s')%nat
       /\ w_PQping (world starting) k (connectionString (pgsql starting))
          = PQPING_OK.
Proof.
  apply (pgsql_retry_open_connection_needs_ping_ok 3 starting
           (state_after (pgsql_retry_open_connection 3) starting)
           (Some established)).
  vm_compute. reflexivity.
Defined.

Lemma pgsql_open_connection_stores_what_it_returns_witness :
  let s' := local_down_after_attempt in
  connection (pgsql s') = None
  /\ connectionString (pgsql s') = connectionString (pgsql local_down)
  /\ connectionType (pgsql s') = connectionType (pgsql local_down)
  /\ world s' = world local_down /\ n_exec s' = n_exec local_down
  /\ forall c, None = Some c ->
       connection (pgsql local_down) = Some c
       \/ conn_status c = CONNECTION_OK.
Proof.
  apply (pgsql_open_connection_stores_what_it_returns 0 local_down
           local_down_after_attempt None).
  vm_compute. reflexivity.
Defined.

Lemma pgsql_alter_system_set_steps_witness :
  exists s',
    pgsql_alter_system_set 0 (mkGUC "synchronous_standby_names" "'*'")
      (connected (Some connection_lost))
    = Ret false s'
    /\ n_exec s' = 1%nat
    /\ connection (pgsql s') = None
    /\ world s' = world (connected (Some connection_lost)).
Proof.
  exact (pgsql_alter_system_set_steps 0
           (mkGUC "synchronous_standby_names" "'*'")
           (connected (Some connection_lost)) established eq_refl).
Defined.

Lemma pgsql_disable_synchronous_replication_steps_witness :
  exists s',
    pgsql_disable_synchronous_replication 0 connected_strict = Ret true s'
    /\ n_exec s' = 3%nat
    /\ connection (pgsql s') = Some established.
Proof.
  exact (pgsql_disable_synchronous_replication_steps 0 connected_strict
           established eq_refl).
Defined.

Lemma pgsql_get_hba_file_path_whole_or_false_witness :
  let v := "/var/lib/postgresql/11/main/pg_hba.conf" in
  (exists s' written,
     pgsql_get_hba_file_path 0 1024 (connected (Some (one_row v)))
     = Ret (true, Some written) s'
     /\ (strlen v < 1024 -> written = v))
  /\ (exists s' written,
        pgsql_get_hba_file_path 0 16 (connected (Some (one_row v)))
        = Ret (false, Some written) s'
        /\ (strlen v < 16 -> written = v)).
Proof.
  split.
  - apply (pgsql_get_hba_file_path_whole_or_false 0 1024
             (connected
                (Some (one_row "/var/lib/postgresql/11/main/pg_hba.conf")))
             established
             (one_row "/var/lib/postgresql/11/main/pg_hba.conf") []
             "/var/lib/postgresql/11/main/pg_hba.conf");
      (reflexivity || lia).
  - apply (pgsql_get_hba_file_path_whole_or_false 0 16
             (connected
                (Some (one_row "/var/lib/postgresql/11/main/pg_hba.conf")))
             established
             (one_row "/var/lib/postgresql/11/main/pg_hba.conf") []
             "/var/lib/postgresql/11/main/pg_hba.conf");
      (reflexivity || lia).
Defined.

Lemma pgsql_get_config_file_path_truncates_witness :
  let v := "/etc/postgresql/11/main/postgresql.conf" in
  exists s' written,
    pgsql_get_config_file_path 0 16 (connected (Some (one_row v)))
    = Ret (true, Some written) s'
    /\ written = substring 0 (Z.to_nat (16 - 1)) v
    /\ (strlen v < 16 -> written = v)
    /\ (16 <= strlen v -> written <> v).
Proof.
  apply (pgsql_get_config_file_path_truncates 0 16
           (connected
              (Some (one_row "/etc/postgresql/11/main/postgresql.conf")))
           established
           (one_row "/etc/postgresql/11/main/postgresql.conf") []
           "/etc/postgresql/11/main/postgresql.conf");
    (reflexivity || lia).
Defined.

Lemma pgsql_is_in_recovery_reads_t_witness :
  (forall v, PQntuples (one_row "true") = 1 ->
     PQgetvalue (one_row "true") 0 0 = Some v ->
     exists s',
       pgsql_is_in_recovery 0 (connected (Some (one_row "true")))
       = Ret (true, Some (String.eqb v "t")) s')
  /\ (PQntuples (one_row "true") <> 1 ->
      exists s',
        pgsql_is_in_recovery 0 (connected (Some (one_row "true")))
        = Ret (false, None) s').
Proof.
  apply (pgsql_is_in_recovery_reads_t 0
           (connected (Some (one_row "true"))) established
           (one_row "true") []); reflexivity.
Defined.

Lemma pgsql_execute_with_params_false_witness :
  let context := new_context PGSQL_RESULT_STRING in
  let call :=
    pgsql_execute_with_params 0 "SELECT set_config($1, $2, false)"
      ["application_name"; "pg_autoctl"] context
      (Some parseSingleValueResult) in
  let s := connected (Some connection_lost) in
  call s = Ret (false, context_after call s) (state_after call s)
  /\ context_after call s = context
  /\ connection (pgsql (state_after call s)) = None.
Proof.
  split; [vm_compute; reflexivity|].
  apply (pgsql_execute_with_params_false 0
           "SELECT set_config($1, $2, false)"
           ["application_name"; "pg_autoctl"]
           (new_context PGSQL_RESULT_STRING)
           (context_after
              (pgsql_execute_with_params 0
                 "SELECT set_config($1, $2, false)"
                 ["application_name"; "pg_autoctl"]
                 (new_context PGSQL_RESULT_STRING)
                 (Some parseSingleValueResult))
              (connected (Some connection_lost)))
           (Some parseSingleValueResult)
           (connected (Some connection_lost))).
  - vm_compute. reflexivity.
  - vm_compute. reflexivity.
Defined.

Lemma pgsql_get_sync_state_and_current_lsn_fits_witness :
  strlen "quorum" < PGSR_SYNC_STATE_MAXLENGTH example_env
  /\ strlen "0/30000" < PG_LSN_MAXLENGTH example_env
  /\ strlen "0/30000" < 8.
Proof.
  apply (pgsql_get_sync_state_and_current_lsn_fits example_env 0
           "pgautofailover_standby" 8 false
           (connected (Some quorum_row))
           (state_after
              (pgsql_get_sync_state_and_current_lsn example_env 0
                 "pgautofailover_standby" 8 false)
              (connected (Some quorum_row)))).
  - vm_compute. discriminate.
  - vm_compute. discriminate.
  - lia.
  - vm_compute. reflexivity.
Defined.

Lemma pgsql_listen_one_command_per_channel_witness :
  n_exec (state_after (pgsql_listen 0 ["state"; "log"]) connected_strict)
  = (n_exec connected_strict + List.length ["state"; "log"])%nat.
Proof.
  apply (pgsql_listen_one_command_per_channel 0 ["state"; "log"]
           connected_strict).
  vm_compute. reflexivity.
Defined.

Lemma pgsql_listen_keeps_the_connection_witness :
  pgsql_listen 0 ["state"; "log"] (connected (Some connection_lost))
  = Ret (Some false)
      (state_after (pgsql_listen 0 ["state"; "log"])
         (connected (Some connection_lost)))
  /\ connection
       (pgsql
          (state_after (pgsql_listen 0 ["state"; "log"])
             (connected (Some connection_lost))))
     = Some established.
Proof.
  split; [vm_compute; reflexivity|].
  apply (pgsql_listen_keeps_the_connection 0 ["state"; "log"]
           (connected (Some connection_lost))
           (state_after (pgsql_listen 0 ["state"; "log"])
              (connected (Some connection_lost)))
           established false).
  - reflexivity.
  - intros name _. discriminate.
  - vm_compute. reflexivity.
Defined.

Lemma pgsql_alter_extension_update_to_misses_null_version_witness :
  exists s',
    pgsql_alter_extension_update_to 0 "pgautofailover" invalid_text
      connected_strict
    = Ret true s'
    /\ n_exec s' = 1%nat.
Proof.
  exact (pgsql_alter_extension_update_to_misses_null_version 0
           "pgautofailover" invalid_text
           (dquote +++ "pgautofailover" +++ dquote)
           connected_strict established eq_refl eq_refl eq_refl).
Defined.

Lemma hostname_from_uri_gives_a_whole_host_value_witness :
  local_down = local_down
  /\ strlen "db1.example.com" < 64
  /\ exists conninfo keyword,
       e_PQconninfoParse example_env "host=db1.example.com port=6432"
       = inr conninfo
       /\ is_host_keyword keyword = true
       /\ In (keyword, Some "db1.example.com") conninfo.
Proof.
  apply (hostname_from_uri_gives_a_whole_host_value example_env
           "host=db1.example.com port=6432" 64 local_down local_down
           "db1.example.com" (Some 6432)).
  vm_compute. reflexivity.
Defined.

Lemma hostname_from_uri_leaves_port_after_two_hosts_witness :
  hostname_from_uri example_env
    "dbname=pg_auto_failover host=monitor hostaddr=10.0.0.7 port=6432"
    64 local_down
  = Ret (true, Some "10.0.0.7", None) local_down.
Proof.
  apply (hostname_from_uri_leaves_port_after_two_hosts example_env
           "dbname=pg_auto_failover host=monitor hostaddr=10.0.0.7 port=6432"
           64 local_down
           [("dbname", Some "pg_auto_failover")] [] [("port", Some "6432")]
           "host" "hostaddr" "monitor" "10.0.0.7");
    vm_compute; reflexivity.
Defined.

Lemma hostname_from_uri_true_without_hostname_witness :
  exists port,
    hostname_from_uri example_env "dbname=postgres port=6432" 64 local_down
    = Ret (true, None, port) local_down.
Proof.
  apply (hostname_from_uri_true_without_hostname example_env
           "dbname=postgres port=6432" 64 local_down
           [("dbname", Some "postgres"); ("port", Some "6432")]).
  - vm_compute. reflexivity.
  - intros keyword v [H|[H|[]]]; injection H as <- _; reflexivity.
Defined.

Lemma make_conninfo_field_str_reads_back_witness :
  let value := String "009" "it's C:\db" in
  Conninfo.PQconninfoParse (fst (make_conninfo_field_str "dbname" value))
  = Some [("dbname", c_string value)].
Proof.
  apply (make_conninfo_field_str_reads_back "dbname"
           (String "009" "it's C:\db")); reflexivity.
Defined.

Lemma make_conninfo_field_int_reads_back_witness :
  Conninfo.PQconninfoParse
    (fst (make_conninfo_field_str "host" "db 1")
     +++ fst (make_conninfo_field_int "port" 5432)
     +++ fst (make_conninfo_field_str "dbname" "it's"))
  = Some [("host", c_string "db 1"); ("port", string_of_Z 5432);
          ("dbname", c_string "it's")].
Proof.
  apply (make_conninfo_field_int_reads_back "host" "port" "dbname"
           "db 1" "it's" 5432); reflexivity.
Defined.

Lemma pgsql_init_stores_the_whole_url_witness :
  let url := "host=localhost port=5432 dbname=postgres" in
  let s' :=
    state_after (pgsql_init example_env url PGSQL_CONN_MONITOR) local_down in
  connection (pgsql s') = None
  /\ connectionType (pgsql s') = PGSQL_CONN_MONITOR
  /\ (true = true ->
      connectionString (pgsql s') = url
      /\ strlen url < MAXCONNINFO example_env
      /\ exists conninfo, e_PQconninfoParse example_env url = inr conninfo)
  /\ (true = false ->
      connectionString (pgsql s') = connectionString (pgsql local_down)).
Proof.
  apply (pgsql_init_stores_the_whole_url example_env
           "host=localhost port=5432 dbname=postgres" PGSQL_CONN_MONITOR
           local_down
           (state_after
              (pgsql_init example_env
                 "host=localhost port=5432 dbname=postgres"
                 PGSQL_CONN_MONITOR) local_down) true).
  vm_compute. reflexivity.
Defined.

Lemma parseSingleValueResult_parsedOk_iff_one_row_witness :
  let context := new_context PGSQL_RESULT_INT in
  let context' := set_parsedOk (set_intVal context 12) true in
  resultType context' = resultType context
  /\ (PQntuples (one_row "12") = 1 -> parsedOk context' = true)
  /\ (PQntuples (one_row "12") <> 1 ->
      context' = context /\ local_down = local_down).
Proof.
  apply (parseSingleValueResult_parsedOk_iff_one_row
           (new_context PGSQL_RESULT_INT)
           (set_parsedOk (set_intVal (new_context PGSQL_RESULT_INT) 12) true)
           (one_row "12") local_down local_down).
  vm_compute. reflexivity.
Defined.
